(** * Résumé text structuring and layout: a model of [app/services/pdf_service.py]

    The development embeds the parsing helpers, the parser
    [_parse_resume_sections], the sanitizer [_sanitize_text], the two-column
    table builder [_build_skills_table] and the section branch of
    [generate_resume_pdf], and proves properties of them.

    Conventions.
    - A Python [str] is a list of Unicode code points ([N]).
    - Python exceptions and non-termination are explicit: a computation
      returns [Ok v], [Raise e] or [OutOfFuel]; the [while] loops run on fuel.
    - The mutable [sections] list is a list of blocks; [current_section],
      which aliases one of the dicts stored in [sections], is the position of
      that dict in the list.
    - The character predicates of the Python runtime ([str.isspace],
      [str.isupper], [str.lower], the classes [\s] and [\d] of [re]) are given
      by the tables of the Unicode Character Database 14.0 shipped with
      CPython 3.11. *)

From Stdlib Require Import NArith Lia List Bool String Ascii.
From stdpp Require Import base option list.

Set Default Proof Using "Type".

(** ** Results of computations that may raise *)

Inductive exn := IndexError | KeyError | DanglingReference.

Inductive result (A : Type) : Type :=
| Ok (a : A)
| Raise (e : exn)
| OutOfFuel.
Arguments Ok {A} a.
Arguments Raise {A} e.
Arguments OutOfFuel {A}.

#[global] Instance result_ret : MRet result := fun A a => Ok a.
#[global] Instance result_bind : MBind result := fun A B f m =>
  match m with
  | Ok a => f a
  | Raise e => Raise e
  | OutOfFuel => OutOfFuel
  end.

Definition is_Ok {A} (m : result A) : Prop := exists a, m = Ok a.

(** ** Strings *)

Definition char := N.
Definition str := list char.

(** [py s] is the Python string with the same characters as the ASCII
    literal [s]. *)
Fixpoint py (s : string) : str :=
  match s with
  | EmptyString => []
  | String a s' => N_of_ascii a :: py s'
  end.

Definition LF : char := 10%N.

Definition nonempty {A} (s : list A) : bool :=
  match s with [] => false | _ => true end.

(** [xs[i]] *)
Definition getitem {A} (xs : list A) (i : nat) : result A :=
  match xs !! i with
  | Some x => Ok x
  | None => Raise IndexError
  end.

Definition char_in (c : char) (cs : list char) : bool :=
  existsb (N.eqb c) cs.

(** ** The Unicode character database (UCD 14.0, as in CPython 3.11)

    An entry [(lo, hi, k)] stands for the code points [lo, lo+k, ..., hi]. *)

Definition in_run (c : char) (r : N * N * N) : bool :=
  let '(lo, hi, k) := r in
  if (lo <=? c)%N then
    if (c <=? hi)%N then ((c - lo) mod k =? 0)%N else false
  else false.

Fixpoint in_table (t : list (N * N * N)) (c : char) : bool :=
  match t with
  | [] => false
  | r :: t' => if in_run c r then true else in_table t' c
  end.

Section Tables.
Local Open Scope N_scope.

Definition space_table : list (N * N * N) :=
  [ (0x9, 0xD, 1); (0x1C, 0x20, 1); (0x85, 0x85, 1); (0xA0, 0xA0, 1); (0x1680, 0x1680, 1);
    (0x2000, 0x200A, 1); (0x2028, 0x2029, 1); (0x202F, 0x202F, 1); (0x205F, 0x205F, 1); (0x3000, 0x3000, 1) ].

Definition decimal_table : list (N * N * N) :=
  [ (0x30, 0x39, 1); (0x660, 0x669, 1); (0x6F0, 0x6F9, 1); (0x7C0, 0x7C9, 1); (0x966, 0x96F, 1);
    (0x9E6, 0x9EF, 1); (0xA66, 0xA6F, 1); (0xAE6, 0xAEF, 1); (0xB66, 0xB6F, 1); (0xBE6, 0xBEF, 1);
    (0xC66, 0xC6F, 1); (0xCE6, 0xCEF, 1); (0xD66, 0xD6F, 1); (0xDE6, 0xDEF, 1); (0xE50, 0xE59, 1);
    (0xED0, 0xED9, 1); (0xF20, 0xF29, 1); (0x1040, 0x1049, 1); (0x1090, 0x1099, 1); (0x17E0, 0x17E9, 1);
    (0x1810, 0x1819, 1); (0x1946, 0x194F, 1); (0x19D0, 0x19D9, 1); (0x1A80, 0x1A89, 1); (0x1A90, 0x1A99, 1);
    (0x1B50, 0x1B59, 1); (0x1BB0, 0x1BB9, 1); (0x1C40, 0x1C49, 1); (0x1C50, 0x1C59, 1); (0xA620, 0xA629, 1);
    (0xA8D0, 0xA8D9, 1); (0xA900, 0xA909, 1); (0xA9D0, 0xA9D9, 1); (0xA9F0, 0xA9F9, 1); (0xAA50, 0xAA59, 1);
    (0xABF0, 0xABF9, 1); (0xFF10, 0xFF19, 1); (0x104A0, 0x104A9, 1); (0x10D30, 0x10D39, 1); (0x11066, 0x1106F, 1);
    (0x110F0, 0x110F9, 1); (0x11136, 0x1113F, 1); (0x111D0, 0x111D9, 1); (0x112F0, 0x112F9, 1); (0x11450, 0x11459, 1);
    (0x114D0, 0x114D9, 1); (0x11650, 0x11659, 1); (0x116C0, 0x116C9, 1); (0x11730, 0x11739, 1); (0x118E0, 0x118E9, 1);
    (0x11950, 0x11959, 1); (0x11C50, 0x11C59, 1); (0x11D50, 0x11D59, 1); (0x11DA0, 0x11DA9, 1); (0x16A60, 0x16A69, 1);
    (0x16AC0, 0x16AC9, 1); (0x16B50, 0x16B59, 1); (0x1D7CE, 0x1D7FF, 1); (0x1E140, 0x1E149, 1); (0x1E2F0, 0x1E2F9, 1);
    (0x1E950, 0x1E959, 1); (0x1FBF0, 0x1FBF9, 1) ].

Definition lowercase_table : list (N * N * N) :=
  [ (0x61, 0x7A, 1); (0xAA, 0xAA, 1); (0xB5, 0xB5, 1); (0xBA, 0xBA, 1); (0xDF, 0xF6, 1);
    (0xF8, 0xFF, 1); (0x101, 0x137, 2); (0x138, 0x148, 2); (0x149, 0x177, 2); (0x17A, 0x17E, 2);
    (0x17F, 0x180, 1); (0x183, 0x185, 2); (0x188, 0x188, 1); (0x18C, 0x18D, 1); (0x192, 0x192, 1);
    (0x195, 0x195, 1); (0x199, 0x19B, 1); (0x19E, 0x19E, 1); (0x1A1, 0x1A5, 2); (0x1A8, 0x1AA, 2);
    (0x1AB, 0x1AD, 2); (0x1B0, 0x1B0, 1); (0x1B4, 0x1B6, 2); (0x1B9, 0x1BA, 1); (0x1BD, 0x1BF, 1);
    (0x1C6, 0x1C6, 1); (0x1C9, 0x1C9, 1); (0x1CC, 0x1DC, 2); (0x1DD, 0x1EF, 2); (0x1F0, 0x1F0, 1);
    (0x1F3, 0x1F5, 2); (0x1F9, 0x233, 2); (0x234, 0x239, 1); (0x23C, 0x23C, 1); (0x23F, 0x240, 1);
    (0x242, 0x242, 1); (0x247, 0x24F, 2); (0x250, 0x293, 1); (0x295, 0x2B8, 1); (0x2C0, 0x2C1, 1);
    (0x2E0, 0x2E4, 1); (0x345, 0x345, 1); (0x371, 0x373, 2); (0x377, 0x377, 1); (0x37A, 0x37D, 1);
    (0x390, 0x390, 1); (0x3AC, 0x3CE, 1); (0x3D0, 0x3D1, 1); (0x3D5, 0x3D7, 1); (0x3D9, 0x3EF, 2);
    (0x3F0, 0x3F3, 1); (0x3F5, 0x3F5, 1); (0x3F8, 0x3F8, 1); (0x3FB, 0x3FC, 1); (0x430, 0x45F, 1);
    (0x461, 0x481, 2); (0x48B, 0x4BF, 2); (0x4C2, 0x4CE, 2); (0x4CF, 0x52F, 2); (0x560, 0x588, 1);
    (0x10D0, 0x10FA, 1); (0x10FD, 0x10FF, 1); (0x13F8, 0x13FD, 1); (0x1C80, 0x1C88, 1); (0x1D00, 0x1DBF, 1);
    (0x1E01, 0x1E95, 2); (0x1E96, 0x1E9D, 1); (0x1E9F, 0x1EFF, 2); (0x1F00, 0x1F07, 1); (0x1F10, 0x1F15, 1);
    (0x1F20, 0x1F27, 1); (0x1F30, 0x1F37, 1); (0x1F40, 0x1F45, 1); (0x1F50, 0x1F57, 1); (0x1F60, 0x1F67, 1);
    (0x1F70, 0x1F7D, 1); (0x1F80, 0x1F87, 1); (0x1F90, 0x1F97, 1); (0x1FA0, 0x1FA7, 1); (0x1FB0, 0x1FB4, 1);
    (0x1FB6, 0x1FB7, 1); (0x1FBE, 0x1FBE, 1); (0x1FC2, 0x1FC4, 1); (0x1FC6, 0x1FC7, 1); (0x1FD0, 0x1FD3, 1);
    (0x1FD6, 0x1FD7, 1); (0x1FE0, 0x1FE7, 1); (0x1FF2, 0x1FF4, 1); (0x1FF6, 0x1FF7, 1); (0x2071, 0x2071, 1);
    (0x207F, 0x207F, 1); (0x2090, 0x209C, 1); (0x210A, 0x210A, 1); (0x210E, 0x210F, 1); (0x2113, 0x2113, 1);
    (0x212F, 0x212F, 1); (0x2134, 0x2134, 1); (0x2139, 0x2139, 1); (0x213C, 0x213D, 1); (0x2146, 0x2149, 1);
    (0x214E, 0x214E, 1); (0x2170, 0x217F, 1); (0x2184, 0x2184, 1); (0x24D0, 0x24E9, 1); (0x2C30, 0x2C5F, 1);
    (0x2C61, 0x2C61, 1); (0x2C65, 0x2C66, 1); (0x2C68, 0x2C6C, 2); (0x2C71, 0x2C73, 2); (0x2C74, 0x2C76, 2);
    (0x2C77, 0x2C7D, 1); (0x2C81, 0x2CE3, 2); (0x2CE4, 0x2CE4, 1); (0x2CEC, 0x2CEE, 2); (0x2CF3, 0x2CF3, 1);
    (0x2D00, 0x2D25, 1); (0x2D27, 0x2D27, 1); (0x2D2D, 0x2D2D, 1); (0xA641, 0xA66D, 2); (0xA681, 0xA69B, 2);
    (0xA69C, 0xA69D, 1); (0xA723, 0xA72F, 2); (0xA730, 0xA731, 1); (0xA733, 0xA76F, 2); (0xA770, 0xA778, 1);
    (0xA77A, 0xA77C, 2); (0xA77F, 0xA787, 2); (0xA78C, 0xA78E, 2); (0xA791, 0xA793, 2); (0xA794, 0xA795, 1);
    (0xA797, 0xA7A9, 2); (0xA7AF, 0xA7AF, 1); (0xA7B5, 0xA7C3, 2); (0xA7C8, 0xA7CA, 2); (0xA7D1, 0xA7D9, 2);
    (0xA7F6, 0xA7F8, 2); (0xA7F9, 0xA7FA, 1); (0xAB30, 0xAB5A, 1); (0xAB5C, 0xAB68, 1); (0xAB70, 0xABBF, 1);
    (0xFB00, 0xFB06, 1); (0xFB13, 0xFB17, 1); (0xFF41, 0xFF5A, 1); (0x10428, 0x1044F, 1); (0x104D8, 0x104FB, 1);
    (0x10597, 0x105A1, 1); (0x105A3, 0x105B1, 1); (0x105B3, 0x105B9, 1); (0x105BB, 0x105BC, 1); (0x10780, 0x10780, 1);
    (0x10783, 0x10785, 1); (0x10787, 0x107B0, 1); (0x107B2, 0x107BA, 1); (0x10CC0, 0x10CF2, 1); (0x118C0, 0x118DF, 1);
    (0x16E60, 0x16E7F, 1); (0x1D41A, 0x1D433, 1); (0x1D44E, 0x1D454, 1); (0x1D456, 0x1D467, 1); (0x1D482, 0x1D49B, 1);
    (0x1D4B6, 0x1D4B9, 1); (0x1D4BB, 0x1D4BD, 2); (0x1D4BE, 0x1D4C3, 1); (0x1D4C5, 0x1D4CF, 1); (0x1D4EA, 0x1D503, 1);
    (0x1D51E, 0x1D537, 1); (0x1D552, 0x1D56B, 1); (0x1D586, 0x1D59F, 1); (0x1D5BA, 0x1D5D3, 1); (0x1D5EE, 0x1D607, 1);
    (0x1D622, 0x1D63B, 1); (0x1D656, 0x1D66F, 1); (0x1D68A, 0x1D6A5, 1); (0x1D6C2, 0x1D6DA, 1); (0x1D6DC, 0x1D6E1, 1);
    (0x1D6FC, 0x1D714, 1); (0x1D716, 0x1D71B, 1); (0x1D736, 0x1D74E, 1); (0x1D750, 0x1D755, 1); (0x1D770, 0x1D788, 1);
    (0x1D78A, 0x1D78F, 1); (0x1D7AA, 0x1D7C2, 1); (0x1D7C4, 0x1D7C9, 1); (0x1D7CB, 0x1D7CB, 1); (0x1DF00, 0x1DF09, 1);
    (0x1DF0B, 0x1DF1E, 1); (0x1E922, 0x1E943, 1) ].

Definition uppercase_table : list (N * N * N) :=
  [ (0x41, 0x5A, 1); (0xC0, 0xD6, 1); (0xD8, 0xDE, 1); (0x100, 0x136, 2); (0x139, 0x147, 2);
    (0x14A, 0x178, 2); (0x179, 0x17D, 2); (0x181, 0x182, 1); (0x184, 0x186, 2); (0x187, 0x189, 2);
    (0x18A, 0x18B, 1); (0x18E, 0x191, 1); (0x193, 0x194, 1); (0x196, 0x198, 1); (0x19C, 0x19D, 1);
    (0x19F, 0x1A0, 1); (0x1A2, 0x1A6, 2); (0x1A7, 0x1A9, 2); (0x1AC, 0x1AE, 2); (0x1AF, 0x1B1, 2);
    (0x1B2, 0x1B3, 1); (0x1B5, 0x1B7, 2); (0x1B8, 0x1B8, 1); (0x1BC, 0x1BC, 1); (0x1C4, 0x1C4, 1);
    (0x1C7, 0x1C7, 1); (0x1CA, 0x1CA, 1); (0x1CD, 0x1DB, 2); (0x1DE, 0x1EE, 2); (0x1F1, 0x1F1, 1);
    (0x1F4, 0x1F6, 2); (0x1F7, 0x1F8, 1); (0x1FA, 0x232, 2); (0x23A, 0x23B, 1); (0x23D, 0x23E, 1);
    (0x241, 0x243, 2); (0x244, 0x246, 1); (0x248, 0x24E, 2); (0x370, 0x372, 2); (0x376, 0x376, 1);
    (0x37F, 0x37F, 1); (0x386, 0x388, 2); (0x389, 0x38A, 1); (0x38C, 0x38E, 2); (0x38F, 0x391, 2);
    (0x392, 0x3A1, 1); (0x3A3, 0x3AB, 1); (0x3CF, 0x3CF, 1); (0x3D2, 0x3D4, 1); (0x3D8, 0x3EE, 2);
    (0x3F4, 0x3F4, 1); (0x3F7, 0x3F9, 2); (0x3FA, 0x3FA, 1); (0x3FD, 0x42F, 1); (0x460, 0x480, 2);
    (0x48A, 0x4C0, 2); (0x4C1, 0x4CD, 2); (0x4D0, 0x52E, 2); (0x531, 0x556, 1); (0x10A0, 0x10C5, 1);
    (0x10C7, 0x10C7, 1); (0x10CD, 0x10CD, 1); (0x13A0, 0x13F5, 1); (0x1C90, 0x1CBA, 1); (0x1CBD, 0x1CBF, 1);
    (0x1E00, 0x1E94, 2); (0x1E9E, 0x1EFE, 2); (0x1F08, 0x1F0F, 1); (0x1F18, 0x1F1D, 1); (0x1F28, 0x1F2F, 1);
    (0x1F38, 0x1F3F, 1); (0x1F48, 0x1F4D, 1); (0x1F59, 0x1F5F, 2); (0x1F68, 0x1F6F, 1); (0x1FB8, 0x1FBB, 1);
    (0x1FC8, 0x1FCB, 1); (0x1FD8, 0x1FDB, 1); (0x1FE8, 0x1FEC, 1); (0x1FF8, 0x1FFB, 1); (0x2102, 0x2102, 1);
    (0x2107, 0x2107, 1); (0x210B, 0x210D, 1); (0x2110, 0x2112, 1); (0x2115, 0x2115, 1); (0x2119, 0x211D, 1);
    (0x2124, 0x212A, 2); (0x212B, 0x212D, 1); (0x2130, 0x2133, 1); (0x213E, 0x213F, 1); (0x2145, 0x2145, 1);
    (0x2160, 0x216F, 1); (0x2183, 0x2183, 1); (0x24B6, 0x24CF, 1); (0x2C00, 0x2C2F, 1); (0x2C60, 0x2C62, 2);
    (0x2C63, 0x2C64, 1); (0x2C67, 0x2C6D, 2); (0x2C6E, 0x2C70, 1); (0x2C72, 0x2C72, 1); (0x2C75, 0x2C75, 1);
    (0x2C7E, 0x2C80, 1); (0x2C82, 0x2CE2, 2); (0x2CEB, 0x2CED, 2); (0x2CF2, 0x2CF2, 1); (0xA640, 0xA66C, 2);
    (0xA680, 0xA69A, 2); (0xA722, 0xA72E, 2); (0xA732, 0xA76E, 2); (0xA779, 0xA77D, 2); (0xA77E, 0xA786, 2);
    (0xA78B, 0xA78D, 2); (0xA790, 0xA792, 2); (0xA796, 0xA7AA, 2); (0xA7AB, 0xA7AE, 1); (0xA7B0, 0xA7B4, 1);
    (0xA7B6, 0xA7C4, 2); (0xA7C5, 0xA7C7, 1); (0xA7C9, 0xA7C9, 1); (0xA7D0, 0xA7D0, 1); (0xA7D6, 0xA7D8, 2);
    (0xA7F5, 0xA7F5, 1); (0xFF21, 0xFF3A, 1); (0x10400, 0x10427, 1); (0x104B0, 0x104D3, 1); (0x10570, 0x1057A, 1);
    (0x1057C, 0x1058A, 1); (0x1058C, 0x10592, 1); (0x10594, 0x10595, 1); (0x10C80, 0x10CB2, 1); (0x118A0, 0x118BF, 1);
    (0x16E40, 0x16E5F, 1); (0x1D400, 0x1D419, 1); (0x1D434, 0x1D44D, 1); (0x1D468, 0x1D481, 1); (0x1D49C, 0x1D49E, 2);
    (0x1D49F, 0x1D49F, 1); (0x1D4A2, 0x1D4A2, 1); (0x1D4A5, 0x1D4A6, 1); (0x1D4A9, 0x1D4AC, 1); (0x1D4AE, 0x1D4B5, 1);
    (0x1D4D0, 0x1D4E9, 1); (0x1D504, 0x1D505, 1); (0x1D507, 0x1D50A, 1); (0x1D50D, 0x1D514, 1); (0x1D516, 0x1D51C, 1);
    (0x1D538, 0x1D539, 1); (0x1D53B, 0x1D53E, 1); (0x1D540, 0x1D544, 1); (0x1D546, 0x1D546, 1); (0x1D54A, 0x1D550, 1);
    (0x1D56C, 0x1D585, 1); (0x1D5A0, 0x1D5B9, 1); (0x1D5D4, 0x1D5ED, 1); (0x1D608, 0x1D621, 1); (0x1D63C, 0x1D655, 1);
    (0x1D670, 0x1D689, 1); (0x1D6A8, 0x1D6C0, 1); (0x1D6E2, 0x1D6FA, 1); (0x1D71C, 0x1D734, 1); (0x1D756, 0x1D76E, 1);
    (0x1D790, 0x1D7A8, 1); (0x1D7CA, 0x1D7CA, 1); (0x1E900, 0x1E921, 1); (0x1F130, 0x1F149, 1); (0x1F150, 0x1F169, 1);
    (0x1F170, 0x1F189, 1) ].

Definition titlecase_table : list (N * N * N) :=
  [ (0x1C5, 0x1C5, 1); (0x1C8, 0x1C8, 1); (0x1CB, 0x1CB, 1); (0x1F2, 0x1F2, 1); (0x1F88, 0x1F8F, 1);
    (0x1F98, 0x1F9F, 1); (0x1FA8, 0x1FAF, 1); (0x1FBC, 0x1FBC, 1); (0x1FCC, 0x1FCC, 1); (0x1FFC, 0x1FFC, 1) ].

Definition case_ignorable_table : list (N * N * N) :=
  [ (0x27, 0x27, 1); (0x2E, 0x2E, 1); (0x3A, 0x3A, 1); (0x5E, 0x60, 2); (0xA8, 0xA8, 1);
    (0xAD, 0xAF, 2); (0xB4, 0xB4, 1); (0xB7, 0xB8, 1); (0x2B0, 0x36F, 1); (0x374, 0x375, 1);
    (0x37A, 0x37A, 1); (0x384, 0x385, 1); (0x387, 0x387, 1); (0x483, 0x489, 1); (0x559, 0x559, 1);
    (0x55F, 0x55F, 1); (0x591, 0x5BD, 1); (0x5BF, 0x5C1, 2); (0x5C2, 0x5C4, 2); (0x5C5, 0x5C7, 2);
    (0x5F4, 0x5F4, 1); (0x600, 0x605, 1); (0x610, 0x61A, 1); (0x61C, 0x61C, 1); (0x640, 0x640, 1);
    (0x64B, 0x65F, 1); (0x670, 0x670, 1); (0x6D6, 0x6DD, 1); (0x6DF, 0x6E8, 1); (0x6EA, 0x6ED, 1);
    (0x70F, 0x711, 2); (0x730, 0x74A, 1); (0x7A6, 0x7B0, 1); (0x7EB, 0x7F5, 1); (0x7FA, 0x7FA, 1);
    (0x7FD, 0x7FD, 1); (0x816, 0x82D, 1); (0x859, 0x85B, 1); (0x888, 0x888, 1); (0x890, 0x891, 1);
    (0x898, 0x89F, 1); (0x8C9, 0x902, 1); (0x93A, 0x93C, 2); (0x941, 0x948, 1); (0x94D, 0x94D, 1);
    (0x951, 0x957, 1); (0x962, 0x963, 1); (0x971, 0x971, 1); (0x981, 0x981, 1); (0x9BC, 0x9BC, 1);
    (0x9C1, 0x9C4, 1); (0x9CD, 0x9CD, 1); (0x9E2, 0x9E3, 1); (0x9FE, 0x9FE, 1); (0xA01, 0xA02, 1);
    (0xA3C, 0xA3C, 1); (0xA41, 0xA42, 1); (0xA47, 0xA48, 1); (0xA4B, 0xA4D, 1); (0xA51, 0xA51, 1);
    (0xA70, 0xA71, 1); (0xA75, 0xA75, 1); (0xA81, 0xA82, 1); (0xABC, 0xABC, 1); (0xAC1, 0xAC5, 1);
    (0xAC7, 0xAC8, 1); (0xACD, 0xACD, 1); (0xAE2, 0xAE3, 1); (0xAFA, 0xAFF, 1); (0xB01, 0xB01, 1);
    (0xB3C, 0xB3C, 1); (0xB3F, 0xB41, 2); (0xB42, 0xB44, 1); (0xB4D, 0xB4D, 1); (0xB55, 0xB56, 1);
    (0xB62, 0xB63, 1); (0xB82, 0xB82, 1); (0xBC0, 0xBC0, 1); (0xBCD, 0xBCD, 1); (0xC00, 0xC00, 1);
    (0xC04, 0xC04, 1); (0xC3C, 0xC3E, 2); (0xC3F, 0xC40, 1); (0xC46, 0xC48, 1); (0xC4A, 0xC4D, 1);
    (0xC55, 0xC56, 1); (0xC62, 0xC63, 1); (0xC81, 0xC81, 1); (0xCBC, 0xCBC, 1); (0xCBF, 0xCBF, 1);
    (0xCC6, 0xCC6, 1); (0xCCC, 0xCCD, 1); (0xCE2, 0xCE3, 1); (0xD00, 0xD01, 1); (0xD3B, 0xD3C, 1);
    (0xD41, 0xD44, 1); (0xD4D, 0xD4D, 1); (0xD62, 0xD63, 1); (0xD81, 0xD81, 1); (0xDCA, 0xDCA, 1);
    (0xDD2, 0xDD4, 1); (0xDD6, 0xDD6, 1); (0xE31, 0xE31, 1); (0xE34, 0xE3A, 1); (0xE46, 0xE4E, 1);
    (0xEB1, 0xEB1, 1); (0xEB4, 0xEBC, 1); (0xEC6, 0xEC8, 2); (0xEC9, 0xECD, 1); (0xF18, 0xF19, 1);
    (0xF35, 0xF39, 2); (0xF71, 0xF7E, 1); (0xF80, 0xF84, 1); (0xF86, 0xF87, 1); (0xF8D, 0xF97, 1);
    (0xF99, 0xFBC, 1); (0xFC6, 0xFC6, 1); (0x102D, 0x1030, 1); (0x1032, 0x1037, 1); (0x1039, 0x103A, 1);
    (0x103D, 0x103E, 1); (0x1058, 0x1059, 1); (0x105E, 0x1060, 1); (0x1071, 0x1074, 1); (0x1082, 0x1082, 1);
    (0x1085, 0x1086, 1); (0x108D, 0x108D, 1); (0x109D, 0x109D, 1); (0x10FC, 0x10FC, 1); (0x135D, 0x135F, 1);
    (0x1712, 0x1714, 1); (0x1732, 0x1733, 1); (0x1752, 0x1753, 1); (0x1772, 0x1773, 1); (0x17B4, 0x17B5, 1);
    (0x17B7, 0x17BD, 1); (0x17C6, 0x17C6, 1); (0x17C9, 0x17D3, 1); (0x17D7, 0x17D7, 1); (0x17DD, 0x17DD, 1);
    (0x180B, 0x180F, 1); (0x1843, 0x1843, 1); (0x1885, 0x1886, 1); (0x18A9, 0x18A9, 1); (0x1920, 0x1922, 1);
    (0x1927, 0x1928, 1); (0x1932, 0x1932, 1); (0x1939, 0x193B, 1); (0x1A17, 0x1A18, 1); (0x1A1B, 0x1A1B, 1);
    (0x1A56, 0x1A58, 2); (0x1A59, 0x1A5E, 1); (0x1A60, 0x1A62, 2); (0x1A65, 0x1A6C, 1); (0x1A73, 0x1A7C, 1);
    (0x1A7F, 0x1A7F, 1); (0x1AA7, 0x1AA7, 1); (0x1AB0, 0x1ACE, 1); (0x1B00, 0x1B03, 1); (0x1B34, 0x1B36, 2);
    (0x1B37, 0x1B3A, 1); (0x1B3C, 0x1B3C, 1); (0x1B42, 0x1B42, 1); (0x1B6B, 0x1B73, 1); (0x1B80, 0x1B81, 1);
    (0x1BA2, 0x1BA5, 1); (0x1BA8, 0x1BA9, 1); (0x1BAB, 0x1BAD, 1); (0x1BE6, 0x1BE8, 2); (0x1BE9, 0x1BE9, 1);
    (0x1BED, 0x1BEF, 2); (0x1BF0, 0x1BF1, 1); (0x1C2C, 0x1C33, 1); (0x1C36, 0x1C37, 1); (0x1C78, 0x1C7D, 1);
    (0x1CD0, 0x1CD2, 1); (0x1CD4, 0x1CE0, 1); (0x1CE2, 0x1CE8, 1); (0x1CED, 0x1CED, 1); (0x1CF4, 0x1CF4, 1);
    (0x1CF8, 0x1CF9, 1); (0x1D2C, 0x1D6A, 1); (0x1D78, 0x1D78, 1); (0x1D9B, 0x1DFF, 1); (0x1FBD, 0x1FBF, 2);
    (0x1FC0, 0x1FC1, 1); (0x1FCD, 0x1FCF, 1); (0x1FDD, 0x1FDF, 1); (0x1FED, 0x1FEF, 1); (0x1FFD, 0x1FFE, 1);
    (0x200B, 0x200F, 1); (0x2018, 0x2019, 1); (0x2024, 0x2024, 1); (0x2027, 0x2027, 1); (0x202A, 0x202E, 1);
    (0x2060, 0x2064, 1); (0x2066, 0x206F, 1); (0x2071, 0x2071, 1); (0x207F, 0x207F, 1); (0x2090, 0x209C, 1);
    (0x20D0, 0x20F0, 1); (0x2C7C, 0x2C7D, 1); (0x2CEF, 0x2CF1, 1); (0x2D6F, 0x2D6F, 1); (0x2D7F, 0x2D7F, 1);
    (0x2DE0, 0x2DFF, 1); (0x2E2F, 0x2E2F, 1); (0x3005, 0x3005, 1); (0x302A, 0x302D, 1); (0x3031, 0x3035, 1);
    (0x303B, 0x303B, 1); (0x3099, 0x309E, 1); (0x30FC, 0x30FE, 1); (0xA015, 0xA015, 1); (0xA4F8, 0xA4FD, 1);
    (0xA60C, 0xA60C, 1); (0xA66F, 0xA672, 1); (0xA674, 0xA67D, 1); (0xA67F, 0xA67F, 1); (0xA69C, 0xA69F, 1);
    (0xA6F0, 0xA6F1, 1); (0xA700, 0xA721, 1); (0xA770, 0xA770, 1); (0xA788, 0xA78A, 1); (0xA7F2, 0xA7F4, 1);
    (0xA7F8, 0xA7F9, 1); (0xA802, 0xA802, 1); (0xA806, 0xA806, 1); (0xA80B, 0xA80B, 1); (0xA825, 0xA826, 1);
    (0xA82C, 0xA82C, 1); (0xA8C4, 0xA8C5, 1); (0xA8E0, 0xA8F1, 1); (0xA8FF, 0xA8FF, 1); (0xA926, 0xA92D, 1);
    (0xA947, 0xA951, 1); (0xA980, 0xA982, 1); (0xA9B3, 0xA9B3, 1); (0xA9B6, 0xA9B9, 1); (0xA9BC, 0xA9BD, 1);
    (0xA9CF, 0xA9CF, 1); (0xA9E5, 0xA9E6, 1); (0xAA29, 0xAA2E, 1); (0xAA31, 0xAA32, 1); (0xAA35, 0xAA36, 1);
    (0xAA43, 0xAA43, 1); (0xAA4C, 0xAA4C, 1); (0xAA70, 0xAA70, 1); (0xAA7C, 0xAA7C, 1); (0xAAB0, 0xAAB2, 2);
    (0xAAB3, 0xAAB4, 1); (0xAAB7, 0xAAB8, 1); (0xAABE, 0xAABF, 1); (0xAAC1, 0xAAC1, 1); (0xAADD, 0xAADD, 1);
    (0xAAEC, 0xAAED, 1); (0xAAF3, 0xAAF4, 1); (0xAAF6, 0xAAF6, 1); (0xAB5B, 0xAB5F, 1); (0xAB69, 0xAB6B, 1);
    (0xABE5, 0xABE5, 1); (0xABE8, 0xABE8, 1); (0xABED, 0xABED, 1); (0xFB1E, 0xFB1E, 1); (0xFBB2, 0xFBC2, 1);
    (0xFE00, 0xFE0F, 1); (0xFE13, 0xFE13, 1); (0xFE20, 0xFE2F, 1); (0xFE52, 0xFE52, 1); (0xFE55, 0xFE55, 1);
    (0xFEFF, 0xFEFF, 1); (0xFF07, 0xFF07, 1); (0xFF0E, 0xFF0E, 1); (0xFF1A, 0xFF1A, 1); (0xFF3E, 0xFF40, 2);
    (0xFF70, 0xFF70, 1); (0xFF9E, 0xFF9F, 1); (0xFFE3, 0xFFE3, 1); (0xFFF9, 0xFFFB, 1); (0x101FD, 0x101FD, 1);
    (0x102E0, 0x102E0, 1); (0x10376, 0x1037A, 1); (0x10780, 0x10785, 1); (0x10787, 0x107B0, 1); (0x107B2, 0x107BA, 1);
    (0x10A01, 0x10A03, 1); (0x10A05, 0x10A06, 1); (0x10A0C, 0x10A0F, 1); (0x10A38, 0x10A3A, 1); (0x10A3F, 0x10A3F, 1);
    (0x10AE5, 0x10AE6, 1); (0x10D24, 0x10D27, 1); (0x10EAB, 0x10EAC, 1); (0x10F46, 0x10F50, 1); (0x10F82, 0x10F85, 1);
    (0x11001, 0x11001, 1); (0x11038, 0x11046, 1); (0x11070, 0x11070, 1); (0x11073, 0x11074, 1); (0x1107F, 0x11081, 1);
    (0x110B3, 0x110B6, 1); (0x110B9, 0x110BA, 1); (0x110BD, 0x110BD, 1); (0x110C2, 0x110C2, 1); (0x110CD, 0x110CD, 1);
    (0x11100, 0x11102, 1); (0x11127, 0x1112B, 1); (0x1112D, 0x11134, 1); (0x11173, 0x11173, 1); (0x11180, 0x11181, 1);
    (0x111B6, 0x111BE, 1); (0x111C9, 0x111CC, 1); (0x111CF, 0x111CF, 1); (0x1122F, 0x11231, 1); (0x11234, 0x11236, 2);
    (0x11237, 0x11237, 1); (0x1123E, 0x1123E, 1); (0x112DF, 0x112DF, 1); (0x112E3, 0x112EA, 1); (0x11300, 0x11301, 1);
    (0x1133B, 0x1133C, 1); (0x11340, 0x11340, 1); (0x11366, 0x1136C, 1); (0x11370, 0x11374, 1); (0x11438, 0x1143F, 1);
    (0x11442, 0x11444, 1); (0x11446, 0x11446, 1); (0x1145E, 0x1145E, 1); (0x114B3, 0x114B8, 1); (0x114BA, 0x114BA, 1);
    (0x114BF, 0x114C0, 1); (0x114C2, 0x114C3, 1); (0x115B2, 0x115B5, 1); (0x115BC, 0x115BD, 1); (0x115BF, 0x115C0, 1);
    (0x115DC, 0x115DD, 1); (0x11633, 0x1163A, 1); (0x1163D, 0x1163F, 2); (0x11640, 0x11640, 1); (0x116AB, 0x116AD, 2);
    (0x116B0, 0x116B5, 1); (0x116B7, 0x116B7, 1); (0x1171D, 0x1171F, 1); (0x11722, 0x11725, 1); (0x11727, 0x1172B, 1);
    (0x1182F, 0x11837, 1); (0x11839, 0x1183A, 1); (0x1193B, 0x1193C, 1); (0x1193E, 0x1193E, 1); (0x11943, 0x11943, 1);
    (0x119D4, 0x119D7, 1); (0x119DA, 0x119DB, 1); (0x119E0, 0x119E0, 1); (0x11A01, 0x11A0A, 1); (0x11A33, 0x11A38, 1);
    (0x11A3B, 0x11A3E, 1); (0x11A47, 0x11A47, 1); (0x11A51, 0x11A56, 1); (0x11A59, 0x11A5B, 1); (0x11A8A, 0x11A96, 1);
    (0x11A98, 0x11A99, 1); (0x11C30, 0x11C36, 1); (0x11C38, 0x11C3D, 1); (0x11C3F, 0x11C3F, 1); (0x11C92, 0x11CA7, 1);
    (0x11CAA, 0x11CB0, 1); (0x11CB2, 0x11CB3, 1); (0x11CB5, 0x11CB6, 1); (0x11D31, 0x11D36, 1); (0x11D3A, 0x11D3C, 2);
    (0x11D3D, 0x11D3F, 2); (0x11D40, 0x11D45, 1); (0x11D47, 0x11D47, 1); (0x11D90, 0x11D91, 1); (0x11D95, 0x11D97, 2);
    (0x11EF3, 0x11EF4, 1); (0x13430, 0x13438, 1); (0x16AF0, 0x16AF4, 1); (0x16B30, 0x16B36, 1); (0x16B40, 0x16B43, 1);
    (0x16F4F, 0x16F4F, 1); (0x16F8F, 0x16F9F, 1); (0x16FE0, 0x16FE1, 1); (0x16FE3, 0x16FE4, 1); (0x1AFF0, 0x1AFF3, 1);
    (0x1AFF5, 0x1AFFB, 1); (0x1AFFD, 0x1AFFE, 1); (0x1BC9D, 0x1BC9E, 1); (0x1BCA0, 0x1BCA3, 1); (0x1CF00, 0x1CF2D, 1);
    (0x1CF30, 0x1CF46, 1); (0x1D167, 0x1D169, 1); (0x1D173, 0x1D182, 1); (0x1D185, 0x1D18B, 1); (0x1D1AA, 0x1D1AD, 1);
    (0x1D242, 0x1D244, 1); (0x1DA00, 0x1DA36, 1); (0x1DA3B, 0x1DA6C, 1); (0x1DA75, 0x1DA75, 1); (0x1DA84, 0x1DA84, 1);
    (0x1DA9B, 0x1DA9F, 1); (0x1DAA1, 0x1DAAF, 1); (0x1E000, 0x1E006, 1); (0x1E008, 0x1E018, 1); (0x1E01B, 0x1E021, 1);
    (0x1E023, 0x1E024, 1); (0x1E026, 0x1E02A, 1); (0x1E130, 0x1E13D, 1); (0x1E2AE, 0x1E2AE, 1); (0x1E2EC, 0x1E2EF, 1);
    (0x1E8D0, 0x1E8D6, 1); (0x1E944, 0x1E94B, 1); (0x1F3FB, 0x1F3FF, 1); (0xE0001, 0xE0001, 1); (0xE0020, 0xE007F, 1);
    (0xE0100, 0xE01EF, 1) ].

Definition tolower_table : list (N * N * N * N) :=
  [ (0x41, 0x5A, 1, 0x61); (0xC0, 0xD6, 1, 0xE0); (0xD8, 0xDE, 1, 0xF8); (0x100, 0x12E, 2, 0x101);
    (0x130, 0x130, 1, 0x69); (0x132, 0x136, 2, 0x133); (0x139, 0x147, 2, 0x13A); (0x14A, 0x176, 2, 0x14B);
    (0x178, 0x178, 1, 0xFF); (0x179, 0x17D, 2, 0x17A); (0x181, 0x181, 1, 0x253); (0x182, 0x184, 2, 0x183);
    (0x186, 0x186, 1, 0x254); (0x187, 0x187, 1, 0x188); (0x189, 0x18A, 1, 0x256); (0x18B, 0x18B, 1, 0x18C);
    (0x18E, 0x18E, 1, 0x1DD); (0x18F, 0x18F, 1, 0x259); (0x190, 0x190, 1, 0x25B); (0x191, 0x191, 1, 0x192);
    (0x193, 0x193, 1, 0x260); (0x194, 0x194, 1, 0x263); (0x196, 0x196, 1, 0x269); (0x197, 0x197, 1, 0x268);
    (0x198, 0x198, 1, 0x199); (0x19C, 0x19C, 1, 0x26F); (0x19D, 0x19D, 1, 0x272); (0x19F, 0x19F, 1, 0x275);
    (0x1A0, 0x1A4, 2, 0x1A1); (0x1A6, 0x1A6, 1, 0x280); (0x1A7, 0x1A7, 1, 0x1A8); (0x1A9, 0x1A9, 1, 0x283);
    (0x1AC, 0x1AC, 1, 0x1AD); (0x1AE, 0x1AE, 1, 0x288); (0x1AF, 0x1AF, 1, 0x1B0); (0x1B1, 0x1B2, 1, 0x28A);
    (0x1B3, 0x1B5, 2, 0x1B4); (0x1B7, 0x1B7, 1, 0x292); (0x1B8, 0x1B8, 1, 0x1B9); (0x1BC, 0x1BC, 1, 0x1BD);
    (0x1C4, 0x1C4, 1, 0x1C6); (0x1C5, 0x1C5, 1, 0x1C6); (0x1C7, 0x1C7, 1, 0x1C9); (0x1C8, 0x1C8, 1, 0x1C9);
    (0x1CA, 0x1CA, 1, 0x1CC); (0x1CB, 0x1DB, 2, 0x1CC); (0x1DE, 0x1EE, 2, 0x1DF); (0x1F1, 0x1F1, 1, 0x1F3);
    (0x1F2, 0x1F4, 2, 0x1F3); (0x1F6, 0x1F6, 1, 0x195); (0x1F7, 0x1F7, 1, 0x1BF); (0x1F8, 0x21E, 2, 0x1F9);
    (0x220, 0x220, 1, 0x19E); (0x222, 0x232, 2, 0x223); (0x23A, 0x23A, 1, 0x2C65); (0x23B, 0x23B, 1, 0x23C);
    (0x23D, 0x23D, 1, 0x19A); (0x23E, 0x23E, 1, 0x2C66); (0x241, 0x241, 1, 0x242); (0x243, 0x243, 1, 0x180);
    (0x244, 0x244, 1, 0x289); (0x245, 0x245, 1, 0x28C); (0x246, 0x24E, 2, 0x247); (0x370, 0x372, 2, 0x371);
    (0x376, 0x376, 1, 0x377); (0x37F, 0x37F, 1, 0x3F3); (0x386, 0x386, 1, 0x3AC); (0x388, 0x38A, 1, 0x3AD);
    (0x38C, 0x38C, 1, 0x3CC); (0x38E, 0x38F, 1, 0x3CD); (0x391, 0x3A1, 1, 0x3B1); (0x3A3, 0x3AB, 1, 0x3C3);
    (0x3CF, 0x3CF, 1, 0x3D7); (0x3D8, 0x3EE, 2, 0x3D9); (0x3F4, 0x3F4, 1, 0x3B8); (0x3F7, 0x3F7, 1, 0x3F8);
    (0x3F9, 0x3F9, 1, 0x3F2); (0x3FA, 0x3FA, 1, 0x3FB); (0x3FD, 0x3FF, 1, 0x37B); (0x400, 0x40F, 1, 0x450);
    (0x410, 0x42F, 1, 0x430); (0x460, 0x480, 2, 0x461); (0x48A, 0x4BE, 2, 0x48B); (0x4C0, 0x4C0, 1, 0x4CF);
    (0x4C1, 0x4CD, 2, 0x4C2); (0x4D0, 0x52E, 2, 0x4D1); (0x531, 0x556, 1, 0x561); (0x10A0, 0x10C5, 1, 0x2D00);
    (0x10C7, 0x10C7, 1, 0x2D27); (0x10CD, 0x10CD, 1, 0x2D2D); (0x13A0, 0x13EF, 1, 0xAB70); (0x13F0, 0x13F5, 1, 0x13F8);
    (0x1C90, 0x1CBA, 1, 0x10D0); (0x1CBD, 0x1CBF, 1, 0x10FD); (0x1E00, 0x1E94, 2, 0x1E01); (0x1E9E, 0x1E9E, 1, 0xDF);
    (0x1EA0, 0x1EFE, 2, 0x1EA1); (0x1F08, 0x1F0F, 1, 0x1F00); (0x1F18, 0x1F1D, 1, 0x1F10); (0x1F28, 0x1F2F, 1, 0x1F20);
    (0x1F38, 0x1F3F, 1, 0x1F30); (0x1F48, 0x1F4D, 1, 0x1F40); (0x1F59, 0x1F5F, 2, 0x1F51); (0x1F68, 0x1F6F, 1, 0x1F60);
    (0x1F88, 0x1F8F, 1, 0x1F80); (0x1F98, 0x1F9F, 1, 0x1F90); (0x1FA8, 0x1FAF, 1, 0x1FA0); (0x1FB8, 0x1FB9, 1, 0x1FB0);
    (0x1FBA, 0x1FBB, 1, 0x1F70); (0x1FBC, 0x1FBC, 1, 0x1FB3); (0x1FC8, 0x1FCB, 1, 0x1F72); (0x1FCC, 0x1FCC, 1, 0x1FC3);
    (0x1FD8, 0x1FD9, 1, 0x1FD0); (0x1FDA, 0x1FDB, 1, 0x1F76); (0x1FE8, 0x1FE9, 1, 0x1FE0); (0x1FEA, 0x1FEB, 1, 0x1F7A);
    (0x1FEC, 0x1FEC, 1, 0x1FE5); (0x1FF8, 0x1FF9, 1, 0x1F78); (0x1FFA, 0x1FFB, 1, 0x1F7C); (0x1FFC, 0x1FFC, 1, 0x1FF3);
    (0x2126, 0x2126, 1, 0x3C9); (0x212A, 0x212A, 1, 0x6B); (0x212B, 0x212B, 1, 0xE5); (0x2132, 0x2132, 1, 0x214E);
    (0x2160, 0x216F, 1, 0x2170); (0x2183, 0x2183, 1, 0x2184); (0x24B6, 0x24CF, 1, 0x24D0); (0x2C00, 0x2C2F, 1, 0x2C30);
    (0x2C60, 0x2C60, 1, 0x2C61); (0x2C62, 0x2C62, 1, 0x26B); (0x2C63, 0x2C63, 1, 0x1D7D); (0x2C64, 0x2C64, 1, 0x27D);
    (0x2C67, 0x2C6B, 2, 0x2C68); (0x2C6D, 0x2C6D, 1, 0x251); (0x2C6E, 0x2C6E, 1, 0x271); (0x2C6F, 0x2C6F, 1, 0x250);
    (0x2C70, 0x2C70, 1, 0x252); (0x2C72, 0x2C72, 1, 0x2C73); (0x2C75, 0x2C75, 1, 0x2C76); (0x2C7E, 0x2C7F, 1, 0x23F);
    (0x2C80, 0x2CE2, 2, 0x2C81); (0x2CEB, 0x2CED, 2, 0x2CEC); (0x2CF2, 0x2CF2, 1, 0x2CF3); (0xA640, 0xA66C, 2, 0xA641);
    (0xA680, 0xA69A, 2, 0xA681); (0xA722, 0xA72E, 2, 0xA723); (0xA732, 0xA76E, 2, 0xA733); (0xA779, 0xA77B, 2, 0xA77A);
    (0xA77D, 0xA77D, 1, 0x1D79); (0xA77E, 0xA786, 2, 0xA77F); (0xA78B, 0xA78B, 1, 0xA78C); (0xA78D, 0xA78D, 1, 0x265);
    (0xA790, 0xA792, 2, 0xA791); (0xA796, 0xA7A8, 2, 0xA797); (0xA7AA, 0xA7AA, 1, 0x266); (0xA7AB, 0xA7AB, 1, 0x25C);
    (0xA7AC, 0xA7AC, 1, 0x261); (0xA7AD, 0xA7AD, 1, 0x26C); (0xA7AE, 0xA7AE, 1, 0x26A); (0xA7B0, 0xA7B0, 1, 0x29E);
    (0xA7B1, 0xA7B1, 1, 0x287); (0xA7B2, 0xA7B2, 1, 0x29D); (0xA7B3, 0xA7B3, 1, 0xAB53); (0xA7B4, 0xA7C2, 2, 0xA7B5);
    (0xA7C4, 0xA7C4, 1, 0xA794); (0xA7C5, 0xA7C5, 1, 0x282); (0xA7C6, 0xA7C6, 1, 0x1D8E); (0xA7C7, 0xA7C9, 2, 0xA7C8);
    (0xA7D0, 0xA7D0, 1, 0xA7D1); (0xA7D6, 0xA7D8, 2, 0xA7D7); (0xA7F5, 0xA7F5, 1, 0xA7F6); (0xFF21, 0xFF3A, 1, 0xFF41);
    (0x10400, 0x10427, 1, 0x10428); (0x104B0, 0x104D3, 1, 0x104D8); (0x10570, 0x1057A, 1, 0x10597); (0x1057C, 0x1058A, 1, 0x105A3);
    (0x1058C, 0x10592, 1, 0x105B3); (0x10594, 0x10595, 1, 0x105BB); (0x10C80, 0x10CB2, 1, 0x10CC0); (0x118A0, 0x118BF, 1, 0x118C0);
    (0x16E40, 0x16E5F, 1, 0x16E60); (0x1E900, 0x1E921, 1, 0x1E922) ].

End Tables.

(** [Py_UNICODE_ISSPACE], also the class [\s] of [re] on [str] patterns. *)
Definition Py_UNICODE_ISSPACE : char -> bool := in_table space_table.
(** [Py_UNICODE_ISDECIMAL], the class [\d] of [re] on [str] patterns. *)
Definition Py_UNICODE_ISDECIMAL : char -> bool := in_table decimal_table.
Definition Py_UNICODE_ISLOWER : char -> bool := in_table lowercase_table.
Definition Py_UNICODE_ISUPPER : char -> bool := in_table uppercase_table.
Definition Py_UNICODE_ISTITLE : char -> bool := in_table titlecase_table.
Definition _PyUnicode_IsCaseIgnorable : char -> bool := in_table case_ignorable_table.
Definition _PyUnicode_IsCased (c : char) : bool :=
  Py_UNICODE_ISLOWER c || Py_UNICODE_ISUPPER c || Py_UNICODE_ISTITLE c.

(** [Py_UNICODE_TOLOWER]: the first code point of the lowercase mapping.
    An entry [(lo, hi, k, lo')] sends [lo + i*k] to [lo' + i*k]. *)
Fixpoint tolower_in (t : list (N * N * N * N)) (c : char) : char :=
  match t with
  | [] => c
  | (lo, hi, k, lo') :: t' =>
      if in_run c (lo, hi, k) then (lo' + (c - lo))%N else tolower_in t' c
  end.

Definition Py_UNICODE_TOLOWER : char -> char := tolower_in tolower_table.

(** [_PyUnicode_ToLowerFull]: U+0130 is the only code point whose lowercase
    mapping has more than one code point. *)
Definition _PyUnicode_ToLowerFull (c : char) : str :=
  if (c =? 0x130)%N then [0x69; 0x307]%N else [Py_UNICODE_TOLOWER c].

(** ** Methods of [str] *)

Fixpoint lstrip_with (p : char -> bool) (s : str) : str :=
  match s with
  | [] => []
  | c :: s' => if p c then lstrip_with p s' else s
  end.

Definition rstrip_with (p : char -> bool) (s : str) : str :=
  rev (lstrip_with p (rev s)).

(** [s.strip()] *)
Definition strip (s : str) : str :=
  rstrip_with Py_UNICODE_ISSPACE (lstrip_with Py_UNICODE_ISSPACE s).

(** [s.rstrip(chars)] *)
Definition rstrip (chars : str) (s : str) : str :=
  rstrip_with (fun c => char_in c chars) s.

(** [s.split(sep)] for a one-character separator. *)
Fixpoint split (sep : char) (s : str) : list str :=
  match s with
  | [] => [[]]
  | c :: s' =>
      if (c =? sep)%N then [] :: split sep s'
      else match split sep s' with
           | [] => [[c]]
           | w :: ws => (c :: w) :: ws
           end
  end.

(** [s.split(sep, 1)] for a one-character separator. *)
Fixpoint split1 (sep : char) (s : str) : list str :=
  match s with
  | [] => [[]]
  | c :: s' =>
      if (c =? sep)%N then [[]; s']
      else match split1 sep s' with
           | w :: ws => (c :: w) :: ws
           | [] => [[c]]
           end
  end.

Fixpoint startswith (s pre : str) : bool :=
  match pre, s with
  | [], _ => true
  | p :: pre', c :: s' => (c =? p)%N && startswith s' pre'
  | _ :: _, [] => false
  end.

(** [sub in s] *)
Fixpoint contains (s sub : str) : bool :=
  startswith s sub ||
  match s with
  | [] => false
  | _ :: s' => contains s' sub
  end.

(** [sep.join(parts)] *)
Fixpoint join (sep : str) (parts : list str) : str :=
  match parts with
  | [] => []
  | [p] => p
  | p :: ps => p ++ sep ++ join sep ps
  end.

(** [old] is one character: [text.replace(old, new)] *)
Definition replace (old : char) (new : str) (text : str) : str :=
  flat_map (fun c => if (c =? old)%N then new else [c]) text.

(** [s.isupper()]: no lowercase or titlecase character, and at least one
    uppercase character. *)
Fixpoint isupper_from (cased : bool) (s : str) : bool :=
  match s with
  | [] => cased
  | ch :: s' =>
      if Py_UNICODE_ISLOWER ch || Py_UNICODE_ISTITLE ch then false
      else isupper_from (cased || Py_UNICODE_ISUPPER ch) s'
  end.

Definition isupper (s : str) : bool := isupper_from false s.

(** [handle_capital_sigma]: U+03A3 lowers to U+03C2 when it follows a cased
    character and is not followed by one, case-ignorable characters being
    skipped on both sides; to U+03C3 otherwise. [before] holds the preceding
    characters, nearest first. *)
Definition handle_capital_sigma (before after : str) : char :=
  let final_sigma :=
    match lstrip_with _PyUnicode_IsCaseIgnorable before with
    | [] => false
    | c :: _ => _PyUnicode_IsCased c
    end &&
    match lstrip_with _PyUnicode_IsCaseIgnorable after with
    | [] => true
    | c :: _ => negb (_PyUnicode_IsCased c)
    end in
  if final_sigma then 0x3C2%N else 0x3C3%N.

Fixpoint lower_from (before : str) (s : str) : str :=
  match s with
  | [] => []
  | c :: s' =>
      (if (c =? 0x3A3)%N then [handle_capital_sigma before s']
       else _PyUnicode_ToLowerFull c) ++ lower_from (c :: before) s'
  end.

(** [s.lower()] *)
Definition lower (s : str) : str := lower_from [] s.

(** ** Regular expressions of the [re] module

    Only the constructs used by the patterns of the service are modelled:
    literals, character sets, the classes [\s] and [\d], concatenation,
    alternation, [*] and [?]. The flag [(?i)] is the argument [ignorecase]
    of the matcher. The patterns have no group references or assertions, so
    [re.match] succeeds exactly when some prefix of the subject belongs to
    the language of the pattern, which is what the derivative-based matcher
    decides. *)

Inductive atom :=
| Literal (c : char)
| In_ (cs : list char)
| CategorySpace
| CategoryDigit.

Inductive regex :=
| Void
| Eps
| Atom (a : atom)
| Cat (r1 r2 : regex)
| Alt (r1 r2 : regex)
| Star (r : regex).

Definition Opt (r : regex) : regex := Alt r Eps.

Fixpoint seq (rs : list regex) : regex :=
  match rs with
  | [] => Eps
  | [r] => r
  | r :: rs' => Cat r (seq rs')
  end.

Fixpoint word (s : str) : regex :=
  match s with
  | [] => Eps
  | [c] => Atom (Literal c)
  | c :: s' => Cat (Atom (Literal c)) (word s')
  end.

Fixpoint repeat_re (n : nat) (r : regex) : regex :=
  match n with
  | 0 => Eps
  | 1 => r
  | S n' => Cat r (repeat_re n' r)
  end.

(** [re._casefix._EXTRA_CASES]: for a lowercased character, the other
    lowercased characters with the same uppercase. *)
Definition _EXTRA_CASES : list (N * list N) :=
  [ (0x69, [0x131]); (0x73, [0x17F]); (0xB5, [0x3BC]); (0x131, [0x69]);
    (0x17F, [0x73]); (0x345, [0x3B9; 0x1FBE]); (0x390, [0x1FD3]); (0x3B0, [0x1FE3]);
    (0x3B2, [0x3D0]); (0x3B5, [0x3F5]); (0x3B8, [0x3D1]); (0x3B9, [0x345; 0x1FBE]);
    (0x3BA, [0x3F0]); (0x3BC, [0xB5]); (0x3C0, [0x3D6]); (0x3C1, [0x3F1]);
    (0x3C2, [0x3C3]); (0x3C3, [0x3C2]); (0x3C6, [0x3D5]); (0x3D0, [0x3B2]);
    (0x3D1, [0x3B8]); (0x3D5, [0x3C6]); (0x3D6, [0x3C0]); (0x3F0, [0x3BA]);
    (0x3F1, [0x3C1]); (0x3F5, [0x3B5]); (0x432, [0x1C80]); (0x434, [0x1C81]);
    (0x43E, [0x1C82]); (0x441, [0x1C83]); (0x442, [0x1C84; 0x1C85]); (0x44A, [0x1C86]);
    (0x463, [0x1C87]); (0x1C80, [0x432]); (0x1C81, [0x434]); (0x1C82, [0x43E]);
    (0x1C83, [0x441]); (0x1C84, [0x442; 0x1C85]); (0x1C85, [0x442; 0x1C84]); (0x1C86, [0x44A]);
    (0x1C87, [0x463]); (0x1C88, [0xA64B]); (0x1E61, [0x1E9B]); (0x1E9B, [0x1E61]);
    (0x1FBE, [0x345; 0x3B9]); (0x1FD3, [0x390]); (0x1FE3, [0x3B0]); (0xA64B, [0x1C88]);
    (0xFB05, [0xFB06]); (0xFB06, [0xFB05]) ]%N.

Fixpoint extra_cases_in (t : list (N * list N)) (lo : char) : list char :=
  match t with
  | [] => []
  | (k, vs) :: t' => if (k =? lo)%N then vs else extra_cases_in t' lo
  end.

(** The set compiled for cased literals under [(?i)]: each literal is
    lowercased and joined by its [_EXTRA_CASES]. *)
Definition charset_ignore (cs : list char) : list char :=
  flat_map (fun c => let lo := Py_UNICODE_TOLOWER c in
                     lo :: extra_cases_in _EXTRA_CASES lo) cs.

(** One character against one atom. Under [(?i)] the subject character is
    lowercased and looked up in the compiled set ([LITERAL_UNI_IGNORE],
    [IN_UNI_IGNORE]); every literal of the patterns below is cased or sits
    in a set with a cased literal. *)
Definition atom_match (ignorecase : bool) (a : atom) (ch : char) : bool :=
  match a with
  | Literal c =>
      if ignorecase then char_in (Py_UNICODE_TOLOWER ch) (charset_ignore [c])
      else (ch =? c)%N
  | In_ cs =>
      if ignorecase then char_in (Py_UNICODE_TOLOWER ch) (charset_ignore cs)
      else char_in ch cs
  | CategorySpace => Py_UNICODE_ISSPACE ch
  | CategoryDigit => Py_UNICODE_ISDECIMAL ch
  end.

(** The language of a pattern. *)
Inductive Matches (ignorecase : bool) : regex -> str -> Prop :=
| MEps : Matches ignorecase Eps []
| MAtom a ch :
    atom_match ignorecase a ch = true -> Matches ignorecase (Atom a) [ch]
| MCat r1 r2 s1 s2 :
    Matches ignorecase r1 s1 -> Matches ignorecase r2 s2 ->
    Matches ignorecase (Cat r1 r2) (s1 ++ s2)
| MAltL r1 r2 s : Matches ignorecase r1 s -> Matches ignorecase (Alt r1 r2) s
| MAltR r1 r2 s : Matches ignorecase r2 s -> Matches ignorecase (Alt r1 r2) s
| MStarNil r : Matches ignorecase (Star r) []
| MStarApp r s1 s2 :
    Matches ignorecase r s1 -> Matches ignorecase (Star r) s2 ->
    Matches ignorecase (Star r) (s1 ++ s2).

Fixpoint nullable (r : regex) : bool :=
  match r with
  | Void => false
  | Eps => true
  | Atom _ => false
  | Cat r1 r2 => nullable r1 && nullable r2
  | Alt r1 r2 => nullable r1 || nullable r2
  | Star _ => true
  end.

Definition cat' (r1 r2 : regex) : regex :=
  match r1 with
  | Void => Void
  | Eps => r2
  | _ => Cat r1 r2
  end.

Definition alt' (r1 r2 : regex) : regex :=
  match r1, r2 with
  | Void, _ => r2
  | _, Void => r1
  | _, _ => Alt r1 r2
  end.

Fixpoint deriv (ignorecase : bool) (ch : char) (r : regex) : regex :=
  match r with
  | Void | Eps => Void
  | Atom a => if atom_match ignorecase a ch then Eps else Void
  | Cat r1 r2 =>
      let d := cat' (deriv ignorecase ch r1) r2 in
      if nullable r1 then alt' d (deriv ignorecase ch r2) else d
  | Alt r1 r2 => alt' (deriv ignorecase ch r1) (deriv ignorecase ch r2)
  | Star r1 => cat' (deriv ignorecase ch r1) (Star r1)
  end.

(** [re.match(pat, s) is not None] *)
Fixpoint re_match (ignorecase : bool) (pat : regex) (s : str) : bool :=
  nullable pat ||
  match s with
  | [] => false
  | ch :: s' => re_match ignorecase (deriv ignorecase ch pat) s'
  end.

(** [re.search(pat, s) is not None] *)
Fixpoint re_search (ignorecase : bool) (pat : regex) (s : str) : bool :=
  re_match ignorecase pat s ||
  match s with
  | [] => false
  | _ :: s' => re_search ignorecase pat s'
  end.

(** ** The document model

    The parser returns a list of dicts: [{"type": "name", "content": c}],
    [{"type": "contact", "content": c}] and
    [{"type": "section", "title": t, "items": [...]}]; an item is
    [{"type": k, "text": t}] with [k] one of ["paragraph"], ["bullet"],
    ["job_title"]. *)

Inductive item_type := paragraph | bullet | job_title.

Inductive Item :=
| Paragraph (text : str)
| Bullet (text : str)
| JobTitle (text : str).

Definition item_type_of (it : Item) : item_type :=
  match it with
  | Paragraph _ => paragraph
  | Bullet _ => bullet
  | JobTitle _ => job_title
  end.

Definition item_text (it : Item) : str :=
  match it with
  | Paragraph t | Bullet t | JobTitle t => t
  end.

Definition item_type_eqb (a b : item_type) : bool :=
  match a, b with
  | paragraph, paragraph | bullet, bullet | job_title, job_title => true
  | _, _ => false
  end.

Inductive Block :=
| NameBlock (content : str)
| ContactBlock (content : str)
| SectionBlock (title : str) (items : list Item).

Definition is_section (b : Block) : bool :=
  match b with
  | SectionBlock _ _ => true
  | _ => false
  end.

(** ** Parsing helpers *)

Definition COLON : char := 0x3A%N.
Definition space_star : regex := Star (Atom CategorySpace).

(** [_SECTION_PATTERNS]; all carry [(?i)] and start with [^], which is
    redundant under [re.match]. *)
Definition _SECTION_PATTERNS : list regex :=
  [ (* resum[o|é]\s*profissional *)
    seq [word (py "resum"); Atom (In_ [0x6F; 0x7C; 0xE9]%N); space_star;
         word (py "profissional")];
    (* experi[eê]ncia\s*profissional *)
    seq [word (py "experi"); Atom (In_ [0x65; 0xEA]%N); word (py "ncia");
         space_star; word (py "profissional")];
    (* forma[çc][aã]o\s*acad[eê]mica *)
    seq [word (py "forma"); Atom (In_ [0xE7; 0x63]%N);
         Atom (In_ [0x61; 0xE3]%N); word (py "o"); space_star;
         word (py "acad"); Atom (In_ [0x65; 0xEA]%N); word (py "mica")];
    word (py "habilidades");
    (* compet[eê]ncias *)
    seq [word (py "compet"); Atom (In_ [0x65; 0xEA]%N); word (py "ncias")];
    (* softwares?\s*(e\s*ferramentas)? *)
    seq [word (py "software"); Opt (word (py "s")); space_star;
         Opt (seq [word (py "e"); space_star; word (py "ferramentas")])];
    word (py "ferramentas");
    word (py "idiomas");
    (* certifica[çc][oõ]es *)
    seq [word (py "certifica"); Atom (In_ [0xE7; 0x63]%N);
         Atom (In_ [0x6F; 0xF5]%N); word (py "es")];
    word (py "cursos");
    word (py "projetos");
    word (py "objetivo");
    (* informa[çc][oõ]es?\s*(adicionais|pessoais|complementares) *)
    seq [word (py "informa"); Atom (In_ [0xE7; 0x63]%N);
         Atom (In_ [0x6F; 0xF5]%N); word (py "e"); Opt (word (py "s"));
         space_star;
         Alt (word (py "adicionais"))
             (Alt (word (py "pessoais")) (word (py "complementares")))];
    (* links?\s*(e\s*refer[eê]ncias)? *)
    seq [word (py "link"); Opt (word (py "s")); space_star;
         Opt (seq [word (py "e"); space_star; word (py "refer");
                   Atom (In_ [0x65; 0xEA]%N); word (py "ncias")])];
    (* refer[eê]ncias *)
    seq [word (py "refer"); Atom (In_ [0x65; 0xEA]%N); word (py "ncias")];
    word (py "atividades");
    (* trabalhos?\s*volunt *)
    seq [word (py "trabalho"); Opt (word (py "s")); space_star;
         word (py "volunt")] ].

(** The insertion order of the dict literal; the key U+2011 is written
    twice and keeps its first position. *)
Definition replacements : list (char * str) :=
  [ (0x2013, py "-"); (0x2014, py "-"); (0x2015, py "-");
    (0x2018, py "'"); (0x2019, py "'");
    (0x201C, [0x22]); (0x201D, [0x22]);
    (0x2022, py "-"); (0x2026, py "..."); (0xA0, py " "); (0x200B, []);
    (0xAD, py "-"); (0xFEFF, []); (0x2010, py "-"); (0x2011, py "-");
    (0x2012, py "-"); (0x2500, py "-"); (0x25AA, py "-"); (0x25BA, py "-");
    (0x25CF, py "-") ]%N.

(** [for old, new in table.items(): text = text.replace(old, new)] *)
Definition replace_all (table : list (char * str)) (text : str) : str :=
  fold_left (fun text '(old, new) => replace old new text) table text.

Definition _sanitize_text (text : str) : str :=
  replace_all replacements text.

Definition _extract_section_title (line : str) : result (str * str) :=
  let stripped := strip line in
  if contains stripped (py ":") then
    let parts := split1 COLON stripped in
    p0 ← getitem parts 0;
    let title_part := strip p0 in
    content_part ← (if 1 <? length parts
                    then p1 ← getitem parts 1; Ok (strip p1)
                    else Ok []);
    if 10 <? length content_part then Ok (title_part, content_part)
    else Ok (rstrip (py ":") stripped, [])
  else Ok (rstrip (py ":") stripped, []).

Definition _is_section_header (line : str) : result bool :=
  let stripped := strip line in
  title_part ← (if contains stripped (py ":")
                then p0 ← getitem (split1 COLON stripped) 0; Ok (strip p0)
                else Ok stripped);
  let title_part := rstrip (py ":") title_part in
  if negb (nonempty title_part) then Ok false
  else if isupper title_part && (length title_part <? 60) then Ok true
  else Ok (existsb (fun pat => re_match true pat title_part) _SECTION_PATTERNS).

(** "•", "-", "–", "—", "*", "►", "▪", "●" *)
Definition bullet_markers : list char :=
  [0x2022; 0x2D; 0x2013; 0x2014; 0x2A; 0x25BA; 0x25AA; 0x25CF]%N.

Definition _is_bullet (line : str) : result bool :=
  let stripped := strip line in
  if nonempty stripped
  then c ← getitem stripped 0; Ok (char_in c bullet_markers)
  else Ok false.

Definition _clean_bullet_text (line : str) : result str :=
  let stripped := strip line in
  marked ← (if nonempty stripped
            then c ← getitem stripped 0; Ok (char_in c bullet_markers)
            else Ok false);
  if (marked : bool) then Ok (strip (drop 1 stripped)) else Ok stripped.

Definition contact_keywords : list str :=
  [py "@"; py "linkedin"; py "github"; py "telefone"; py "tel:"; py "fone:";
   py "celular"].

(** \(\d{2}\)\s*\d{4,5} *)
Definition phone_pattern : regex :=
  seq [Atom (Literal 0x28%N); repeat_re 2 (Atom CategoryDigit);
       Atom (Literal 0x29%N); space_star; repeat_re 4 (Atom CategoryDigit);
       Opt (Atom CategoryDigit)].

Definition _is_contact_line (line : str) : bool :=
  let lower := lower line in
  existsb (fun kw => contains lower kw) contact_keywords
  || re_search false phone_pattern line.

(** ** The parser

    [sections] is the list under construction. [current_section] is [None]
    or a reference to a section dict that was appended to [sections]: the
    position of that dict. A section dict is never empty, so the test
    [if current_section] holds exactly when the variable is not [None]. *)

Definition parser_state : Type := list Block * option nat.

(** [current_section["items"].append(it)] through the reference [ref]. *)
Definition append_item (sections : list Block) (ref : nat) (it : Item)
  : result (list Block) :=
  match sections !! ref with
  | Some (SectionBlock title items) =>
      Ok (<[ref := SectionBlock title (items ++ [it])]> sections)
  | Some _ => Raise KeyError
  | None => Raise DanglingReference
  end.

(** [current_section = {...}; sections.append(current_section)] followed by
    the append of the first items, if any. *)
Definition open_section (sections : list Block) (title : str)
    (first : list Item) : result parser_state :=
  let ref := length sections in
  let sections := sections ++ [SectionBlock title []] in
  sections ← foldl (fun acc it => s ← acc; append_item s ref it)
                   (Ok sections) first;
  Ok (sections, Some ref).

(** The body of the last loop, for a non-empty stripped line. *)
Definition process_line (line : str) (st : parser_state)
  : result parser_state :=
  let '(sections, current_section) := st in
  header ← _is_section_header line;
  if (header : bool) then
    '(title, inline_content) ← _extract_section_title line;
    open_section sections title
      (if nonempty inline_content then [Paragraph inline_content] else [])
  else
    is_bullet ← _is_bullet line;
    if (is_bullet : bool) then
      text ← _clean_bullet_text line;
      match current_section with
      | Some ref =>
          sections ← append_item sections ref (Bullet text);
          Ok (sections, Some ref)
      | None => open_section sections [] [Bullet text]
      end
    else
      match current_section with
      | Some ref =>
          if contains line (py "|") && (length line <? 120) then
            sections ← append_item sections ref (JobTitle line);
            Ok (sections, Some ref)
          else
            sections ← append_item sections ref (Paragraph line);
            Ok (sections, Some ref)
      | None => open_section sections [] [Paragraph line]
      end.

(** [while idx < len(lines) and not lines[idx].strip(): idx += 1] *)
Fixpoint skip_blank_lines (fuel : nat) (lines : list str) (idx : nat)
  : result nat :=
  match fuel with
  | 0 => OutOfFuel
  | S fuel' =>
      if idx <? length lines then
        raw ← getitem lines idx;
        if negb (nonempty (strip raw))
        then skip_blank_lines fuel' lines (idx + 1)
        else Ok idx
      else Ok idx
  end.

(** The test that lets the contact loop absorb [line]. *)
Definition absorbs_contact (line : str) (contact_lines : list str)
    (current_section : option nat) : result bool :=
  if _is_contact_line line then Ok true
  else
    header ← _is_section_header line;
    if negb header && (length contact_lines <? 3) then
      is_bullet ← _is_bullet line;
      Ok (negb is_bullet && (length line <? 120)
          && negb (bool_decide (is_Some current_section)))
    else Ok false.

(** The loop that collects the contact lines after the name. *)
Fixpoint collect_contact_lines (fuel : nat) (lines : list str) (idx : nat)
    (contact_lines : list str) (current_section : option nat)
  : result (list str * nat) :=
  match fuel with
  | 0 => OutOfFuel
  | S fuel' =>
      if idx <? length lines then
        raw ← getitem lines idx;
        let line := strip raw in
        if negb (nonempty line) then
          collect_contact_lines fuel' lines (idx + 1) contact_lines
                                current_section
        else
          absorbed ← absorbs_contact line contact_lines current_section;
          if (absorbed : bool) then
            collect_contact_lines fuel' lines (idx + 1)
                                  (contact_lines ++ [line]) current_section
          else Ok (contact_lines, idx)
      else Ok (contact_lines, idx)
  end.

(** The loop that processes the rest of the lines. *)
Fixpoint process_rest (fuel : nat) (lines : list str) (idx : nat)
    (st : parser_state) : result parser_state :=
  match fuel with
  | 0 => OutOfFuel
  | S fuel' =>
      if idx <? length lines then
        raw ← getitem lines idx;
        let line := strip raw in
        let idx := idx + 1 in
        if negb (nonempty line) then process_rest fuel' lines idx st
        else
          st ← process_line line st;
          process_rest fuel' lines idx st
      else Ok st
  end.

(** The first non-empty line, if any, becomes the name block. *)
Definition take_name (fuel : nat) (lines : list str) (sections : list Block)
  : result (list Block * nat) :=
  idx ← skip_blank_lines fuel lines 0;
  if idx <? length lines then
    raw ← getitem lines idx;
    Ok (sections ++ [NameBlock (strip raw)], idx + 1)
  else Ok (sections, idx).

Definition contact_block (contact_lines : list str) : list Block :=
  if nonempty contact_lines
  then [ContactBlock (join (py " | ") contact_lines)]
  else [].

Definition parse_lines (fuel : nat) (lines : list str)
  : result (list Block) :=
  let sections := [] in
  let current_section := None in
  '(sections, idx) ← take_name fuel lines sections;
  '(contact_lines, idx) ←
     collect_contact_lines fuel lines idx [] current_section;
  let sections := sections ++ contact_block contact_lines in
  '(sections, _) ← process_rest fuel lines idx (sections, current_section);
  Ok sections.

(** Each loop advances [idx] by one per iteration and stops at
    [len(lines)]: [len(lines) + 1] steps are enough. *)
Definition _parse_resume_sections (text : str) : result (list Block) :=
  let lines := split LF text in
  parse_lines (S (length lines)) lines.

(** ** Layout: the flowables appended to [story] *)

Inductive ParagraphStyle :=
| STYLE_BODY
| STYLE_JOB_TITLE
| STYLE_BULLET
| STYLE_SKILL_ITEM.

Module Flow.
(** The constructor calls [Paragraph(text, style)], [Spacer(w, h)],
    [SectionHeader(title)], [BulletPoint(text, style)] and
    [Table(data, ...)], with the arguments that vary. *)
#[warnings="-register-all"]
Inductive t :=
| Paragraph (text : str) (style : ParagraphStyle)
| Spacer (width height : nat)
| SectionHeader (title : str)
| BulletPoint (text : str) (style : ParagraphStyle)
| Table (data : list (list t)).
End Flow.

(** ** The library

    [Paragraph], [Paragraph.wrap] and [Table] are ReportLab's, not the
    program's. [Paragraph(text, style)] reads [text] as markup and raises on
    a text that is not well formed; [Table(data, ...)] may refuse its data.
    Whether a call returns is taken as given; a call that does not return
    raises, and the exception leaves [generate_resume_pdf]. *)

Record library := {
  (* [Paragraph(text, style)] returns *)
  paragraph_returns : str -> ParagraphStyle -> bool;
  (* [Paragraph(text, style).wrap(PAGE_WIDTH - 14, 1000)] returns *)
  wrap_returns : str -> ParagraphStyle -> bool;
  (* [Table(data, colWidths=...)] and [setStyle] return *)
  table_returns : list (list Flow.t) -> bool
}.

(** The call that raised. *)
Inductive raised := FromParagraph | FromWrap | FromTable.

Inductive built (A : Type) : Type :=
| Built (a : A)
| Raised (e : raised).
Arguments Built {A} a.
Arguments Raised {A} e.

Module ReportLab.

Definition Paragraph (lib : library) (text : str) (style : ParagraphStyle)
  : built Flow.t :=
  if paragraph_returns lib text style
  then Built (Flow.Paragraph text style)
  else Raised FromParagraph.

Definition Table (lib : library) (data : list (list Flow.t))
  : built Flow.t :=
  if table_returns lib data then Built (Flow.Table data)
  else Raised FromTable.

End ReportLab.

#[global] Instance built_ret : MRet built := fun A a => Built a.
#[global] Instance built_bind : MBind built := fun A B f m =>
  match m with
  | Built a => f a
  | Raised e => Raised e
  end.

(** [BulletPoint(text, style)]: the constructor builds the paragraph and
    wraps it. *)
Definition BulletPoint (lib : library) (text : str)
    (style : ParagraphStyle) : built Flow.t :=
  _ ← ReportLab.Paragraph lib text style;
  if wrap_returns lib text style
  then Built (Flow.BulletPoint text style)
  else Raised FromWrap.

(** '<font color="#1B2A4A">&#8226;</font>&nbsp;' *)
Definition bullet_char : str :=
  py "<font color=" ++ [0x22%N] ++ py "#1B2A4A" ++ [0x22%N]
     ++ py ">&#8226;</font>&nbsp;".

(** [[it["text"] for it in items if it.get("text")]] *)
Definition skill_texts (items : list Item) : list str :=
  map item_text (filter (fun it => nonempty (item_text it) = true) items).

(** [mid = (len(texts) + 1) // 2; col1 = texts[:mid]; col2 = texts[mid:]] *)
Definition split_columns (texts : list str) : list str * list str :=
  let mid := (length texts + 1) / 2 in
  (take mid texts, drop mid texts).

(** [while len(col) < n: col.append("")] *)
Definition pad_column (col : list str) (n : nat) : list str :=
  col ++ replicate (n - length col) [].

(** [Paragraph(f"{bullet_char}{s}" if s else "", STYLE_SKILL_ITEM)] *)
Definition skill_cell (lib : library) (s : str)
  : built Flow.t :=
  ReportLab.Paragraph lib (if nonempty s then bullet_char ++ s else [])
                      STYLE_SKILL_ITEM.

(** The body of the loop over [zip(col1, col2)]: the row [[left_p,
    right_p]]. *)
Definition skill_row (lib : library) (cols : str * str)
  : built (list Flow.t) :=
  left_p ← skill_cell lib cols.1;
  right_p ← skill_cell lib cols.2;
  mret [left_p; right_p].

(** The columns of the table before the padding. *)
Definition skills_columns (items : list Item) : list str * list str :=
  split_columns (skill_texts items).

(** The argument [data] of [Table]. *)
Definition skills_table_data (lib : library) (items : list Item)
  : built (list (list Flow.t)) :=
  let '(col1, col2) := skills_columns items in
  let col1 := pad_column col1 (length col2) in
  let col2 := pad_column col2 (length col1) in
  mapM (skill_row lib) (zip col1 col2).

Definition _build_skills_table (lib : library)
    (items : list Item) : built Flow.t :=
  data ← skills_table_data lib items;
  ReportLab.Table lib data.

(** "habilidade", "competência", "competencia", "software", "ferramenta" *)
Definition skills_keywords : list str :=
  [py "habilidade"; py "compet" ++ [0xEA%N] ++ py "ncia"; py "competencia";
   py "software"; py "ferramenta"].

(** The body of the loop over the items of a section. *)
Definition render_item (lib : library) (item : Item)
  : built Flow.t :=
  match item_type_of item with
  | bullet => BulletPoint lib (item_text item) STYLE_BULLET
  | job_title => ReportLab.Paragraph lib (item_text item) STYLE_JOB_TITLE
  | paragraph => ReportLab.Paragraph lib (item_text item) STYLE_BODY
  end.

Definition section_heading (title : str) : list Flow.t :=
  if nonempty title
  then [Flow.Spacer 1 4; Flow.SectionHeader title; Flow.Spacer 1 6]
  else [].

(** The branch [stype == "section"] of the loop of [generate_resume_pdf]:
    the flowables it appends to [story], or the exception of the
    library. *)
Definition render_section (lib : library) (title : str)
    (items : list Item) : built (list Flow.t) :=
  let title_lower := lower title in
  let is_skills :=
    existsb (fun kw => contains title_lower kw) skills_keywords in
  let all_bullets :=
    if nonempty items
    then forallb (fun it => item_type_eqb (item_type_of it) bullet) items
    else false in
  let story := section_heading title in
  if is_skills && all_bullets && (4 <=? length items)
  then table ← _build_skills_table lib items; mret (story ++ [table])
  else flowables ← mapM (render_item lib) items; mret (story ++ flowables).

(** ** Reference definitions, written from the description of the design *)

(** The title of a line: the text before its first [':'], without the
    surrounding white space. *)
Fixpoint before_colon (s : str) : str :=
  match s with
  | [] => []
  | c :: s' => if (c =? COLON)%N then [] else c :: before_colon s'
  end.

Fixpoint after_colon (s : str) : str :=
  match s with
  | [] => []
  | c :: s' => if (c =? COLON)%N then s' else after_colon s'
  end.

Definition line_title (line : str) : str :=
  strip (before_colon (strip line)).

Definition line_inline_content (line : str) : str :=
  strip (after_colon (strip line)).

(** A prefix of [s] belongs to the language of [pat]. *)
Definition matches_at_start (ignorecase : bool) (pat : regex) (s : str)
  : Prop :=
  exists p q, s = p ++ q /\ Matches ignorecase pat p.

(** [sub] occurs in [s]. *)
Definition occurs_in (sub s : str) : Prop :=
  exists p q, s = p ++ sub ++ q.

(** The section names as the description of the header rule lists them. *)
Definition listed_section_names : list str :=
  [py "experience"; py "education"; py "skills"; py "tools"; py "languages";
   py "certifications"; py "courses"; py "projects"; py "objective";
   py "additional info"; py "links"; py "references"; py "activities";
   py "volunteer work"].

(** Accent folding on the accented Latin letters of a lowercased title. *)
Definition fold_accent (c : char) : char :=
  (if (0xE0 <=? c) && (c <=? 0xE5) then 0x61
   else if c =? 0xE7 then 0x63
   else if (0xE8 <=? c) && (c <=? 0xEB) then 0x65
   else if (0xEC <=? c) && (c <=? 0xEF) then 0x69
   else if c =? 0xF1 then 0x6E
   else if ((0xF2 <=? c) && (c <=? 0xF6)) then 0x6F
   else if (0xF9 <=? c) && (c <=? 0xFC) then 0x75
   else c)%N.

Definition names_listed_section (title : str) : bool :=
  existsb (fun name => bool_decide (map fold_accent (lower title) = name))
          listed_section_names.

(** The header rule with the listed names: a non-empty title that is
    upper-case and shorter than 60 characters, or that is one of the listed
    names up to case and accents. *)
Definition header_by_listed_names (line : str) : bool :=
  let title := line_title line in
  nonempty title
  && ((isupper title && (length title <? 60)) || names_listed_section title).

Definition half_up (n : nat) : nat := n - n / 2.

(** ** Auxiliary notions for the proofs *)

Definition is_key (c : char) : bool :=
  existsb (fun '(old, _) => (c =? old)%N) replacements.

Definition key_free (s : str) : Prop := Forall (fun c => is_key c = false) s.

Definition values_key_free : bool :=
  forallb (fun '(_, new) => forallb (fun c => negb (is_key c)) new)
          replacements.

(** [text_of [l1; ...; ln]] is the text with the lines [l1], ..., [ln]. *)
Definition text_of (ls : list string) : str := join [LF] (map py ls).

(** A skills section with an empty bullet, and a text that yields it. *)
Definition bullets_with_gap : list Item :=
  [Bullet (py "a"); Bullet (py "b"); Bullet []; Bullet (py "c");
   Bullet (py "d")].

Definition resume_with_gap : str :=
  text_of ["Ana"; "ana@mail.com"; "HABILIDADES"; "- a"; "- b"; "-"; "- c";
           "- d"]%string.

(** The decision taken on the title of a line by [_is_section_header]. *)
Definition title_is_header (title : str) : bool :=
  nonempty title
  && ((isupper title && (length title <? 60))
      || existsb (fun pat => re_match true pat title) _SECTION_PATTERNS).

Definition no_colon (s : str) : Prop := Forall (fun c => c ≠ COLON) s.

(** The state of the last loop: no section opened yet and [sections] is
    still [pre], or [sections] is [pre] followed by sections and
    [current_section] refers to the last of them. *)
Definition body_inv (pre : list Block) (st : parser_state) : Prop :=
  st = (pre, None)
  \/ exists secs title items,
       Forall (fun b => is_section b = true) secs
       /\ st = (pre ++ secs ++ [SectionBlock title items],
                Some (length (pre ++ secs))).

(** From the fourth collected line on, every line is contact-like. *)
Definition late_lines_contact_like (contact_lines : list str) : Prop :=
  forall i l, contact_lines !! i = Some l -> 3 <= i ->
              _is_contact_line l = true.

(** The lines of the scenarios. *)
Definition skills_line_en : str := py "Skills: Python, Go, Rust, C++, Java".
Definition skills_line_pt : str :=
  py "Habilidades: Python, Go, Rust, C++, Java".
Definition skills_inline : str := py "Python, Go, Rust, C++, Java".

(** A name followed by four lines with an e-mail address. *)
Definition resume_four_addresses : str :=
  text_of ["A"; "a@b"; "c@d"; "e@f"; "g@h"]%string.

(** The text of the first scenario. *)
Definition resume_john_doe : str :=
  text_of ["John Doe"; "john@mail.com"; "EXPERIENCE"; "- Built X";
           "- Built Y"]%string.

(** * Further definitions

    ** The sanitizer, character by character *)

(** The characters that the sanitizer replaces. *)
Definition replaced_characters : list char := fst <$> replacements.

(** What the table makes of one character: the value of the first entry
    with that key, or the character itself. *)
Fixpoint lookup_replacement (table : list (char * str)) (c : char) : str :=
  match table with
  | [] => [c]
  | (old, new) :: table' =>
      if (c =? old)%N then new else lookup_replacement table' c
  end.

Definition replacement_of (c : char) : str :=
  lookup_replacement replacements c.

(** ** Contact detection, declaratively *)

(** [w] is [kw] up to case: each character of [w] lowers to the character
    of [kw] at the same place. *)
Definition lowers_to (w kw : str) : Prop :=
  Forall2 (fun c k => lower [c] = [k]) w kw.

(** "(", two digits, ")", white space, four digits. *)
Definition phone_number (m : str) : Prop :=
  exists d1 d2 ws ds,
    m = [0x28%N; d1; d2; 0x29%N] ++ ws ++ ds
    /\ Py_UNICODE_ISDECIMAL d1 = true /\ Py_UNICODE_ISDECIMAL d2 = true
    /\ Forall (fun c => Py_UNICODE_ISSPACE c = true) ws
    /\ length ds = 4
    /\ Forall (fun c => Py_UNICODE_ISDECIMAL c = true) ds.

(** The closed form of [_is_bullet] on a sanitized line: the markers that
    the sanitizer leaves are "-" and "*". *)
Definition starts_with_dash_or_star (s : str) : bool :=
  match s with
  | [] => false
  | c :: _ => (c =? 0x2D)%N || (c =? 0x2A)%N
  end.

(** ** The parser as a function of the stripped non-empty lines *)

(** The lines that the loops look at: stripped, the empty ones left out. *)
Definition content_lines (lines : list str) : list str :=
  filter (fun l => nonempty l = true) (strip <$> lines).

Definition is_header (line : str) : bool :=
  title_is_header (line_title line).

Definition is_bullet_line (line : str) : bool :=
  match strip line with
  | [] => false
  | c :: _ => char_in c bullet_markers
  end.

Definition bullet_text (line : str) : str :=
  match strip line with
  | [] => []
  | c :: rest => if char_in c bullet_markers then strip rest else strip line
  end.

(** The header splits into a title and an inline paragraph. *)
Definition splits_inline (line : str) : bool :=
  contains (strip line) (py ":")
  && (10 <? length (line_inline_content line)).

Definition header_title (line : str) : str :=
  if splits_inline line then line_title line
  else rstrip (py ":") (strip line).

Definition header_items (line : str) : list Item :=
  if splits_inline line then [Paragraph (line_inline_content line)] else [].

(** The item made of a line that is not a header; a job title is
    recognised only when a section is open. *)
Definition item_of_line (in_section : bool) (line : str) : Item :=
  if is_bullet_line line then Bullet (bullet_text line)
  else if in_section && (contains line (py "|") && (length line <? 120))
       then JobTitle line
       else Paragraph line.

(** The sections made of the lines [ls] while the section [title], [items]
    is open. *)
Fixpoint group_sections (ls : list str) (title : str) (items : list Item)
  : list Block :=
  match ls with
  | [] => [SectionBlock title items]
  | l :: ls' =>
      if is_header l
      then SectionBlock title items
           :: group_sections ls' (header_title l) (header_items l)
      else group_sections ls' title (items ++ [item_of_line true l])
  end.

Definition sections_of (ls : list str) : list Block :=
  match ls with
  | [] => []
  | l :: ls' =>
      if is_header l
      then group_sections ls' (header_title l) (header_items l)
      else group_sections ls' [] [item_of_line false l]
  end.

(** The contact loop absorbs [line] when [n] lines are collected. *)
Definition absorbed (line : str) (n : nat) : bool :=
  _is_contact_line line
  || (negb (is_header line) && (n <? 3) && negb (is_bullet_line line)
      && (length line <? 120)).

(** The lines absorbed from the front of [ls], and the lines left. *)
Fixpoint contact_prefix (ls : list str) (n : nat) : list str * list str :=
  match ls with
  | [] => ([], [])
  | l :: ls' =>
      if absorbed l n
      then (l :: (contact_prefix ls' (S n)).1, (contact_prefix ls' (S n)).2)
      else ([], ls)
  end.

Definition document_of (ls : list str) : list Block :=
  match ls with
  | [] => []
  | name :: ls' =>
      NameBlock name
      :: contact_block (contact_prefix ls' 0).1
      ++ sections_of (contact_prefix ls' 0).2
  end.

(** ** Well-formed documents *)

Definition item_wf (it : Item) : Prop :=
  match it with
  | Paragraph t => t ≠ []
  | Bullet _ => True
  | JobTitle t => occurs_in (py "|") t /\ length t < 120
  end.

(** A name and a contact block are not empty; the items of a section are
    well formed; a section without title has a first item, which is not a
    job title. *)
Definition block_wf (b : Block) : Prop :=
  match b with
  | NameBlock c | ContactBlock c => c ≠ []
  | SectionBlock title items =>
      Forall item_wf items
      /\ (title = [] ->
          exists it rest, items = it :: rest /\ item_type_of it ≠ job_title)
  end.

(** The strings that a block holds. *)
Definition block_texts (b : Block) : list str :=
  match b with
  | NameBlock c | ContactBlock c => [c]
  | SectionBlock title items => title :: (item_text <$> items)
  end.

(** Every character of every string of the document satisfies [P]. *)
Definition document_chars (P : char -> Prop) (doc : list Block) : Prop :=
  Forall (fun b => Forall (Forall P) (block_texts b)) doc.

(** The lines [group] make the section [b]: the first line gives the title
    and the inline paragraph if it is a header, and the first item under an
    empty title if it is not; each of the other lines, none of them a
    header, gives one item, in order. *)
Definition section_of_group (group : list str) (b : Block) : Prop :=
  match group with
  | [] => False
  | l :: ls =>
      Forall (fun l' => is_header l' = false) ls
      /\ b = if is_header l
             then SectionBlock (header_title l)
                    (header_items l ++ (item_of_line true <$> ls))
             else SectionBlock []
                    (item_of_line false l :: (item_of_line true <$> ls))
  end.

(** The group starts with a header line. *)
Definition headed (group : list str) : Prop :=
  match group with
  | [] => False
  | l :: _ => is_header l = true
  end.

(** Two texts of the whitespace-insensitivity witness. *)
Definition resume_loose : str :=
  text_of [""; "   John Doe  "; ""; "john@mail.com"; "  "; "EXPERIENCE";
           "   - Built X"]%string.

Definition resume_tight : str :=
  text_of ["John Doe"; "john@mail.com"; "EXPERIENCE"; "- Built X"]%string.

(** * Text extraction: a model of [app/services/resume_parser.py]

    The PDF reader and the UTF-8 decoder are those of the libraries: the
    texts [page.extract_text()] of the pages of a PDF, or the failure of the
    reader, and [content.decode("utf-8", errors="replace")], are taken as
    given. A byte is a number. *)

Inductive upload_error :=
| NoTextInPdf
  (* ValueError: no text could be extracted from the PDF *)
| EmptyTextFile
  (* ValueError: the text file is empty *)
| UnsupportedType (content_type : str)
  (* ValueError: unsupported file type *)
| ReaderFailure.
  (* whatever the PDF reader raises *)

Inductive outcome (A : Type) : Type :=
| Returns (a : A)
| Raises (e : upload_error).
Arguments Returns {A} a.
Arguments Raises {A} e.

(** [s.endswith(suffix)] *)
Definition endswith (s suffix : str) : bool :=
  startswith (rev s) (rev suffix).

(** [a == b] on strings *)
Definition str_eqb (a b : str) : bool := bool_decide (a = b).

(** The part of [extract_text_from_pdf] that follows the reading of the
    pages: [pages] holds the text of each page. *)
Definition pdf_text_of_pages (pages : list str) : outcome str :=
  let pages_text := strip <$> filter (fun t => nonempty t = true) pages in
  let full_text := join [LF; LF] pages_text in
  if negb (nonempty (strip full_text)) then Raises NoTextInPdf
  else Returns full_text.

Section Upload.

Variable extract_pages : list N -> option (list str).
Variable decode_utf8_replace : list N -> str.

Definition extract_text_from_pdf (content : list N) : outcome str :=
  match extract_pages content with
  | None => Raises ReaderFailure
  | Some pages => pdf_text_of_pages pages
  end.

Definition extract_text_from_upload (content : list N)
    (content_type filename : str) : outcome str :=
  if str_eqb content_type (py "application/pdf")
     || endswith (lower filename) (py ".pdf")
  then extract_text_from_pdf content
  else if startswith content_type (py "text/")
          || endswith (lower filename) (py ".txt")
  then
    let text := strip (decode_utf8_replace content) in
    if negb (nonempty text) then Raises EmptyTextFile else Returns text
  else Raises (UnsupportedType content_type).

End Upload.

(** * The candidate name of [analyze_resume] in [app/routes/resume.py] *)

(** [first_line = resume_text.strip().split("\n")[0].strip()] and
    [candidate_name = first_line if len(first_line) < 60 else "Candidato"] *)
Definition candidate_name_of (resume_text : str) : result str :=
  first ← getitem (split LF (strip resume_text)) 0;
  let first_line := strip first in
  Ok (if length first_line <? 60 then first_line else py "Candidato").

(** The name that the parser gives a text: the content of the name block at
    the head of the document. *)
Definition name_of_document (doc : list Block) : option str :=
  match doc with
  | NameBlock name :: _ => Some name
  | _ => None
  end.

(** * The response of the webhook: a model of the end of [send_resume] in
    [app/services/n8n_client.py]

    [raw] is the value of [response.json()]. The function normalises it and
    calls the constructor [N8NResponse]; the model returns the arguments of
    that call, or the exception raised before it. *)

From Stdlib Require Import ZArith SpecFloat.

#[warnings="-register-all"]
Inductive json :=
| JNull
| JBool (b : bool)
| JInt (z : Z)
| JFloat (f : spec_float)
| JStr (s : str)
| JList (elements : list json)
| JDict (items : list (str * json)).

Inductive py_error := TypeError | AttributeError.

(** [bool(v)] *)
Definition truthy (v : json) : bool :=
  match v with
  | JNull => false
  | JBool b => b
  | JInt z => negb (z =? 0)%Z
  | JFloat (S754_zero _) => false
  | JFloat _ => true
  | JStr s => nonempty s
  | JList l => nonempty l
  | JDict d => nonempty d
  end.

(** The value of a key in the items of a dict, the keys being distinct. *)
Fixpoint dict_get (items : list (str * json)) (key : str) : option json :=
  match items with
  | [] => None
  | (k, v) :: items' => if str_eqb k key then Some v else dict_get items' key
  end.

(** [v == key] for a string [key] *)
Definition equals_str (key : str) (v : json) : bool :=
  match v with
  | JStr s => str_eqb s key
  | _ => false
  end.

(** [key in data]: a key of a dict, an element of a list, a substring of a
    string; a [TypeError] on the other values. *)
Definition py_in (key : str) (data : json) : py_error + bool :=
  match data with
  | JDict items => inr (bool_decide (is_Some (dict_get items key)))
  | JList l => inr (existsb (equals_str key) l)
  | JStr s => inr (contains s key)
  | _ => inl TypeError
  end.

(** [data[key]] for a string [key], where [key in data] holds. *)
Definition py_subscript (data : json) (key : str) : py_error + json :=
  match data with
  | JDict items =>
      match dict_get items key with
      | Some v => inr v
      | None => inl TypeError (* not reached: the key is in the dict *)
      end
  | _ => inl TypeError
  end.

(** [data.get(key, default)]: only a dict has the method. *)
Definition py_get (data : json) (key : str) (default : json)
  : py_error + json :=
  match data with
  | JDict items =>
      inr (match dict_get items key with Some v => v | None => default end)
  | _ => inl AttributeError
  end.

Record N8NResponse_args := {
  analysis : json;
  suggestions : json;
  score : json;
  rewritten_resume : json
}.

(** [data = raw[0] if raw else {}] for a list, [data = raw] otherwise *)
Definition response_data (raw : json) : json :=
  match raw with
  | JList l => match l with [] => JDict [] | first :: _ => first end
  | _ => raw
  end.

(** The two [return] statements, on the normalised [data]. *)
Definition response_of_data (data : json) (adjust : bool)
  : py_error + N8NResponse_args :=
  match py_in (py "output") data with
  | inl e => inl e
  | inr has_output =>
      match (if has_output
             then match py_in (py "analysis") data with
                  | inl e => inl e
                  | inr has_analysis => inr (negb has_analysis)
                  end
             else inr false) with
      | inl e => inl e
      | inr true =>
          match py_subscript data (py "output") with
          | inl e => inl e
          | inr output_text =>
              match py_get data (py "score") JNull with
              | inl e => inl e
              | inr the_score =>
                  inr {| analysis := output_text;
                         suggestions := output_text;
                         score := the_score;
                         rewritten_resume :=
                           if adjust then output_text else JStr [] |}
              end
          end
      | inr false =>
          match py_get data (py "analysis") (JStr []),
                py_get data (py "suggestions") (JStr []),
                py_get data (py "score") JNull,
                py_get data (py "rewritten_resume") (JStr []) with
          | inr a, inr s, inr sc, inr r =>
              inr {| analysis := a;
                     suggestions := s;
                     score := sc;
                     rewritten_resume :=
                       if truthy r then r
                       else if adjust then a else JStr [] |}
          | inl e, _, _, _ | _, inl e, _, _ | _, _, inl e, _
          | _, _, _, inl e => inl e
          end
      end
  end.

Definition normalize_response (raw : json) (adjust : bool)
  : py_error + N8NResponse_args :=
  response_of_data (response_data raw) adjust.

(** The object that a response stands for: itself, the first element of a
    list, or the empty object for the empty list. *)
Definition response_object (raw : json) : option (list (str * json)) :=
  match raw with
  | JDict d => Some d
  | JList [] => Some []
  | JList (JDict d :: _) => Some d
  | _ => None
  end.

(** The line of the tie-break witness. *)
Definition capital_bullet_line : str := py "- AWS".


(** A skills section with a tag that is opened and not closed, and a text
    that yields it. *)
Definition skills_with_markup : list Item :=
  [Bullet (py "<b>HTML"); Bullet (py "Python"); Bullet (py "Docker");
   Bullet (py "Linux")].

Definition resume_with_markup : str :=
  text_of ["Ana"; "ana@mail.com"; "HABILIDADES"; "- <b>HTML"; "- Python";
           "- Docker"; "- Linux"]%string.

(** A library that refuses the paragraphs in which a tag [<b>] is opened
    and not closed, and takes everything else. *)
Definition tag_checking_library : library :=
  {| paragraph_returns := fun text _ =>
       negb (contains text (py "<b>")) || contains text (py "</b>");
     wrap_returns := fun _ _ => true;
     table_returns := fun _ => true |}.

(** * Properties *)

(** ** The model of the runtime on a few inputs

    The values are those of CPython 3.11. *)

Example strip_spaces : strip (py "  a b  ") = py "a b".
Proof. vm_compute. reflexivity. Qed.

Example strip_no_break_space : strip [0xA0; 0x78; 0x2003]%N = py "x".
Proof. vm_compute. reflexivity. Qed.

Example split_empty : split LF [] = [[]].
Proof. reflexivity. Qed.

Example isupper_ignores_digits : isupper (py "ABC 1") = true.
Proof. vm_compute. reflexivity. Qed.

Example isupper_needs_a_letter : isupper (py "123") = false.
Proof. vm_compute. reflexivity. Qed.

(** The Kelvin sign lowers to "k"; the dotted capital I to "i" and a
    combining dot. *)
Example lower_kelvin : lower [0x212A]%N = py "k".
Proof. vm_compute. reflexivity. Qed.

Example lower_dotted_I : lower [0x130]%N = [0x69; 0x307]%N.
Proof. vm_compute. reflexivity. Qed.

(** "ΟΔΟΣ": the last sigma is final, the lone one is not. *)
Example lower_final_sigma :
  lower [0x39F; 0x394; 0x39F; 0x3A3]%N = [0x3BF; 0x3B4; 0x3BF; 0x3C2]%N
  /\ lower [0x3A3]%N = [0x3C3]%N.
Proof. vm_compute. split; reflexivity. Qed.

(** "HABILIDADES TÉCNICAS" starts with a match of [habilidades]. *)
Example match_ignores_case :
  re_match true (word (py "habilidades"))
           (py "HABILIDADES T" ++ [0xC9%N] ++ py "CNICAS") = true.
Proof. vm_compute. reflexivity. Qed.

Example phone_is_contact : _is_contact_line (py "(11) 91234-5678") = true.
Proof. vm_compute. reflexivity. Qed.

Example short_phone_is_not_contact : _is_contact_line (py "(11) 912") = false.
Proof. vm_compute. reflexivity. Qed.

(** ** The sanitizer *)

Section Sanitizer.

Lemma replace_app old new a b :
  replace old new (a ++ b) = replace old new a ++ replace old new b.
Proof. unfold replace. apply flat_map_app. Qed.

Lemma replace_all_app table a b :
  replace_all table (a ++ b) = replace_all table a ++ replace_all table b.
Proof.
  revert a b. induction table as [|[old new] table IH]; intros a b; simpl.
  - reflexivity.
  - rewrite replace_app. apply IH.
Qed.

Lemma replace_all_nil table : replace_all table [] = [].
Proof. induction table as [|[old new] table IH]; simpl; auto. Qed.

Lemma replace_all_cons table c s :
  replace_all table (c :: s) = replace_all table [c] ++ replace_all table s.
Proof. apply (replace_all_app table [c] s). Qed.

Lemma is_key_of_entry old new c :
  (old, new) ∈ replacements -> is_key c = false -> (c =? old)%N = false.
Proof.
  intros Hin Hk. unfold is_key in Hk.
  destruct (c =? old)%N eqn:E; [|reflexivity].
  rewrite <- Hk. symmetry. apply existsb_exists.
  exists (old, new). split; [by apply list_elem_of_In|exact E].
Qed.

Lemma replace_key_free old new s :
  (old, new) ∈ replacements -> key_free s -> replace old new s = s.
Proof.
  intros Hin Hs. induction Hs as [|c s Hc Hs IH]; simpl.
  - reflexivity.
  - rewrite (is_key_of_entry old new c Hin Hc). simpl. f_equal.
    apply IH.
Qed.

Lemma replace_all_key_free table s :
  table ⊆ replacements -> key_free s -> replace_all table s = s.
Proof.
  revert s. induction table as [|[old new] table IH]; intros s Hsub Hs; simpl.
  - reflexivity.
  - rewrite replace_key_free; [|apply Hsub; left|exact Hs].
    apply IH; [|exact Hs]. intros x Hx. apply Hsub. by right.
Qed.

Lemma values_key_free_true : values_key_free = true.
Proof. vm_compute. reflexivity. Qed.

Lemma value_key_free old new : (old, new) ∈ replacements -> key_free new.
Proof.
  intros Hin. pose proof values_key_free_true as H.
  unfold values_key_free in H. rewrite forallb_forall in H.
  specialize (H (old, new)). simpl in H.
  apply list_elem_of_In in Hin. specialize (H Hin).
  rewrite forallb_forall in H. apply Forall_forall. intros c Hc.
  apply list_elem_of_In in Hc. specialize (H c Hc).
  by destruct (is_key c).
Qed.

(** One character through a suffix of the table: it is kept, and is then
    none of the keys of that suffix, or it has become key-free text. *)
Lemma replace_all_single table c :
  table ⊆ replacements ->
  (replace_all table [c] = [c] /\
   forallb (fun '(old, _) => negb (c =? old)%N) table = true)
  \/ key_free (replace_all table [c]).
Proof.
  induction table as [|[old new] table IH]; intros Hsub.
  - left. split; reflexivity.
  - assert (Hsub' : table ⊆ replacements).
    { intros x Hx. apply Hsub. by right. }
    assert (Hin : (old, new) ∈ replacements) by (apply Hsub; left).
    simpl. destruct (c =? old)%N eqn:E; simpl.
    + right. rewrite app_nil_r.
      rewrite replace_all_key_free; eauto using value_key_free.
    + destruct (IH Hsub') as [[H1 H2]|H]; [left|right]; auto.
Qed.

Lemma sanitize_char_key_free c : key_free (_sanitize_text [c]).
Proof.
  destruct (replace_all_single replacements c) as [[H1 H2]|H]; [done| |exact H].
  change (_sanitize_text [c]) with (replace_all replacements [c]).
  rewrite H1. constructor; [|constructor].
  unfold is_key. apply not_true_is_false. intros Hk.
  apply existsb_exists in Hk as [[old new] [Hin Hc]].
  rewrite forallb_forall in H2. specialize (H2 _ Hin). simpl in H2.
  rewrite Hc in H2. discriminate.
Qed.

Lemma sanitize_key_free text : key_free (_sanitize_text text).
Proof.
  induction text as [|c text IH].
  - unfold _sanitize_text. fold (replace_all replacements []).
    rewrite replace_all_nil. constructor.
  - change (_sanitize_text (c :: text))
      with (replace_all replacements (c :: text)).
    rewrite replace_all_cons. apply Forall_app. split.
    + apply sanitize_char_key_free.
    + exact IH.
Qed.

(** C4. The sanitizer is idempotent: sanitizing a sanitized text changes
    nothing. *)
Theorem sanitize_idempotent (x : str) :
  _sanitize_text (_sanitize_text x) = _sanitize_text x.
Proof.
  apply (replace_all_key_free replacements); [done|].
  apply sanitize_key_free.
Qed.

End Sanitizer.

(** ** Strings *)

Section Strings.

Lemma startswith_spec (s pre : str) :
  startswith s pre = true <-> exists q, s = pre ++ q.
Proof.
  revert s. induction pre as [|p pre IH]; intros s.
  - destruct s; (split; [intros _; by eexists|done]).
  - destruct s as [|c s]; cbn [startswith].
    + split; [discriminate|]. intros [q Hq]. discriminate.
    + rewrite andb_true_iff, N.eqb_eq, IH. split.
      * intros [-> [q ->]]. by exists q.
      * intros [q Hq]. injection Hq as -> ->. split; [done|by exists q].
Qed.

Lemma contains_spec (s sub : str) :
  contains s sub = true <-> occurs_in sub s.
Proof.
  unfold occurs_in. induction s as [|c s IH].
  - cbn [contains]. rewrite orb_false_r, startswith_spec. split.
    + intros [q Hq]. exists [], q. exact Hq.
    + intros [p [q Hq]]. destruct p; [by exists q|discriminate].
  - cbn [contains]. rewrite orb_true_iff, startswith_spec, IH. split.
    + intros [[q Hq]|[p [q Hq]]].
      * exists [], q. exact Hq.
      * exists (c :: p), q. simpl. by rewrite Hq.
    + intros [p [q Hq]]. destruct p as [|c' p].
      * left. by exists q.
      * right. injection Hq as -> ->. by exists p, q.
Qed.

End Strings.

(** ** Scenarios *)

(** C2. The text with the lines "John Doe", "john@mail.com", "EXPERIENCE",
    "- Built X", "- Built Y" parses to the name, the contact block
    "john@mail.com" and the section "EXPERIENCE" with the two bullets
    "Built X" and "Built Y"; the sanitizer leaves that text as it is. *)
Theorem scenario_name_contact_section :
  _parse_resume_sections resume_john_doe
  = Ok [NameBlock (py "John Doe"); ContactBlock (py "john@mail.com");
        SectionBlock (py "EXPERIENCE")
                     [Bullet (py "Built X"); Bullet (py "Built Y")]]
  /\ _sanitize_text resume_john_doe = resume_john_doe.
Proof. vm_compute. split; reflexivity. Qed.

(** ** The matcher decides the language of a pattern *)

Section Regex.

Variable ignorecase : bool.

Local Abbreviation Lang := (Matches ignorecase).

Lemma Matches_Void_inv s : Lang Void s -> False.
Proof. inversion 1. Qed.

Lemma Matches_Eps_inv s : Lang Eps s -> s = [].
Proof. by inversion 1. Qed.

Lemma Matches_Atom_inv a s :
  Lang (Atom a) s -> exists ch, s = [ch] /\ atom_match ignorecase a ch = true.
Proof. inversion 1; subst. by eexists. Qed.

Lemma Matches_Cat_inv r1 r2 s :
  Lang (Cat r1 r2) s ->
  exists s1 s2, s = s1 ++ s2 /\ Lang r1 s1 /\ Lang r2 s2.
Proof. inversion 1; subst. by do 2 eexists. Qed.

Lemma Matches_Alt_inv r1 r2 s : Lang (Alt r1 r2) s -> Lang r1 s \/ Lang r2 s.
Proof. inversion 1; subst; auto. Qed.

Lemma Matches_Star_cons_inv r c s :
  Lang (Star r) (c :: s) ->
  exists s1 s2, s = s1 ++ s2 /\ Lang r (c :: s1) /\ Lang (Star r) s2.
Proof.
  intros H. remember (Star r) as r' eqn:Hr. remember (c :: s) as cs eqn:Hs.
  revert s Hs. induction H as [| | | | | |r0 s1 s2 H1 _ H2 IH2];
    intros t Ht; try discriminate.
  injection Hr as ->. destruct s1 as [|c1 s1]; simpl in Ht.
  - by apply IH2.
  - injection Ht as -> <-. by exists s1, s2.
Qed.

Lemma nullable_spec r : nullable r = true <-> Lang r [].
Proof.
  induction r as [| |a|r1 IH1 r2 IH2|r1 IH1 r2 IH2|r IH]; simpl.
  - split; [discriminate|]. intros H. destruct (Matches_Void_inv _ H).
  - split; [intros _; constructor|reflexivity].
  - split; [discriminate|].
    intros H. apply Matches_Atom_inv in H as (ch & H & _). discriminate.
  - rewrite andb_true_iff, IH1, IH2. split.
    + intros [H1 H2]. apply (MCat _ r1 r2 [] [] H1 H2).
    + intros H. apply Matches_Cat_inv in H as (s1 & s2 & Hs & H1 & H2).
      symmetry in Hs. apply app_eq_nil in Hs as [-> ->]. by split.
  - rewrite orb_true_iff, IH1, IH2. split.
    + intros [H|H]; [by apply MAltL|by apply MAltR].
    + apply Matches_Alt_inv.
  - split; [intros _; constructor|reflexivity].
Qed.

Lemma cat'_spec r1 r2 s : Lang (cat' r1 r2) s <-> Lang (Cat r1 r2) s.
Proof.
  destruct r1; simpl; try reflexivity.
  - split; intros H.
    + destruct (Matches_Void_inv _ H).
    + apply Matches_Cat_inv in H as (s1 & s2 & _ & H & _).
      destruct (Matches_Void_inv _ H).
  - split; intros H.
    + apply (MCat _ Eps r2 [] s); [constructor|exact H].
    + apply Matches_Cat_inv in H as (s1 & s2 & -> & H1 & H2).
      apply Matches_Eps_inv in H1 as ->. exact H2.
Qed.

Lemma alt'_spec r1 r2 s : Lang (alt' r1 r2) s <-> Lang (Alt r1 r2) s.
Proof.
  assert (Hl : forall r, Lang r s <-> Lang (Alt Void r) s).
  { intros r. split; intros H; [by apply MAltR|].
    apply Matches_Alt_inv in H as [H|H]; [|exact H].
    destruct (Matches_Void_inv _ H). }
  assert (Hr : forall r, Lang r s <-> Lang (Alt r Void) s).
  { intros r. split; intros H; [by apply MAltL|].
    apply Matches_Alt_inv in H as [H|H]; [exact H|].
    destruct (Matches_Void_inv _ H). }
  destruct r1, r2; simpl; try reflexivity; try apply Hl; try apply Hr.
Qed.

Lemma deriv_spec r ch s : Lang (deriv ignorecase ch r) s <-> Lang r (ch :: s).
Proof.
  revert s.
  induction r as [| |a|r1 IH1 r2 IH2|r1 IH1 r2 IH2|r IH]; intros s; simpl.
  - split; intros H; destruct (Matches_Void_inv _ H).
  - split; intros H; [destruct (Matches_Void_inv _ H)|].
    apply Matches_Eps_inv in H. discriminate.
  - destruct (atom_match ignorecase a ch) eqn:E; split; intros H.
    + apply Matches_Eps_inv in H as ->. by constructor.
    + apply Matches_Atom_inv in H as (ch' & Hs & _).
      injection Hs as _ ->. constructor.
    + destruct (Matches_Void_inv _ H).
    + apply Matches_Atom_inv in H as (ch' & Hs & Hm).
      injection Hs as -> _. congruence.
  - assert (Hcat : Lang (cat' (deriv ignorecase ch r1) r2) s <->
                   exists s1 s2, s = s1 ++ s2 /\ Lang r1 (ch :: s1) /\ Lang r2 s2).
    { rewrite cat'_spec. split.
      - intros H. apply Matches_Cat_inv in H as (s1 & s2 & -> & H1 & H2).
        exists s1, s2. by rewrite <- IH1.
      - intros (s1 & s2 & -> & H1 & H2). constructor; [by apply IH1|exact H2]. }
    destruct (nullable r1) eqn:En.
    + rewrite alt'_spec. split.
      * intros H. apply Matches_Alt_inv in H as [H|H].
        -- apply Hcat in H as (s1 & s2 & -> & H1 & H2).
           apply (MCat _ r1 r2 (ch :: s1) s2 H1 H2).
        -- apply (MCat _ r1 r2 [] (ch :: s)); [by apply nullable_spec|].
           by apply IH2.
      * intros H. apply Matches_Cat_inv in H as (s1 & s2 & Hs & H1 & H2).
        destruct s1 as [|c1 s1]; simpl in Hs.
        -- subst s2. apply MAltR. by apply IH2.
        -- injection Hs as <- ->. apply MAltL. apply Hcat. by exists s1, s2.
    + rewrite Hcat. split.
      * intros (s1 & s2 & -> & H1 & H2).
        apply (MCat _ r1 r2 (ch :: s1) s2 H1 H2).
      * intros H. apply Matches_Cat_inv in H as (s1 & s2 & Hs & H1 & H2).
        destruct s1 as [|c1 s1]; simpl in Hs.
        -- apply nullable_spec in H1. congruence.
        -- injection Hs as <- ->. by exists s1, s2.
  - rewrite alt'_spec. split; intros H.
    + apply Matches_Alt_inv in H as [H|H];
        [apply MAltL; by apply IH1|apply MAltR; by apply IH2].
    + apply Matches_Alt_inv in H as [H|H];
        [apply MAltL; by apply IH1|apply MAltR; by apply IH2].
  - rewrite cat'_spec. split; intros H.
    + apply Matches_Cat_inv in H as (s1 & s2 & -> & H1 & H2).
      apply (MStarApp _ r (ch :: s1) s2); [by apply IH|exact H2].
    + apply Matches_Star_cons_inv in H as (s1 & s2 & -> & H1 & H2).
      constructor; [by apply IH|exact H2].
Qed.

Lemma re_match_spec pat s :
  re_match ignorecase pat s = true <-> matches_at_start ignorecase pat s.
Proof.
  unfold matches_at_start. revert pat.
  induction s as [|ch s IH]; intros pat; cbn [re_match].
  - rewrite orb_false_r, nullable_spec. split.
    + intros H. by exists [], [].
    + intros (p & q & Hs & H). symmetry in Hs.
      apply app_eq_nil in Hs as [-> _]. exact H.
  - rewrite orb_true_iff, nullable_spec, IH. split.
    + intros [H|(p & q & -> & H)].
      * by exists [], (ch :: s).
      * exists (ch :: p), q. split; [reflexivity|by apply deriv_spec].
    + intros (p & q & Hs & H). destruct p as [|c p]; simpl in Hs.
      * by left.
      * injection Hs as <- ->. right. exists p, q.
        split; [reflexivity|by apply deriv_spec].
Qed.

End Regex.

(** ** The parsing helpers in closed form *)

Section Helpers.

Lemma lstrip_with_head (p : char -> bool) (s : str) :
  match s with [] => True | c :: _ => p c = false end ->
  lstrip_with p s = s.
Proof. destruct s as [|c s]; simpl; [done|]. by intros ->. Qed.

Lemma lstrip_with_head_false (p : char -> bool) (s : str) :
  match lstrip_with p s with [] => True | c :: _ => p c = false end.
Proof.
  induction s as [|c s IH]; simpl; [done|].
  destruct (p c) eqn:E; [exact IH|exact E].
Qed.

Lemma lstrip_with_suffix (p : char -> bool) (s : str) :
  exists d, s = d ++ lstrip_with p s.
Proof.
  induction s as [|c s [d IH]]; simpl.
  - by exists [].
  - destruct (p c).
    + exists (c :: d). simpl. by f_equal.
    + by exists [].
Qed.

Lemma rstrip_with_prefix (p : char -> bool) (s : str) :
  exists d, s = rstrip_with p s ++ d.
Proof.
  unfold rstrip_with. destruct (lstrip_with_suffix p (rev s)) as [d Hd].
  exists (rev d). rewrite <- rev_app_distr, <- Hd. by rewrite rev_involutive.
Qed.

Lemma rstrip_with_id (p : char -> bool) (s : str) :
  Forall (fun c => p c = false) s -> rstrip_with p s = s.
Proof.
  intros H. unfold rstrip_with. rewrite lstrip_with_head.
  - apply rev_involutive.
  - destruct (rev s) as [|c r] eqn:E; [done|].
    rewrite Forall_forall in H. apply H.
    apply list_elem_of_In, in_rev. rewrite E. by left.
Qed.

Lemma Forall_lstrip_with (P : char -> Prop) p s :
  Forall P s -> Forall P (lstrip_with p s).
Proof.
  intros H. destruct (lstrip_with_suffix p s) as [d Hd].
  rewrite Hd in H. by apply Forall_app in H as [_ H].
Qed.

Lemma Forall_rstrip_with (P : char -> Prop) p s :
  Forall P s -> Forall P (rstrip_with p s).
Proof.
  intros H. destruct (rstrip_with_prefix p s) as [d Hd].
  rewrite Hd in H. by apply Forall_app in H as [H _].
Qed.

Lemma Forall_strip (P : char -> Prop) s : Forall P s -> Forall P (strip s).
Proof. intros H. by apply Forall_rstrip_with, Forall_lstrip_with. Qed.

Lemma rstrip_with_last_false (p : char -> bool) (s : str) :
  match rev (rstrip_with p s) with [] => True | c :: _ => p c = false end.
Proof.
  unfold rstrip_with. rewrite rev_involutive. apply lstrip_with_head_false.
Qed.

(** [strip] leaves a stripped string as it is. *)
Lemma strip_idempotent (s : str) : strip (strip s) = strip s.
Proof.
  unfold strip at 1.
  set (p := Py_UNICODE_ISSPACE). set (t := strip s).
  assert (Hhead : match t with [] => True | c :: _ => p c = false end).
  { unfold t, strip. fold p.
    pose proof (lstrip_with_head_false p s) as H.
    destruct (rstrip_with_prefix p (lstrip_with p s)) as [d Hd].
    destruct (rstrip_with p (lstrip_with p s)) as [|c r]; [done|].
    rewrite Hd in H. exact H. }
  rewrite (lstrip_with_head p t Hhead).
  unfold rstrip_with. rewrite lstrip_with_head; [apply rev_involutive|].
  unfold t, strip. fold p. apply rstrip_with_last_false.
Qed.

Lemma contains_colon_cons (c : char) (s : str) :
  contains (c :: s) (py ":") = (c =? COLON)%N || contains s (py ":").
Proof.
  cbn [contains startswith py].
  replace (startswith s []) with true by (by destruct s).
  by rewrite andb_true_r.
Qed.

Lemma contains_colon_false (s : str) :
  contains s (py ":") = false -> no_colon s.
Proof.
  induction s as [|c s IH]; intros H; [constructor|].
  rewrite contains_colon_cons in H. apply orb_false_iff in H as [H1 H2].
  constructor; [by apply N.eqb_neq|by apply IH].
Qed.

Lemma before_colon_no_colon (s : str) : no_colon (before_colon s).
Proof.
  induction s as [|c s IH]; simpl; [constructor|].
  destruct (c =? COLON)%N eqn:E; [constructor|].
  constructor; [by apply N.eqb_neq|exact IH].
Qed.

Lemma before_colon_id (s : str) : no_colon s -> before_colon s = s.
Proof.
  induction 1 as [|c s Hc Hs IH]; simpl; [done|].
  apply N.eqb_neq in Hc. by rewrite Hc, IH.
Qed.

Lemma split1_colon (s : str) :
  split1 COLON s
  = if contains s (py ":") then [before_colon s; after_colon s] else [s].
Proof.
  induction s as [|c s IH]; [reflexivity|].
  rewrite contains_colon_cons. cbn [split1 before_colon after_colon].
  destruct (c =? COLON)%N; [reflexivity|]. rewrite IH. cbn [orb].
  by destruct (contains s (py ":")).
Qed.

Lemma rstrip_colon_id (s : str) : no_colon s -> rstrip (py ":") s = s.
Proof.
  intros H. apply rstrip_with_id. eapply Forall_impl; [exact H|].
  intros c Hc. simpl. rewrite orb_false_r. by apply N.eqb_neq.
Qed.

(** The title that [_is_section_header] extracts is the text before the
    first colon of the stripped line, stripped. *)
Lemma _is_section_header_eq (line : str) :
  _is_section_header line = Ok (title_is_header (line_title line)).
Proof.
  unfold _is_section_header, line_title, title_is_header.
  set (stripped := strip line).
  destruct (contains stripped (py ":")) eqn:Hc.
  - rewrite split1_colon, Hc.
    cbn [getitem lookup list_lookup mbind result_bind].
    rewrite rstrip_colon_id
      by apply Forall_strip, before_colon_no_colon.
    by destruct (nonempty _), (isupper _ && _).
  - cbn [mbind result_bind]. apply contains_colon_false in Hc.
    rewrite rstrip_colon_id by exact Hc.
    rewrite (before_colon_id _ Hc). unfold stripped.
    rewrite strip_idempotent.
    by destruct (nonempty _), (isupper _ && _).
Qed.

Lemma _extract_section_title_eq (line : str) :
  _extract_section_title line
  = Ok (if contains (strip line) (py ":")
           && (10 <? length (line_inline_content line))
        then (line_title line, line_inline_content line)
        else (rstrip (py ":") (strip line), [])).
Proof.
  unfold _extract_section_title, line_title, line_inline_content.
  set (stripped := strip line).
  destruct (contains stripped (py ":")) eqn:Hc; [|reflexivity].
  rewrite split1_colon, Hc.
  cbn [getitem lookup list_lookup mbind result_bind length andb].
  change (1 <? 2) with true. cbn [mbind result_bind].
  by destruct (10 <? _).
Qed.

Lemma _is_bullet_eq (line : str) :
  _is_bullet line
  = Ok (match strip line with
        | [] => false
        | c :: _ => char_in c bullet_markers
        end).
Proof. unfold _is_bullet. by destruct (strip line). Qed.

Lemma _clean_bullet_text_eq (line : str) :
  _clean_bullet_text line
  = Ok (match strip line with
        | [] => []
        | c :: rest =>
            if char_in c bullet_markers then strip rest else strip line
        end).
Proof.
  unfold _clean_bullet_text. destruct (strip line) as [|c rest]; [done|].
  cbn [nonempty getitem lookup list_lookup mbind result_bind].
  by destruct (char_in c bullet_markers).
Qed.

End Helpers.

(** ** Header detection *)

Section Headers.

(** C6 (amended). A line is marked as a section header exactly when its
    title (the text before the first colon, stripped) is not empty and
    either is upper-case (no lowercase or titlecase character, at least one
    uppercase one) and shorter than 60 characters, or starts, up to case,
    with a word that one of the patterns of [_SECTION_PATTERNS] describes:
    the Portuguese section names, with or without their accents. *)
Theorem header_detection (line : str) :
  exists b : bool,
    _is_section_header line = Ok b /\
    (b = true <->
     line_title line ≠ [] /\
     ((isupper (line_title line) = true /\ length (line_title line) < 60)
      \/ exists pat, pat ∈ _SECTION_PATTERNS
                     /\ matches_at_start true pat (line_title line))).
Proof.
  exists (title_is_header (line_title line)).
  split; [apply _is_section_header_eq|].
  unfold title_is_header. set (title := line_title line).
  rewrite andb_true_iff, orb_true_iff, andb_true_iff, Nat.ltb_lt,
    existsb_exists.
  assert (Hne : nonempty title = true <-> title ≠ []) by (by destruct title).
  rewrite Hne. split.
  - intros [H [H'|(pat & Hin & Hm)]]; (split; [exact H|]); [by left|right].
    exists pat. split; [by apply list_elem_of_In|by apply re_match_spec].
  - intros [H [H'|(pat & Hin & Hm)]]; (split; [exact H|]); [by left|right].
    exists pat. split; [by apply list_elem_of_In|by apply re_match_spec].
Qed.

(** C6 (as stated) fails on the listed English names: "Skills" is one of
    them and is not marked as a header, and "Habilidades" is marked without
    being one of them. *)
Lemma header_listed_names_not_detected :
  header_by_listed_names (py "Skills") = true /\
  _is_section_header (py "Skills") = Ok false /\
  header_by_listed_names (py "Habilidades") = false /\
  _is_section_header (py "Habilidades") = Ok true.
Proof. vm_compute. repeat split. Qed.

End Headers.

(** ** The parser *)

Section Parser.

Lemma getitem_lt {A} (xs : list A) (i : nat) :
  i < length xs -> exists x, xs !! i = Some x /\ getitem xs i = Ok x.
Proof.
  intros H. destruct (lookup_lt_is_Some_2 xs i H) as [x Hx].
  exists x. split; [exact Hx|]. unfold getitem. by rewrite Hx.
Qed.

Lemma append_item_last (l : list Block) title items it :
  append_item (l ++ [SectionBlock title items]) (length l) it
  = Ok (l ++ [SectionBlock title (items ++ [it])]).
Proof.
  unfold append_item.
  rewrite lookup_app_r by lia. rewrite Nat.sub_diag. cbn [lookup list_lookup].
  f_equal. rewrite insert_app_r_alt by lia. by rewrite Nat.sub_diag.
Qed.

Lemma open_section_items (l : list Block) title acc first :
  foldl (fun acc it => s ← acc; append_item s (length l) it)
        (Ok (l ++ [SectionBlock title acc])) first
  = Ok (l ++ [SectionBlock title (acc ++ first)]).
Proof.
  revert acc. induction first as [|it first IH]; intros acc.
  - by rewrite app_nil_r.
  - cbn [foldl mbind result_bind]. rewrite append_item_last, IH.
    by rewrite <- app_assoc.
Qed.

Lemma open_section_eq (sections : list Block) title first :
  open_section sections title first
  = Ok (sections ++ [SectionBlock title first], Some (length sections)).
Proof.
  unfold open_section.
  rewrite (open_section_items sections title [] first). reflexivity.
Qed.

Lemma body_inv_open pre sections cur title first :
  body_inv pre (sections, cur) ->
  body_inv pre (sections ++ [SectionBlock title first], Some (length sections)).
Proof.
  intros [H|(secs & t & its & Hsecs & H)]; injection H as -> ->.
  - right. exists [], title, first. rewrite !app_nil_r. by split.
  - right. exists (secs ++ [SectionBlock t its]), title, first. split.
    + apply Forall_app. split; [exact Hsecs|]. by constructor.
    + by rewrite !app_assoc.
Qed.

Lemma body_inv_append pre sections ref it :
  body_inv pre (sections, Some ref) ->
  exists sections',
    append_item sections ref it = Ok sections'
    /\ body_inv pre (sections', Some ref).
Proof.
  intros [H|(secs & t & its & Hsecs & H)]; [discriminate|].
  injection H as -> ->. rewrite app_assoc, append_item_last.
  eexists. split; [reflexivity|].
  right. exists secs, t, (its ++ [it]). split; [exact Hsecs|].
  by rewrite app_assoc.
Qed.

Ltac append_current Hinv :=
  match goal with
  | |- context [append_item ?sections ?ref ?it] =>
      let s := fresh "s" in
      let Hs := fresh "Hs" in
      let Hinv' := fresh "Hinv" in
      destruct (body_inv_append _ sections ref it Hinv) as (s & Hs & Hinv');
      rewrite Hs; cbn [mbind result_bind]; by do 2 eexists
  end.

(** One line of the body: it never raises, and it leaves a section open. *)
Lemma process_line_inv pre line st :
  body_inv pre st ->
  exists sections ref,
    process_line line st = Ok (sections, Some ref)
    /\ body_inv pre (sections, Some ref).
Proof.
  destruct st as [sections cur]. intros Hinv. unfold process_line.
  rewrite _is_section_header_eq, _extract_section_title_eq, _is_bullet_eq,
    _clean_bullet_text_eq.
  cbn [mbind result_bind].
  destruct (title_is_header (line_title line)).
  - destruct (_ && _); rewrite open_section_eq;
      do 2 eexists; (split; [reflexivity|]); by eapply body_inv_open.
  - destruct (match strip line with [] => false | _ => _ end).
    + destruct cur as [ref|].
      * append_current Hinv.
      * rewrite open_section_eq.
        do 2 eexists; (split; [reflexivity|]); by eapply body_inv_open.
    + destruct cur as [ref|].
      * destruct (contains line (py "|") && (length line <? 120));
          append_current Hinv.
      * rewrite open_section_eq.
        do 2 eexists; (split; [reflexivity|]); by eapply body_inv_open.
Qed.

(** The last loop ends, within [len(lines) - idx + 1] steps. *)
Lemma process_rest_inv pre fuel lines idx st :
  length lines - idx < fuel ->
  body_inv pre st ->
  exists st', process_rest fuel lines idx st = Ok st' /\ body_inv pre st'.
Proof.
  revert idx st. induction fuel as [|fuel IH]; intros idx st Hfuel Hinv;
    [lia|].
  cbn [process_rest]. destruct (idx <? length lines) eqn:Hlt.
  - apply Nat.ltb_lt in Hlt.
    destruct (getitem_lt lines idx Hlt) as (raw & _ & ->).
    cbn [mbind result_bind].
    destruct (negb (nonempty (strip raw))).
    + apply IH; [lia|exact Hinv].
    + destruct (process_line_inv pre (strip raw) st Hinv)
        as (sections & ref & -> & Hinv').
      cbn [mbind result_bind]. apply IH; [lia|exact Hinv'].
  - by exists st.
Qed.

Lemma skip_blank_lines_ok fuel lines idx :
  length lines - idx < fuel ->
  exists idx', skip_blank_lines fuel lines idx = Ok idx' /\ idx <= idx'.
Proof.
  revert idx. induction fuel as [|fuel IH]; intros idx Hfuel; [lia|].
  cbn [skip_blank_lines]. destruct (idx <? length lines) eqn:Hlt.
  - apply Nat.ltb_lt in Hlt.
    destruct (getitem_lt lines idx Hlt) as (raw & _ & ->).
    cbn [mbind result_bind].
    destruct (negb (nonempty (strip raw))).
    + destruct (IH (idx + 1)) as (idx' & -> & Hle); [lia|].
      exists idx'. split; [reflexivity|lia].
    + by exists idx.
  - by exists idx.
Qed.

Lemma take_name_ok fuel lines :
  length lines < fuel ->
  exists name_part idx,
    take_name fuel lines [] = Ok (name_part, idx)
    /\ (name_part = [] \/ exists name, name_part = [NameBlock name]).
Proof.
  intros Hfuel. unfold take_name.
  destruct (skip_blank_lines_ok fuel lines 0) as (idx & -> & _); [lia|].
  cbn [mbind result_bind]. destruct (idx <? length lines) eqn:Hlt.
  - apply Nat.ltb_lt in Hlt.
    destruct (getitem_lt lines idx Hlt) as (raw & _ & ->).
    cbn [mbind result_bind]. do 2 eexists. split; [reflexivity|].
    right. by eexists.
  - do 2 eexists. split; [reflexivity|]. by left.
Qed.

(** The test of the contact loop never raises; a line that is not
    contact-like passes it only while fewer than three lines are
    collected and no section is open. *)
Lemma absorbs_contact_ok line contact_lines cur :
  exists b : bool,
    absorbs_contact line contact_lines cur = Ok b
    /\ (b = true ->
        _is_contact_line line = true
        \/ (length contact_lines < 3 /\ cur = None)).
Proof.
  unfold absorbs_contact. destruct (_is_contact_line line).
  - exists true. split; [reflexivity|]. by left.
  - rewrite _is_section_header_eq, _is_bullet_eq. cbn [mbind result_bind].
    destruct (negb _ && (length contact_lines <? 3)) eqn:E.
    + cbn [mbind result_bind]. eexists. split; [reflexivity|].
      intros H. right. apply andb_true_iff in E as [_ E].
      apply Nat.ltb_lt in E. split; [exact E|].
      apply andb_true_iff in H as [_ H]. apply negb_true_iff in H.
      destruct cur; [|done]. rewrite bool_decide_true in H; [done|by eexists].
    + exists false. split; [reflexivity|discriminate].
Qed.

Lemma late_lines_snoc contact_lines line :
  late_lines_contact_like contact_lines ->
  (_is_contact_line line = true \/ length contact_lines < 3) ->
  late_lines_contact_like (contact_lines ++ [line]).
Proof.
  intros Hlate Hline i l Hl Hi.
  destruct (decide (i < length contact_lines)) as [Hlt|Hge].
  - rewrite lookup_app_l in Hl by exact Hlt. by eapply Hlate.
  - rewrite lookup_app_r in Hl by lia.
    destruct (i - length contact_lines) eqn:E; [|by destruct n].
    injection Hl as <-. destruct Hline as [H|H]; [exact H|lia].
Qed.

(** The contact loop ends; it extends [contact_lines] by stripped lines
    of the text taken in order between [idx] and the index it returns. *)
Lemma collect_contact_lines_ok fuel lines idx contact_lines cur :
  length lines - idx < fuel ->
  exists extra idx',
    collect_contact_lines fuel lines idx contact_lines cur
      = Ok (contact_lines ++ extra, idx')
    /\ idx <= idx'
    /\ extra `sublist_of` (strip <$> take (idx' - idx) (drop idx lines))
    /\ (late_lines_contact_like contact_lines ->
        late_lines_contact_like (contact_lines ++ extra)).
Proof.
  revert idx contact_lines.
  induction fuel as [|fuel IH]; intros idx contact_lines Hfuel; [lia|].
  cbn [collect_contact_lines]. destruct (idx <? length lines) eqn:Hlt.
  - apply Nat.ltb_lt in Hlt.
    destruct (getitem_lt lines idx Hlt) as (raw & Hraw & ->).
    cbn [mbind result_bind].
    assert (Hdrop : forall idx', idx + 1 <= idx' ->
              strip <$> take (idx' - idx) (drop idx lines)
              = strip raw :: (strip <$> take (idx' - (idx + 1))
                                             (drop (idx + 1) lines))).
    { intros idx' Hle. rewrite (drop_S _ _ _ Hraw).
      replace (idx' - idx) with (S (idx' - (idx + 1))) by lia.
      by replace (idx + 1) with (S idx) by lia. }
    destruct (negb (nonempty (strip raw))).
    + destruct (IH (idx + 1) contact_lines)
        as (extra & idx' & -> & Hle & Hsub & Hlate); [lia|].
      exists extra, idx'. split; [reflexivity|]. split; [lia|].
      split; [|exact Hlate]. rewrite (Hdrop idx' Hle). by apply sublist_cons.
    + destruct (absorbs_contact_ok (strip raw) contact_lines cur)
        as (b & -> & Hb).
      cbn [mbind result_bind]. destruct b.
      * destruct (IH (idx + 1) (contact_lines ++ [strip raw]))
          as (extra & idx' & -> & Hle & Hsub & Hlate); [lia|].
        exists (strip raw :: extra), idx'.
        split; [by rewrite <- app_assoc|]. split; [lia|]. split.
        -- rewrite (Hdrop idx' Hle). by apply sublist_skip.
        -- intros H.
           rewrite (app_assoc _ [strip raw] extra
                    : contact_lines ++ strip raw :: extra = _).
           apply Hlate, late_lines_snoc; [exact H|].
           destruct (Hb eq_refl) as [Hc|[Hc _]]; [by left|by right].
      * exists [], idx. rewrite app_nil_r. split; [reflexivity|].
        split; [lia|]. split; [apply sublist_nil_l|done].
  - exists [], idx. rewrite app_nil_r. split; [reflexivity|].
    split; [lia|]. split; [apply sublist_nil_l|done].
Qed.

End Parser.

(** ** The parser as a whole *)

Section Document.

Lemma late_lines_count (n : nat) (contact_lines : list str) :
  (forall i l, contact_lines !! i = Some l -> n <= i ->
               _is_contact_line l = true) ->
  length (filter (fun l => _is_contact_line l = false) contact_lines) <= n.
Proof.
  revert n. induction contact_lines as [|a cl IH]; intros n H.
  - simpl. lia.
  - rewrite filter_cons. destruct n as [|n].
    + rewrite decide_False.
      * apply IH. intros i l Hl _. apply (H (S i) l Hl). lia.
      * rewrite (H 0 a eq_refl) by lia. discriminate.
    + assert (Hcl : length (filter (fun l => _is_contact_line l = false) cl)
                    <= n).
      { apply IH. intros i l Hl Hi. apply (H (S i) l Hl). lia. }
      destruct (decide _); simpl; lia.
Qed.

(** The shape of the document: the name, the contact block, then sections
    only. *)
Lemma parse_lines_structure (fuel : nat) (lines : list str) :
  length lines < fuel ->
  exists name_part idx0 contact_lines idx1 secs,
    take_name fuel lines [] = Ok (name_part, idx0)
    /\ collect_contact_lines fuel lines idx0 [] None
       = Ok (contact_lines, idx1)
    /\ parse_lines fuel lines
       = Ok (name_part ++ contact_block contact_lines ++ secs)
    /\ (name_part = [] \/ exists name, name_part = [NameBlock name])
    /\ Forall (fun b => is_section b = true) secs
    /\ contact_lines
         `sublist_of` (strip <$> take (idx1 - idx0) (drop idx0 lines))
    /\ late_lines_contact_like contact_lines.
Proof.
  intros Hfuel.
  destruct (take_name_ok fuel lines Hfuel)
    as (name_part & idx0 & Htake & Hname).
  destruct (collect_contact_lines_ok fuel lines idx0 [] None)
    as (contact_lines & idx1 & Hcollect & _ & Hsub & Hlate); [lia|].
  rewrite app_nil_l in Hcollect, Hlate.
  destruct (process_rest_inv (name_part ++ contact_block contact_lines)
              fuel lines idx1
              (name_part ++ contact_block contact_lines, None))
    as (st & Hrest & Hinv); [lia|by left|].
  assert (Hparse : parse_lines fuel lines = Ok st.1).
  { unfold parse_lines. rewrite Htake. cbn [mbind result_bind].
    rewrite Hcollect. cbn [mbind result_bind]. rewrite Hrest.
    by destruct st. }
  assert (Hst : exists secs,
             st.1 = name_part ++ contact_block contact_lines ++ secs
             /\ Forall (fun b => is_section b = true) secs).
  { destruct Hinv as [->|(secs & t & its & Hsecs & ->)].
    - exists []. split; [cbn [fst]; rewrite app_nil_r; reflexivity|constructor].
    - exists (secs ++ [SectionBlock t its]). split.
      + cbn [fst]. by rewrite <- app_assoc.
      + apply Forall_app. split; [exact Hsecs|]. by constructor. }
  destruct Hst as (secs & Hst & Hsecs).
  exists name_part, idx0, contact_lines, idx1, secs.
  rewrite Hparse, Hst. repeat split; auto.
  apply Hlate. intros i l Hl. discriminate.
Qed.

(** C1 (amended). The contact block is made of stripped lines that follow
    the name line, collected before any line of a section is processed, and
    every block after it is a section. A line that is not contact-like (no
    "@", no contact keyword, no telephone number) is collected only among
    the first three: at most three such lines are merged. Contact-like lines
    are collected with no bound. *)
Theorem contact_absorption (text : str) :
  let lines := split LF text in
  let fuel := S (length lines) in
  exists name_part idx0 contact_lines idx1 secs,
    take_name fuel lines [] = Ok (name_part, idx0)
    /\ collect_contact_lines fuel lines idx0 [] None
       = Ok (contact_lines, idx1)
    /\ _parse_resume_sections text
       = Ok (name_part ++ contact_block contact_lines ++ secs)
    /\ Forall (fun b => is_section b = false)
              (name_part ++ contact_block contact_lines)
    /\ Forall (fun b => is_section b = true) secs
    /\ contact_lines
         `sublist_of` (strip <$> take (idx1 - idx0) (drop idx0 lines))
    /\ (forall i l, contact_lines !! i = Some l -> 3 <= i ->
                    _is_contact_line l = true)
    /\ length (filter (fun l => _is_contact_line l = false) contact_lines)
       <= 3.
Proof.
  intros lines fuel.
  destruct (parse_lines_structure fuel lines)
    as (name_part & idx0 & cl & idx1 & secs & H1 & H2 & H3 & H4 & H5 & H6 & H7);
    [unfold fuel; lia|].
  exists name_part, idx0, cl, idx1, secs.
  repeat split; auto.
  - apply Forall_app. split.
    + destruct H4 as [->|[name ->]]; repeat constructor.
    + unfold contact_block. destruct (nonempty cl); repeat constructor.
  - by apply late_lines_count.
Qed.

(** C1 (as stated) fails on a name followed by four lines with an e-mail
    address: the four lines are merged into the contact block. *)
Lemma contact_absorption_unbounded :
  _parse_resume_sections resume_four_addresses
    = Ok [NameBlock (py "A");
          ContactBlock
            (join (py " | ") [py "a@b"; py "c@d"; py "e@f"; py "g@h"])]
  /\ collect_contact_lines 6 (split LF resume_four_addresses) 1 [] None
     = Ok ([py "a@b"; py "c@d"; py "e@f"; py "g@h"], 5)
  /\ ~ length [py "a@b"; py "c@d"; py "e@f"; py "g@h"] <= 3.
Proof. vm_compute. repeat split. lia. Qed.

(** C5. The parser ends without raising on every text, and the empty text
    yields the empty document. *)
Theorem parser_total :
  (forall text : str, exists doc, _parse_resume_sections text = Ok doc)
  /\ _parse_resume_sections [] = Ok [].
Proof.
  split; [|reflexivity].
  intros text. unfold _parse_resume_sections.
  destruct (parse_lines_structure (S (length (split LF text))) (split LF text))
    as (name_part & idx0 & cl & idx1 & secs & _ & _ & H & _); [lia|].
  by eexists.
Qed.

(** C7 (amended). A line that is marked as a header, has a colon and more
    than 10 characters of text after it opens a section whose title is the
    text before the colon and whose first item is the paragraph made of
    the text after it. *)
Theorem header_with_inline_content
    (line : str) (sections : list Block) (current_section : option nat) :
  _is_section_header line = Ok true ->
  contains (strip line) (py ":") = true ->
  10 < length (line_inline_content line) ->
  process_line line (sections, current_section)
  = Ok (sections
          ++ [SectionBlock (line_title line)
                [Paragraph (line_inline_content line)]],
        Some (length sections)).
Proof.
  intros Hh Hc Hlen. unfold process_line. rewrite Hh.
  cbn [mbind result_bind]. rewrite _extract_section_title_eq, Hc.
  apply Nat.ltb_lt in Hlen. rewrite Hlen. cbn [andb mbind result_bind].
  destruct (line_inline_content line) eqn:E; [discriminate|].
  cbn [nonempty]. apply open_section_eq.
Qed.

Lemma header_with_inline_content_witness :
  process_line skills_line_pt ([NameBlock (py "Jane Roe")], None)
  = Ok ([NameBlock (py "Jane Roe")]
          ++ [SectionBlock (line_title skills_line_pt)
                [Paragraph (line_inline_content skills_line_pt)]],
        Some (length [NameBlock (py "Jane Roe")]))
  /\ line_title skills_line_pt = py "Habilidades"
  /\ line_inline_content skills_line_pt = skills_inline.
Proof.
  split; [|split; vm_compute; reflexivity].
  apply (header_with_inline_content skills_line_pt
           [NameBlock (py "Jane Roe")] None).
  - vm_compute. reflexivity.
  - vm_compute. reflexivity.
  - vm_compute. lia.
Defined.

(** C7 (as stated) fails: the line "Skills: Python, Go, Rust, C++, Java" is
    not marked as a header. As the only line it is the name; after a name it
    is absorbed as a contact line; in the body it is a paragraph. *)
Lemma english_skills_line_is_not_a_header :
  _is_section_header skills_line_en = Ok false
  /\ process_line skills_line_en ([], None)
     = Ok ([SectionBlock [] [Paragraph skills_line_en]], Some 0)
  /\ process_line skills_line_en ([], None)
     ≠ Ok ([SectionBlock (py "Skills") [Paragraph skills_inline]], Some 0)
  /\ _parse_resume_sections skills_line_en = Ok [NameBlock skills_line_en]
  /\ _parse_resume_sections
       (text_of ["Jane Roe"; "Skills: Python, Go, Rust, C++, Java"]%string)
     = Ok [NameBlock (py "Jane Roe"); ContactBlock skills_line_en]
  /\ _parse_resume_sections
       (text_of ["Jane Roe"; "jane@mail.com"; "EXPERIENCE";
                 "Skills: Python, Go, Rust, C++, Java"]%string)
     = Ok [NameBlock (py "Jane Roe"); ContactBlock (py "jane@mail.com");
           SectionBlock (py "EXPERIENCE") [Paragraph skills_line_en]].
Proof. vm_compute. repeat split. discriminate. Qed.

End Document.

(** * Further properties

    ** The sanitizer *)

Section SanitizerFacts.

Lemma is_key_replaced (c : char) :
  is_key c = true <-> c ∈ replaced_characters.
Proof.
  unfold is_key, replaced_characters. rewrite existsb_exists. split.
  - intros [[old new] [Hin Hc]]. apply N.eqb_eq in Hc as ->.
    apply list_elem_of_fmap. exists (old, new).
    split; [reflexivity|by apply list_elem_of_In].
  - intros H. apply list_elem_of_fmap in H as [[old new] [-> Hin]].
    exists (old, new). split; [by apply list_elem_of_In|apply N.eqb_refl].
Qed.

(** X1. A sanitized text holds none of the characters of the replacement
    table. *)
Theorem sanitized_text_has_no_replaced_character (text : str) (c : char) :
  c ∈ _sanitize_text text -> c ∉ replaced_characters.
Proof.
  intros Hc Hk. apply is_key_replaced in Hk.
  pose proof (sanitize_key_free text) as H. unfold key_free in H.
  rewrite Forall_forall in H. rewrite (H c Hc) in Hk. discriminate.
Qed.

Lemma sanitized_text_has_no_replaced_character_witness :
  0x2D%N ∈ _sanitize_text [0x2022; 0x20; 0x61]%N
  /\ 0x2D%N ∉ replaced_characters.
Proof.
  assert (H : 0x2D%N ∈ _sanitize_text [0x2022; 0x20; 0x61]%N)
    by (vm_compute; left).
  split; [exact H|].
  exact (sanitized_text_has_no_replaced_character _ _ H).
Defined.

Lemma replace_all_lookup table c :
  table ⊆ replacements ->
  replace_all table [c] = lookup_replacement table c.
Proof.
  induction table as [|[old new] table IH]; intros Hsub; [reflexivity|].
  assert (Hsub' : table ⊆ replacements).
  { intros x Hx. apply Hsub. by right. }
  assert (Hin : (old, new) ∈ replacements) by (apply Hsub; left).
  cbn [replace_all fold_left lookup_replacement].
  change (replace old new [c])
    with ((if (c =? old)%N then new else [c]) ++ []).
  rewrite app_nil_r. destruct (c =? old)%N.
  - apply (replace_all_key_free table new Hsub').
    by eapply value_key_free.
  - by apply IH.
Qed.

Lemma sanitize_flat_map (text : str) :
  _sanitize_text text = flat_map replacement_of text.
Proof.
  induction text as [|c text IH].
  - apply replace_all_nil.
  - change (_sanitize_text (c :: text))
      with (replace_all replacements (c :: text)).
    rewrite replace_all_cons. cbn [flat_map]. f_equal.
    + by apply replace_all_lookup.
    + exact IH.
Qed.

(** X2. The replacements applied one after the other amount to one
    substitution applied to every character at once: no replacement
    rewrites the output of another. *)
Theorem sanitize_is_simultaneous (text : str) :
  _sanitize_text text = flat_map replacement_of text.
Proof. apply sanitize_flat_map. Qed.

(** X4. The sanitizer leaves a text unchanged exactly when the text holds
    none of the characters of the table. *)
Theorem sanitize_fixes_clean_texts (text : str) :
  _sanitize_text text = text
  <-> Forall (fun c => c ∉ replaced_characters) text.
Proof.
  assert (Hk : forall s, key_free s
                         <-> Forall (fun c => c ∉ replaced_characters) s).
  { intros s. unfold key_free. apply Forall_iff. intros c.
    rewrite <- is_key_replaced. by destruct (is_key c). }
  rewrite <- Hk. split.
  - intros H. rewrite <- H. apply sanitize_key_free.
  - apply (replace_all_key_free replacements). done.
Qed.

Lemma split_nonempty (sep : char) (s : str) : split sep s ≠ [].
Proof.
  induction s as [|c s IH]; cbn [split]; [done|].
  destruct (c =? sep)%N; [done|]. by destruct (split sep s).
Qed.

Lemma split_app_no_sep (sep : char) (a b : str) :
  Forall (fun c => c ≠ sep) a ->
  split sep (a ++ b)
  = match split sep b with
    | [] => [a]
    | w :: ws => (a ++ w) :: ws
    end.
Proof.
  induction 1 as [|c a Hc Ha IH]; cbn [app split].
  - pose proof (split_nonempty sep b). by destruct (split sep b).
  - apply N.eqb_neq in Hc. rewrite Hc, IH. by destruct (split sep b).
Qed.

Lemma replacement_of_line_feed (c : char) :
  if (c =? LF)%N then replacement_of c = [LF]
  else Forall (fun x => x ≠ LF) (replacement_of c).
Proof.
  destruct (c =? LF)%N eqn:E.
  - apply N.eqb_eq in E as ->. reflexivity.
  - apply N.eqb_neq in E. unfold replacement_of.
    assert (Hv : forallb (fun '(_, new) =>
                   forallb (fun x => negb (x =? LF)%N) new) replacements
                 = true) by (vm_compute; reflexivity).
    revert Hv. generalize replacements. intros table.
    induction table as [|[old new] table IH]; cbn [forallb lookup_replacement].
    + intros _. by constructor.
    + intros Hv. apply andb_true_iff in Hv as [Hnew Hv].
      destruct (c =? old)%N; [|by apply IH].
      rewrite forallb_forall in Hnew. apply Forall_forall. intros x Hx.
      apply list_elem_of_In in Hx. specialize (Hnew x Hx).
      apply negb_true_iff in Hnew. by apply N.eqb_neq.
Qed.

(** X3. The sanitizer keeps the lines of a text apart: the lines of the
    sanitized text are the sanitized lines of the text. *)
Theorem sanitize_preserves_lines (text : str) :
  split LF (_sanitize_text text) = _sanitize_text <$> split LF text.
Proof.
  rewrite sanitize_flat_map.
  induction text as [|c text IH]; [reflexivity|].
  cbn [flat_map split]. pose proof (replacement_of_line_feed c) as Hc.
  destruct (c =? LF)%N.
  - rewrite Hc. cbn [app split]. rewrite N.eqb_refl, IH. reflexivity.
  - rewrite (split_app_no_sep LF _ _ Hc), IH.
    pose proof (split_nonempty LF text) as Hne.
    destruct (split LF text) as [|w ws]; [done|].
    cbn [fmap list_fmap]. f_equal.
    rewrite !sanitize_flat_map. reflexivity.
Qed.

End SanitizerFacts.

(** ** The parsing helpers *)

Section HelperFacts.

Lemma lstrip_with_nil (p : char -> bool) (s : str) :
  lstrip_with p s = [] -> Forall (fun c => p c = true) s.
Proof.
  induction s as [|c s IH]; cbn [lstrip_with]; [by constructor|].
  destruct (p c) eqn:E; [|discriminate]. intros H. constructor; auto.
Qed.

Lemma rstrip_with_nil (p : char -> bool) (s : str) :
  rstrip_with p s = [] -> Forall (fun c => p c = true) s.
Proof.
  unfold rstrip_with. intros H.
  assert (H' : lstrip_with p (rev s) = []).
  { rewrite <- (rev_involutive (lstrip_with p (rev s))), H. reflexivity. }
  apply lstrip_with_nil in H'. rewrite <- (rev_involutive s).
  by apply Forall_rev.
Qed.

(** X5. A line that is marked as a header gives its section a non-empty
    title, and inline content that is empty or longer than 10
    characters. *)
Theorem header_title_nonempty (line title inline : str) :
  _is_section_header line = Ok true ->
  _extract_section_title line = Ok (title, inline) ->
  title ≠ [] /\ (inline = [] \/ 10 < length inline).
Proof.
  rewrite _is_section_header_eq, _extract_section_title_eq.
  intros Hh He. injection Hh as Hh. unfold title_is_header in Hh.
  apply andb_true_iff in Hh as [Hne _].
  destruct (contains (strip line) (py ":")
            && (10 <? length (line_inline_content line))) eqn:E;
    injection He as <- <-.
  - split; [by destruct (line_title line)|].
    right. apply andb_true_iff in E as [_ E]. by apply Nat.ltb_lt.
  - split; [|by left]. intros Hnil. apply rstrip_with_nil in Hnil.
    unfold line_title in Hne.
    destruct (strip line) as [|c s] eqn:Hs; [discriminate|].
    apply Forall_cons in Hnil as [Hc _].
    change ((c =? COLON)%N || false = true) in Hc.
    rewrite orb_false_r in Hc. cbn [before_colon] in Hne.
    rewrite Hc in Hne. discriminate.
Qed.

Lemma header_title_nonempty_witness :
  _is_section_header (py "EXPERIENCE:") = Ok true
  /\ _extract_section_title (py "EXPERIENCE:") = Ok (py "EXPERIENCE", [])
  /\ py "EXPERIENCE" ≠ []
  /\ (@nil char = [] \/ 10 < length (@nil char)).
Proof.
  assert (H1 : _is_section_header (py "EXPERIENCE:") = Ok true)
    by (vm_compute; reflexivity).
  assert (H2 : _extract_section_title (py "EXPERIENCE:")
               = Ok (py "EXPERIENCE", []))
    by (vm_compute; reflexivity).
  split; [exact H1|]. split; [exact H2|].
  exact (header_title_nonempty _ _ _ H1 H2).
Defined.

Ltac in_table :=
  apply list_elem_of_In; repeat (first [left; reflexivity | right]).

(** X6. On a sanitized line the only bullet markers left are "-" and "*":
    the line is a bullet exactly when its first character, white space
    apart, is one of the two. *)
Theorem sanitized_bullet_markers (line : str) :
  _is_bullet (_sanitize_text line)
  = Ok (starts_with_dash_or_star (strip (_sanitize_text line))).
Proof.
  rewrite _is_bullet_eq. f_equal.
  pose proof (Forall_strip _ _ (sanitize_key_free line)) as Hk.
  destruct (strip (_sanitize_text line)) as [|c s]; [reflexivity|].
  apply Forall_cons in Hk as [Hc _]. cbn [starts_with_dash_or_star].
  assert (Hkey : forall old new, (old, new) ∈ replacements ->
                                 (c =? old)%N = false).
  { intros old new Hin. by eapply is_key_of_entry. }
  unfold char_in, bullet_markers. cbn [existsb].
  rewrite (Hkey 0x2022%N (py "-")) by in_table.
  rewrite (Hkey 0x2013%N (py "-")) by in_table.
  rewrite (Hkey 0x2014%N (py "-")) by in_table.
  rewrite (Hkey 0x25BA%N (py "-")) by in_table.
  rewrite (Hkey 0x25AA%N (py "-")) by in_table.
  rewrite (Hkey 0x25CF%N (py "-")) by in_table.
  by destruct (c =? 0x2D)%N, (c =? 0x2A)%N.
Qed.

End HelperFacts.

(** ** Contact detection *)

Section ContactFacts.

Lemma lower_from_app (before a b : str) :
  exists a', lower_from before (a ++ b)
             = a' ++ lower_from (rev a ++ before) b.
Proof.
  revert before. induction a as [|c a IH]; intros before.
  - by exists [].
  - cbn [app lower_from]. destruct (IH (c :: before)) as [a' ->].
    eexists. rewrite app_assoc. f_equal.
    cbn [rev]. by rewrite <- app_assoc.
Qed.

Lemma lower_from_word (before w kw q : str) :
  lowers_to w kw ->
  Forall (fun k => k ≠ 0x3C3%N) kw ->
  lower_from before (w ++ q) = kw ++ lower_from (rev w ++ before) q.
Proof.
  intros Hw. revert before.
  induction Hw as [|c k w kw Hc Hw IH]; intros before Hkw; [reflexivity|].
  apply Forall_cons in Hkw as [Hk Hkw].
  cbn [app lower_from]. rewrite IH by exact Hkw.
  assert (Hlow : (if (c =? 0x3A3)%N
                  then [handle_capital_sigma before (w ++ q)]
                  else _PyUnicode_ToLowerFull c) = [k]).
  { unfold lower in Hc. cbn [lower_from] in Hc. rewrite app_nil_r in Hc.
    destruct (c =? 0x3A3)%N; [|exact Hc].
    exfalso. apply Hk. vm_compute in Hc. by injection Hc. }
  rewrite Hlow. cbn [app rev]. by rewrite <- app_assoc.
Qed.

(** X7. A line in which a contact keyword occurs, in any mix of upper and
    lower case, is a contact line. *)
Theorem keyword_in_any_case_is_contact (line w kw : str) :
  kw ∈ contact_keywords ->
  lowers_to w kw ->
  occurs_in w line ->
  _is_contact_line line = true.
Proof.
  intros Hkw Hw (p & q & ->). unfold _is_contact_line.
  apply orb_true_iff. left. apply existsb_exists. exists kw.
  split; [by apply list_elem_of_In|]. apply contains_spec.
  unfold lower. destruct (lower_from_app [] p (w ++ q)) as [p' ->].
  rewrite (lower_from_word _ w kw q Hw).
  - by exists p', (lower_from (rev w ++ rev p ++ []) q).
  - assert (Hall : forallb (forallb (fun k => negb (k =? 0x3C3)%N))
                           contact_keywords = true)
      by (vm_compute; reflexivity).
    rewrite forallb_forall in Hall. apply list_elem_of_In in Hkw.
    specialize (Hall kw Hkw). rewrite forallb_forall in Hall.
    apply Forall_forall. intros k Hk. apply list_elem_of_In in Hk.
    specialize (Hall k Hk). apply negb_true_iff in Hall.
    by apply N.eqb_neq.
Qed.

Lemma keyword_in_any_case_is_contact_witness :
  py "linkedin" ∈ contact_keywords
  /\ lowers_to (py "LinkedIn") (py "linkedin")
  /\ occurs_in (py "LinkedIn") (py "Meu LinkedIn: joao")
  /\ _is_contact_line (py "Meu LinkedIn: joao") = true.
Proof.
  assert (H1 : py "linkedin" ∈ contact_keywords)
    by (apply list_elem_of_In; right; left; reflexivity).
  assert (H2 : lowers_to (py "LinkedIn") (py "linkedin"))
    by (repeat constructor).
  assert (H3 : occurs_in (py "LinkedIn") (py "Meu LinkedIn: joao"))
    by (by exists (py "Meu "), (py ": joao")).
  split; [exact H1|]. split; [exact H2|]. split; [exact H3|].
  exact (keyword_in_any_case_is_contact _ _ _ H1 H2 H3).
Defined.

Lemma re_search_spec (ignorecase : bool) (pat : regex) (s : str) :
  re_search ignorecase pat s = true
  <-> exists p m q, s = p ++ m ++ q /\ Matches ignorecase pat m.
Proof.
  induction s as [|c s IH]; cbn [re_search].
  - rewrite orb_false_r, re_match_spec. split.
    + intros (m & q & Hs & Hm). by exists [], m, q.
    + intros (p & m & q & Hs & Hm). symmetry in Hs.
      apply app_eq_nil in Hs as [-> Hs].
      apply app_eq_nil in Hs as [-> ->]. by exists [], [].
  - rewrite orb_true_iff, re_match_spec, IH. split.
    + intros [(m & q & Hs & Hm)|(p & m & q & -> & Hm)].
      * by exists [], m, q.
      * by exists (c :: p), m, q.
    + intros (p & m & q & Hs & Hm). destruct p as [|c' p].
      * left. by exists m, q.
      * injection Hs as -> ->. right. by exists p, m, q.
Qed.

Lemma Matches_spaces (ws : str) :
  Matches false space_star ws
  <-> Forall (fun c => Py_UNICODE_ISSPACE c = true) ws.
Proof.
  unfold space_star. split.
  - intros H. remember (Star (Atom CategorySpace)) as r eqn:Hr.
    induction H as [| | | | | |r0 s1 s2 H1 _ H2 IH2]; try discriminate.
    + constructor.
    + injection Hr as ->. apply Forall_app. split; [|by apply IH2].
      apply Matches_Atom_inv in H1 as (ch & -> & Hch).
      by repeat constructor.
  - induction 1 as [|c ws Hc Hws IH]; [constructor|].
    apply (MStarApp false _ [c] ws); [by constructor|exact IH].
Qed.

Lemma Matches_digit (s : str) :
  Matches false (Atom CategoryDigit) s
  <-> exists d, s = [d] /\ Py_UNICODE_ISDECIMAL d = true.
Proof.
  split.
  - apply Matches_Atom_inv.
  - intros (d & -> & Hd). by constructor.
Qed.

Lemma Matches_literal (c : char) (s : str) :
  Matches false (Atom (Literal c)) s <-> s = [c].
Proof.
  split.
  - intros H. apply Matches_Atom_inv in H as (ch & -> & Hch).
    cbn in Hch. by apply N.eqb_eq in Hch as ->.
  - intros ->. constructor. cbn. apply N.eqb_refl.
Qed.

(** The words of the telephone pattern: a telephone number, possibly
    followed by a fifth digit. *)
Lemma Matches_phone_pattern (m : str) :
  Matches false phone_pattern m
  <-> exists m0 tl, m = m0 ++ tl /\ phone_number m0
                    /\ (tl = [] \/ exists d, tl = [d]
                                   /\ Py_UNICODE_ISDECIMAL d = true).
Proof.
  unfold phone_pattern. cbn [seq repeat_re Opt]. split.
  - intros H.
    apply Matches_Cat_inv in H as (s1 & r1 & -> & H1 & H).
    apply Matches_literal in H1 as ->.
    apply Matches_Cat_inv in H as (s2 & r2 & -> & H2 & H).
    apply Matches_Cat_inv in H2 as (a1 & a2 & -> & Ha1 & Ha2).
    apply Matches_digit in Ha1 as (d1 & -> & Hd1).
    apply Matches_digit in Ha2 as (d2 & -> & Hd2).
    apply Matches_Cat_inv in H as (s3 & r3 & -> & H3 & H).
    apply Matches_literal in H3 as ->.
    apply Matches_Cat_inv in H as (ws & r4 & -> & Hws & H).
    apply Matches_spaces in Hws.
    apply Matches_Cat_inv in H as (s5 & tl & -> & H5 & Htl).
    apply Matches_Cat_inv in H5 as (b1 & r5 & -> & Hb1 & H5).
    apply Matches_Cat_inv in H5 as (b2 & r6 & -> & Hb2 & H5).
    apply Matches_Cat_inv in H5 as (b3 & b4 & -> & Hb3 & Hb4).
    apply Matches_digit in Hb1 as (e1 & -> & He1).
    apply Matches_digit in Hb2 as (e2 & -> & He2).
    apply Matches_digit in Hb3 as (e3 & -> & He3).
    apply Matches_digit in Hb4 as (e4 & -> & He4).
    exists ([0x28%N; d1; d2; 0x29%N] ++ ws ++ [e1; e2; e3; e4]), tl.
    split; [|split].
    + cbn [app]. rewrite <- !app_assoc. reflexivity.
    + exists d1, d2, ws, [e1; e2; e3; e4]. by repeat constructor.
    + apply Matches_Alt_inv in Htl as [Htl|Htl].
      * right. by apply Matches_digit.
      * left. by apply Matches_Eps_inv in Htl.
  - intros (m0 & tl & -> & (d1 & d2 & ws & ds & -> & Hd1 & Hd2 & Hws & Hlen
                            & Hds) & Htl).
    destruct ds as [|e1 [|e2 [|e3 [|e4 [|? ?]]]]]; try discriminate.
    apply Forall_cons in Hds as [He1 Hds].
    apply Forall_cons in Hds as [He2 Hds].
    apply Forall_cons in Hds as [He3 Hds].
    apply Forall_cons in Hds as [He4 _].
    assert (Hd : forall d, Py_UNICODE_ISDECIMAL d = true ->
                           Matches false (Atom CategoryDigit) [d])
      by (intros d Hd; by constructor).
    change (([0x28%N; d1; d2; 0x29%N] ++ ws ++ [e1; e2; e3; e4]) ++ tl)
      with ([0x28%N] ++ ([d1] ++ [d2]) ++ ([0x29%N] ++ ws ++ [e1; e2; e3; e4])
            ++ tl).
    rewrite <- !app_assoc.
    constructor; [by apply Matches_literal|].
    rewrite (app_assoc [d1] [d2]).
    constructor; [constructor; by apply Hd|].
    constructor; [by apply Matches_literal|].
    constructor; [by apply Matches_spaces|].
    change ([e1; e2; e3; e4] ++ tl)
      with (([e1] ++ [e2] ++ [e3] ++ [e4]) ++ tl).
    constructor.
    + repeat (constructor; [by apply Hd|]). by apply Hd.
    + destruct Htl as [->|(d & -> & Hd5)].
      * apply MAltR. constructor.
      * apply MAltL. by apply Hd.
Qed.

(** X8. A line is a contact line exactly when one of the contact keywords
    occurs in the lowercased line, or a telephone number -- "(", two
    digits, ")", optional white space, four digits -- occurs in the
    line. *)
Theorem contact_line_spec (line : str) :
  _is_contact_line line = true
  <-> (exists kw, kw ∈ contact_keywords /\ occurs_in kw (lower line))
      \/ (exists p m q, line = p ++ m ++ q /\ phone_number m).
Proof.
  unfold _is_contact_line.
  rewrite orb_true_iff, existsb_exists, re_search_spec.
  assert (A1 : (exists x, In x contact_keywords
                          /\ contains (lower line) x = true)
               <-> exists kw, kw ∈ contact_keywords
                              /\ occurs_in kw (lower line)).
  { split; intros (kw & Hin & Hc); exists kw.
    + split; [by apply list_elem_of_In|by apply contains_spec].
    + split; [by apply list_elem_of_In|by apply contains_spec]. }
  assert (A2 : (exists p m q, line = p ++ m ++ q
                              /\ Matches false phone_pattern m)
               <-> exists p m q, line = p ++ m ++ q /\ phone_number m).
  { split.
    + intros (p & m & q & -> & Hm).
      apply Matches_phone_pattern in Hm as (m0 & tl & -> & Hm0 & _).
      exists p, m0, (tl ++ q). split; [|exact Hm0].
      by rewrite <- !app_assoc.
    + intros (p & m & q & -> & Hm). exists p, m, q. split; [reflexivity|].
      apply Matches_phone_pattern. exists m, []. rewrite app_nil_r.
      split; [reflexivity|]. split; [exact Hm|by left]. }
  tauto.
Qed.

End ContactFacts.

(** ** The parser as a function of the stripped non-empty lines *)

Section ParserFunction.

Lemma content_lines_cons (raw : str) (lines : list str) :
  content_lines (raw :: lines)
  = (if nonempty (strip raw) then [strip raw] else []) ++ content_lines lines.
Proof.
  unfold content_lines. cbn [fmap list_fmap]. rewrite filter_cons.
  destruct (nonempty (strip raw)) eqn:E.
  - by rewrite decide_True.
  - by rewrite decide_False.
Qed.

Lemma content_lines_drop (lines : list str) (idx : nat) (raw : str) :
  lines !! idx = Some raw ->
  content_lines (drop idx lines)
  = (if nonempty (strip raw) then [strip raw] else [])
    ++ content_lines (drop (S idx) lines).
Proof.
  intros H. rewrite (drop_S _ _ _ H). apply content_lines_cons.
Qed.

Lemma content_lines_drop_ge (lines : list str) (idx : nat) :
  length lines <= idx -> content_lines (drop idx lines) = [].
Proof. intros H. by rewrite drop_ge. Qed.

Lemma skip_blank_lines_content fuel lines idx :
  length lines - idx < fuel ->
  exists idx',
    skip_blank_lines fuel lines idx = Ok idx'
    /\ content_lines (drop idx' lines) = content_lines (drop idx lines)
    /\ (idx' < length lines ->
        exists raw, lines !! idx' = Some raw
                    /\ nonempty (strip raw) = true).
Proof.
  revert idx. induction fuel as [|fuel IH]; intros idx Hfuel; [lia|].
  cbn [skip_blank_lines]. destruct (idx <? length lines) eqn:Hlt.
  - apply Nat.ltb_lt in Hlt.
    destruct (getitem_lt lines idx Hlt) as (raw & Hraw & ->).
    cbn [mbind result_bind].
    destruct (nonempty (strip raw)) eqn:E; cbn [negb].
    + exists idx. repeat split. intros _. by exists raw.
    + destruct (IH (idx + 1)) as (idx' & -> & Hc & Hraw'); [lia|].
      exists idx'. split; [reflexivity|]. split; [|exact Hraw'].
      rewrite Hc, (content_lines_drop _ _ _ Hraw), E.
      by replace (idx + 1) with (S idx) by lia.
  - apply Nat.ltb_ge in Hlt. exists idx. repeat split. lia.
Qed.

Lemma take_name_content fuel lines :
  length lines < fuel ->
  exists idx,
    take_name fuel lines []
    = Ok (match content_lines lines with
          | [] => []
          | name :: _ => [NameBlock name]
          end, idx)
    /\ content_lines (drop idx lines) = tail (content_lines lines).
Proof.
  intros Hfuel. unfold take_name.
  destruct (skip_blank_lines_content fuel lines 0)
    as (idx & -> & Hc & Hraw); [lia|].
  rewrite drop_0 in Hc. cbn [mbind result_bind].
  destruct (idx <? length lines) eqn:Hlt.
  - apply Nat.ltb_lt in Hlt. destruct (Hraw Hlt) as (raw & Hl & Hne).
    unfold getitem. rewrite Hl. cbn [mbind result_bind].
    rewrite (content_lines_drop _ _ _ Hl), Hne in Hc. rewrite <- Hc.
    exists (idx + 1). split; [reflexivity|].
    by replace (idx + 1) with (S idx) by lia.
  - apply Nat.ltb_ge in Hlt.
    rewrite (content_lines_drop_ge _ _ Hlt) in Hc. rewrite <- Hc.
    exists idx. split; [reflexivity|]. by apply content_lines_drop_ge.
Qed.

Lemma absorbs_contact_eq (line : str) (contact_lines : list str) :
  absorbs_contact line contact_lines None
  = Ok (absorbed line (length contact_lines)).
Proof.
  unfold absorbs_contact, absorbed, is_header, is_bullet_line.
  rewrite _is_section_header_eq, _is_bullet_eq.
  destruct (_is_contact_line line); [reflexivity|].
  cbn [mbind result_bind orb].
  destruct (title_is_header (line_title line)); [reflexivity|].
  cbn [negb andb].
  destruct (length contact_lines <? 3); [|reflexivity].
  cbn [mbind result_bind]. f_equal.
  rewrite bool_decide_false by (by intros [? ?]).
  by rewrite andb_true_r.
Qed.

Lemma collect_contact_lines_content fuel lines idx contact_lines :
  length lines - idx < fuel ->
  exists idx',
    collect_contact_lines fuel lines idx contact_lines None
    = Ok (contact_lines
            ++ (contact_prefix (content_lines (drop idx lines))
                               (length contact_lines)).1, idx')
    /\ content_lines (drop idx' lines)
       = (contact_prefix (content_lines (drop idx lines))
                         (length contact_lines)).2.
Proof.
  revert idx contact_lines.
  induction fuel as [|fuel IH]; intros idx cl Hfuel; [lia|].
  cbn [collect_contact_lines]. destruct (idx <? length lines) eqn:Hlt.
  - apply Nat.ltb_lt in Hlt.
    destruct (getitem_lt lines idx Hlt) as (raw & Hraw & ->).
    cbn [mbind result_bind]. rewrite (content_lines_drop _ _ _ Hraw).
    destruct (nonempty (strip raw)) eqn:E; cbn [negb app].
    + rewrite absorbs_contact_eq. cbn [mbind result_bind contact_prefix].
      destruct (absorbed (strip raw) (length cl)).
      * destruct (IH (idx + 1) (cl ++ [strip raw]))
          as (idx' & -> & Hc); [lia|].
        rewrite length_app in *. cbn [length] in *.
        replace (length cl + 1) with (S (length cl)) in * by lia.
        replace (idx + 1) with (S idx) in * by lia.
        exists idx'. split; [|exact Hc]. cbn [fst].
        by rewrite <- app_assoc.
      * exists idx. rewrite app_nil_r. split; [reflexivity|].
        rewrite (content_lines_drop _ _ _ Hraw), E. reflexivity.
    + destruct (IH (idx + 1) cl) as (idx' & -> & Hc); [lia|].
      replace (idx + 1) with (S idx) in * by lia.
      by exists idx'.
  - apply Nat.ltb_ge in Hlt. rewrite (content_lines_drop_ge _ _ Hlt).
    exists idx. rewrite app_nil_r. split; [reflexivity|].
    by apply content_lines_drop_ge.
Qed.

Lemma process_line_header line sections cur :
  is_header line = true ->
  process_line line (sections, cur)
  = Ok (sections ++ [SectionBlock (header_title line) (header_items line)],
        Some (length sections)).
Proof.
  unfold is_header. intros Hh. unfold process_line.
  rewrite _is_section_header_eq, Hh. cbn [mbind result_bind].
  rewrite _extract_section_title_eq. cbn [mbind result_bind].
  unfold header_title, header_items, splits_inline.
  destruct (contains (strip line) (py ":")
            && (10 <? length (line_inline_content line))) eqn:E.
  - apply andb_true_iff in E as [_ E]. apply Nat.ltb_lt in E.
    destruct (line_inline_content line); [cbn in E; lia|].
    apply open_section_eq.
  - apply open_section_eq.
Qed.

Lemma process_line_implicit line sections :
  is_header line = false ->
  process_line line (sections, None)
  = Ok (sections ++ [SectionBlock [] [item_of_line false line]],
        Some (length sections)).
Proof.
  unfold is_header. intros Hh. unfold process_line.
  rewrite _is_section_header_eq, Hh. cbn [mbind result_bind].
  rewrite _is_bullet_eq, _clean_bullet_text_eq.
  unfold item_of_line, is_bullet_line, bullet_text.
  cbn [mbind result_bind andb].
  destruct (match strip line with [] => false | _ => _ end);
    apply open_section_eq.
Qed.

Lemma process_line_append line l title items :
  is_header line = false ->
  process_line line (l ++ [SectionBlock title items], Some (length l))
  = Ok (l ++ [SectionBlock title (items ++ [item_of_line true line])],
        Some (length l)).
Proof.
  unfold is_header. intros Hh. unfold process_line.
  rewrite _is_section_header_eq, Hh. cbn [mbind result_bind].
  rewrite _is_bullet_eq, _clean_bullet_text_eq.
  unfold item_of_line, is_bullet_line, bullet_text.
  cbn [mbind result_bind andb].
  destruct (match strip line with [] => false | _ => _ end).
  - by rewrite append_item_last.
  - destruct (contains line (py "|") && (length line <? 120));
      by rewrite append_item_last.
Qed.

Lemma process_rest_group fuel lines idx l title items :
  length lines - idx < fuel ->
  exists ref,
    process_rest fuel lines idx
                 (l ++ [SectionBlock title items], Some (length l))
    = Ok (l ++ group_sections (content_lines (drop idx lines)) title items,
          Some ref).
Proof.
  revert idx l title items.
  induction fuel as [|fuel IH]; intros idx l title items Hfuel; [lia|].
  cbn [process_rest]. destruct (idx <? length lines) eqn:Hlt.
  - apply Nat.ltb_lt in Hlt.
    destruct (getitem_lt lines idx Hlt) as (raw & Hraw & ->).
    cbn [mbind result_bind]. rewrite (content_lines_drop _ _ _ Hraw).
    replace (idx + 1) with (S idx) by lia.
    destruct (nonempty (strip raw)) eqn:E; cbn [negb app].
    + cbn [group_sections]. destruct (is_header (strip raw)) eqn:Hh.
      * rewrite process_line_header by exact Hh. cbn [mbind result_bind].
        destruct (IH (S idx) (l ++ [SectionBlock title items])
                     (header_title (strip raw)) (header_items (strip raw)))
          as (ref & ->); [lia|].
        exists ref. by rewrite <- app_assoc.
      * rewrite process_line_append by exact Hh. cbn [mbind result_bind].
        apply IH. lia.
    + apply IH. lia.
  - apply Nat.ltb_ge in Hlt. rewrite (content_lines_drop_ge _ _ Hlt).
    by exists (length l).
Qed.

Lemma process_rest_sections fuel lines idx pre :
  length lines - idx < fuel ->
  exists cur,
    process_rest fuel lines idx (pre, None)
    = Ok (pre ++ sections_of (content_lines (drop idx lines)), cur).
Proof.
  revert idx. induction fuel as [|fuel IH]; intros idx Hfuel; [lia|].
  cbn [process_rest]. destruct (idx <? length lines) eqn:Hlt.
  - apply Nat.ltb_lt in Hlt.
    destruct (getitem_lt lines idx Hlt) as (raw & Hraw & ->).
    cbn [mbind result_bind]. rewrite (content_lines_drop _ _ _ Hraw).
    replace (idx + 1) with (S idx) by lia.
    destruct (nonempty (strip raw)) eqn:E; cbn [negb app].
    + cbn [sections_of]. destruct (is_header (strip raw)) eqn:Hh.
      * rewrite process_line_header by exact Hh. cbn [mbind result_bind].
        destruct (process_rest_group fuel lines (S idx) pre
                    (header_title (strip raw)) (header_items (strip raw)))
          as (ref & ->); [lia|].
        by eexists.
      * rewrite process_line_implicit by exact Hh. cbn [mbind result_bind].
        destruct (process_rest_group fuel lines (S idx) pre []
                    [item_of_line false (strip raw)])
          as (ref & ->); [lia|].
        by eexists.
    + apply IH. lia.
  - apply Nat.ltb_ge in Hlt. rewrite (content_lines_drop_ge _ _ Hlt).
    exists None. by rewrite app_nil_r.
Qed.

Lemma parse_document_of (text : str) :
  _parse_resume_sections text
  = Ok (document_of (content_lines (split LF text))).
Proof.
  unfold _parse_resume_sections, parse_lines.
  set (lines := split LF text).
  destruct (take_name_content (S (length lines)) lines)
    as (idx0 & -> & Hc0); [lia|].
  cbn [mbind result_bind].
  destruct (collect_contact_lines_content (S (length lines)) lines idx0 [])
    as (idx1 & -> & Hc1); [lia|].
  cbn [mbind result_bind app length]. rewrite Hc0 in Hc1.
  match goal with
  | |- context [process_rest _ _ _ (?pre, None)] =>
      destruct (process_rest_sections (S (length lines)) lines idx1 pre)
        as (cur & ->); [lia|]
  end.
  cbn [mbind result_bind]. f_equal. rewrite Hc1, Hc0.
  destruct (content_lines lines) as [|name ls]; reflexivity.
Qed.

(** X9. The parser computes a function of the stripped non-empty lines of
    the text: the first is the name; the longest run of lines that the
    contact test absorbs is the contact block; the others are grouped
    into sections, a header line opening a section and any other line
    adding an item to the open one. *)
Theorem parser_is_document_of (text : str) :
  _parse_resume_sections text
  = Ok (document_of (content_lines (split LF text))).
Proof. apply parse_document_of. Qed.

End ParserFunction.

(** ** Consequences for the document *)

Section DocumentFacts.

(** X10. Blank lines and the white space around lines do not matter: two
    texts with the same stripped non-empty lines parse to the same
    document. *)
Theorem parser_ignores_blank_lines_and_indentation (text1 text2 : str) :
  content_lines (split LF text1) = content_lines (split LF text2) ->
  _parse_resume_sections text1 = _parse_resume_sections text2.
Proof. intros H. by rewrite !parse_document_of, H. Qed.

Lemma parser_ignores_blank_lines_and_indentation_witness :
  content_lines (split LF resume_loose)
  = content_lines (split LF resume_tight)
  /\ _parse_resume_sections resume_loose
     = _parse_resume_sections resume_tight.
Proof.
  assert (H : content_lines (split LF resume_loose)
              = content_lines (split LF resume_tight))
    by (vm_compute; reflexivity).
  split; [exact H|].
  exact (parser_ignores_blank_lines_and_indentation _ _ H).
Defined.

Lemma lstrip_with_split (p : char -> bool) (s : str) :
  exists d, s = d ++ lstrip_with p s /\ Forall (fun c => p c = true) d.
Proof.
  induction s as [|c s (d & IH & Hd)]; cbn [lstrip_with].
  - exists []. by split.
  - destruct (p c) eqn:E.
    + exists (c :: d). split; [cbn; by f_equal|by constructor].
    + exists []. by split.
Qed.

Lemma lstrip_with_all (p : char -> bool) (s : str) :
  Forall (fun c => p c = true) s -> lstrip_with p s = [].
Proof.
  induction 1 as [|c s Hc Hs IH]; cbn [lstrip_with]; [done|].
  by rewrite Hc.
Qed.

Lemma strip_nil (s : str) :
  strip s = [] <-> Forall (fun c => Py_UNICODE_ISSPACE c = true) s.
Proof.
  unfold strip. split.
  - intros H. apply rstrip_with_nil in H.
    destruct (lstrip_with_split Py_UNICODE_ISSPACE s) as (d & Hs & Hd).
    rewrite Hs. apply Forall_app. by split.
  - intros H. by rewrite (lstrip_with_all _ _ H).
Qed.

Lemma split_Forall (P : char -> Prop) (sep : char) (s : str) :
  P sep -> (Forall P s <-> Forall (Forall P) (split sep s)).
Proof.
  intros Hsep. induction s as [|c s IH]; cbn [split].
  - split; intros _; repeat constructor.
  - pose proof (split_nonempty sep s) as Hne.
    destruct (c =? sep)%N eqn:E.
    + apply N.eqb_eq in E as ->. rewrite Forall_cons, IH, Forall_cons.
      split; [intros [_ H]; by split|intros [_ H]; by split].
    + destruct (split sep s) as [|w ws]; [done|].
      rewrite Forall_cons, IH, !Forall_cons. tauto.
Qed.

Lemma content_lines_nil (lines : list str) :
  content_lines lines = [] <-> Forall (fun l => strip l = []) lines.
Proof.
  induction lines as [|raw lines IH].
  - split; [constructor|reflexivity].
  - rewrite content_lines_cons, Forall_cons, <- IH.
    destruct (strip raw) eqn:E; cbn [nonempty app].
    + tauto.
    + split; [discriminate|intros [H _]; discriminate].
Qed.

(** X11. The document is empty exactly when the text holds nothing but
    white space. *)
Theorem empty_document_iff_blank_text (text : str) :
  _parse_resume_sections text = Ok []
  <-> Forall (fun c => Py_UNICODE_ISSPACE c = true) text.
Proof.
  rewrite parse_document_of.
  rewrite (split_Forall _ LF text) by (vm_compute; reflexivity).
  assert (H : Forall (Forall (fun c => Py_UNICODE_ISSPACE c = true))
                     (split LF text)
              <-> content_lines (split LF text) = []).
  { rewrite content_lines_nil. apply Forall_iff. intros l.
    symmetry. apply strip_nil. }
  rewrite H. destruct (content_lines (split LF text)).
  - done.
  - cbn [document_of]. split; [intros E; by injection E|discriminate].
Qed.

End DocumentFacts.

(** ** Invariants of the document *)

Section DocumentInvariants.

Lemma sanitized_text_clean (text : str) (c : char) :
  c ∈ _sanitize_text text -> c ∉ replaced_characters.
Proof.
  intros Hc Hk. apply is_key_replaced in Hk.
  pose proof (sanitize_key_free text) as H. unfold key_free in H.
  rewrite Forall_forall in H. rewrite (H c Hc) in Hk. discriminate.
Qed.

Lemma content_lines_nonempty (lines : list str) :
  Forall (fun l => l ≠ []) (content_lines lines).
Proof.
  induction lines as [|raw lines IH]; [constructor|].
  rewrite content_lines_cons. destruct (strip raw) eqn:E; cbn [nonempty app].
  - exact IH.
  - by constructor.
Qed.

Lemma contact_prefix_app (ls : list str) (n : nat) :
  (contact_prefix ls n).1 ++ (contact_prefix ls n).2 = ls.
Proof.
  revert n. induction ls as [|l ls IH]; intros n; cbn [contact_prefix].
  - reflexivity.
  - destruct (absorbed l n); cbn [fst snd app]; [|reflexivity].
    by rewrite IH.
Qed.

Lemma contact_prefix_Forall (P : str -> Prop) (ls : list str) (n : nat) :
  Forall P ls ->
  Forall P (contact_prefix ls n).1 /\ Forall P (contact_prefix ls n).2.
Proof.
  intros H. rewrite <- (contact_prefix_app ls n) in H.
  by apply Forall_app in H.
Qed.

Lemma is_header_title_nonempty (line : str) :
  is_header line = true -> header_title line ≠ [].
Proof.
  unfold is_header, title_is_header, header_title. intros Hh.
  apply andb_true_iff in Hh as [Hne _].
  destruct (splits_inline line); [by destruct (line_title line)|].
  intros Hnil. apply rstrip_with_nil in Hnil. unfold line_title in Hne.
  destruct (strip line) as [|c s] eqn:Hs; [discriminate|].
  apply Forall_cons in Hnil as [Hc _].
  change ((c =? COLON)%N || false = true) in Hc.
  rewrite orb_false_r in Hc. cbn [before_colon] in Hne.
  rewrite Hc in Hne. discriminate.
Qed.

Lemma header_section_wf (line : str) :
  is_header line = true ->
  block_wf (SectionBlock (header_title line) (header_items line)).
Proof.
  intros Hh. split.
  - unfold header_items, splits_inline.
    destruct (_ && _) eqn:E; [|constructor].
    apply andb_true_iff in E as [_ E]. apply Nat.ltb_lt in E.
    repeat constructor. intros Hnil. rewrite Hnil in E. cbn in E. lia.
  - intros Hnil. by apply is_header_title_nonempty in Hh.
Qed.

Lemma item_of_line_wf (in_section : bool) (line : str) :
  line ≠ [] -> item_wf (item_of_line in_section line).
Proof.
  intros Hne. unfold item_of_line. destruct (is_bullet_line line); [done|].
  destruct (in_section && (contains line (py "|") && (length line <? 120)))
    eqn:E; [|exact Hne].
  apply andb_true_iff in E as [_ E]. apply andb_true_iff in E as [E1 E2].
  split; [by apply contains_spec|by apply Nat.ltb_lt].
Qed.

Lemma item_of_line_not_job_title (line : str) :
  item_type_of (item_of_line false line) ≠ job_title.
Proof. unfold item_of_line. by destruct (is_bullet_line line). Qed.

Lemma group_sections_wf (ls : list str) (title : str) (items : list Item) :
  Forall (fun l => l ≠ []) ls ->
  block_wf (SectionBlock title items) ->
  Forall block_wf (group_sections ls title items).
Proof.
  intros Hls. revert title items.
  induction Hls as [|l ls Hl Hls IH]; intros title items Hwf;
    cbn [group_sections].
  - constructor; [exact Hwf|constructor].
  - destruct (is_header l) eqn:Hh.
    + constructor; [exact Hwf|]. by apply IH, header_section_wf.
    + apply IH. destruct Hwf as [Hitems Himplicit]. split.
      * apply Forall_app. split; [exact Hitems|].
        repeat constructor. by apply item_of_line_wf.
      * intros Ht. destruct (Himplicit Ht) as (it & rest & -> & Hit).
        by exists it, (rest ++ [item_of_line true l]).
Qed.

Lemma sections_of_wf (ls : list str) :
  Forall (fun l => l ≠ []) ls -> Forall block_wf (sections_of ls).
Proof.
  intros Hls. destruct Hls as [|l ls Hl Hls]; cbn [sections_of].
  - constructor.
  - destruct (is_header l) eqn:Hh.
    + by apply group_sections_wf, header_section_wf.
    + apply group_sections_wf; [exact Hls|]. split.
      * repeat constructor. by apply item_of_line_wf.
      * intros _. exists (item_of_line false l), []. split; [done|].
        apply item_of_line_not_job_title.
Qed.

Lemma join_nonempty (sep : str) (parts : list str) :
  Forall (fun p => p ≠ []) parts -> parts ≠ [] -> join sep parts ≠ [].
Proof.
  intros [|p ps Hp Hps] Hne; [done|]. cbn [join].
  destruct ps; [exact Hp|]. by destruct p.
Qed.

(** X12. Every document is well formed: the name and the contact text are
    not empty; paragraphs are not empty; a job title holds "|" and is
    shorter than 120 characters; a section without title has a first
    item, and that item is not a job title. *)
Theorem document_well_formed (text : str) :
  exists doc, _parse_resume_sections text = Ok doc /\ Forall block_wf doc.
Proof.
  eexists. split; [apply parse_document_of|].
  pose proof (content_lines_nonempty (split LF text)) as Hls.
  destruct Hls as [|name ls Hname Hls]; cbn [document_of]; [constructor|].
  destruct (contact_prefix_Forall _ ls 0 Hls) as [Hcl Hrest].
  constructor; [exact Hname|]. apply Forall_app. split.
  - unfold contact_block.
    destruct (contact_prefix ls 0).1 as [|c cl] eqn:E; cbn [nonempty];
      [constructor|].
    repeat constructor. by apply join_nonempty.
  - by apply sections_of_wf.
Qed.

Lemma Forall_before_colon (P : char -> Prop) (s : str) :
  Forall P s -> Forall P (before_colon s).
Proof.
  induction 1 as [|c s Hc Hs IH]; cbn [before_colon]; [constructor|].
  destruct (c =? COLON)%N; by constructor.
Qed.

Lemma Forall_after_colon (P : char -> Prop) (s : str) :
  Forall P s -> Forall P (after_colon s).
Proof.
  induction 1 as [|c s Hc Hs IH]; cbn [after_colon]; [constructor|].
  by destruct (c =? COLON)%N.
Qed.

Lemma Forall_join (P : char -> Prop) (sep : str) (parts : list str) :
  Forall P sep -> Forall (Forall P) parts -> Forall P (join sep parts).
Proof.
  intros Hsep. induction 1 as [|p ps Hp Hps IH]; cbn [join]; [constructor|].
  destruct ps; [exact Hp|]. apply Forall_app. split; [exact Hp|].
  apply Forall_app. by split.
Qed.

Section Characters.

Variable P : char -> Prop.
Hypothesis P_space : P 0x20%N.
Hypothesis P_bar : P 0x7C%N.

Lemma header_section_chars (line : str) :
  Forall P line ->
  Forall P (header_title line)
  /\ Forall (Forall P) (item_text <$> header_items line).
Proof.
  intros Hl. unfold header_title, header_items, line_title,
    line_inline_content.
  destruct (splits_inline line); split.
  - by apply Forall_strip, Forall_before_colon, Forall_strip.
  - repeat constructor. by apply Forall_strip, Forall_after_colon, Forall_strip.
  - by apply Forall_rstrip_with, Forall_strip.
  - constructor.
Qed.

Lemma item_of_line_chars (in_section : bool) (line : str) :
  Forall P line -> Forall P (item_text (item_of_line in_section line)).
Proof.
  intros Hl. unfold item_of_line, bullet_text.
  destruct (is_bullet_line line); cbn [item_text].
  - pose proof (Forall_strip P line Hl) as Hs.
    destruct (strip line) as [|c rest]; [constructor|].
    destruct (char_in c bullet_markers); [|exact Hs].
    apply Forall_cons in Hs as [_ Hs]. by apply Forall_strip.
  - by destruct (in_section && _).
Qed.

Lemma group_sections_chars (ls : list str) (title : str) (items : list Item) :
  Forall (Forall P) ls ->
  Forall P title ->
  Forall (Forall P) (item_text <$> items) ->
  document_chars P (group_sections ls title items).
Proof.
  intros Hls. revert title items.
  induction Hls as [|l ls Hl Hls IH]; intros title items Ht Hi;
    cbn [group_sections].
  - repeat constructor; assumption.
  - destruct (header_section_chars l Hl) as [Hht Hhi].
    destruct (is_header l).
    + constructor; [by constructor|]. by apply IH.
    + apply IH; [exact Ht|]. rewrite fmap_app. apply Forall_app.
      split; [exact Hi|]. repeat constructor. by apply item_of_line_chars.
Qed.

Lemma document_of_chars (ls : list str) :
  Forall (Forall P) ls -> document_chars P (document_of ls).
Proof using P_space P_bar.
  intros H. destruct H as [|name ls' Hname Hls]; cbn [document_of];
    [constructor|].
  destruct (contact_prefix_Forall _ ls' 0 Hls) as [Hcl Hrest].
  constructor; [by repeat constructor|]. apply Forall_app. split.
  - unfold contact_block. destruct (nonempty _); [|constructor].
    repeat constructor. apply Forall_join; [|exact Hcl].
    by repeat constructor.
  - destruct Hrest as [|l rest Hl Hrest]; cbn [sections_of]; [constructor|].
    destruct (header_section_chars l Hl) as [Hht Hhi].
    destruct (is_header l).
    + by apply group_sections_chars.
    + apply group_sections_chars; [exact Hrest|constructor|].
      repeat constructor. by apply item_of_line_chars.
Qed.

Lemma parsed_chars (text : str) :
  Forall P text ->
  document_chars P (document_of (content_lines (split LF text))).
Proof using P_space P_bar.
  intros Ht. apply document_of_chars.
  assert (Hlines : Forall (Forall P) (split LF text)).
  { revert Ht. generalize text. intros s.
    induction 1 as [|c s' Hc Hs IH]; cbn [split]; [by repeat constructor|].
    pose proof (split_nonempty LF s') as Hne.
    destruct (c =? LF)%N.
    - by repeat constructor.
    - destruct (split LF s') as [|w ws]; [done|].
      apply Forall_cons in IH as [Hw Hws]. by repeat constructor. }
  unfold content_lines. apply Forall_forall. intros l Hl.
  apply list_elem_of_filter in Hl as [_ Hl].
  apply list_elem_of_fmap in Hl as (raw & -> & Hraw).
  rewrite Forall_forall in Hlines. by apply Forall_strip, Hlines.
Qed.

End Characters.

(** X13. The parser invents no character: every character of a name, a
    contact text, a title or an item is a character of the text, or the
    space or the bar of the contact separator. *)
Theorem document_characters_come_from_text (text : str) :
  exists doc,
    _parse_resume_sections text = Ok doc
    /\ document_chars (fun c => c ∈ text \/ c = 0x20%N \/ c = 0x7C%N) doc.
Proof.
  eexists. split; [apply parse_document_of|].
  apply parsed_chars; [tauto|tauto|].
  apply Forall_forall. tauto.
Qed.

(** X14. Sanitizing first keeps the replaced characters out of the
    document: no name, contact text, title or item of the document of a
    sanitized text holds a character of the replacement table. *)
Theorem sanitized_document_is_clean (text : str) :
  exists doc,
    _parse_resume_sections (_sanitize_text text) = Ok doc
    /\ document_chars (fun c => c ∉ replaced_characters) doc.
Proof.
  eexists. split; [apply parse_document_of|].
  apply parsed_chars.
  - rewrite <- is_key_replaced. by vm_compute.
  - rewrite <- is_key_replaced. by vm_compute.
  - apply Forall_forall. intros c Hc.
    by eapply sanitized_text_clean.
Qed.

End DocumentInvariants.

(** ** The lines of the text and the blocks of the document *)

Section LinesKept.


(** The lines grouped while a section is open: those before the next
    header add their items to the open section, and the others split into
    groups, each starting with a header and making one section. *)
Lemma group_sections_groups (ls : list str) (title : str)
    (items : list Item) :
  exists ls0 groups sections,
    ls = ls0 ++ concat groups
    /\ Forall (fun l => is_header l = false) ls0
    /\ group_sections ls title items
       = SectionBlock title (items ++ (item_of_line true <$> ls0))
         :: sections
    /\ Forall2 section_of_group groups sections
    /\ Forall headed groups.
Proof.
  revert title items. induction ls as [|l ls IH]; intros title items;
    cbn [group_sections].
  - exists [], [], []. split; [reflexivity|]. split; [constructor|].
    split; [by rewrite app_nil_r|]. split; constructor.
  - destruct (is_header l) eqn:Hh.
    + destruct (IH (header_title l) (header_items l))
        as (ls0 & groups & sections & Hls & H0 & -> & H2 & Hhd).
      eexists [], ((l :: ls0) :: groups), _.
      split; [cbn; by rewrite Hls|].
      split; [constructor|]. split; [by rewrite app_nil_r|].
      split; [constructor; [|exact H2]|constructor; [exact Hh|exact Hhd]].
      cbn [section_of_group]. rewrite Hh. by split.
    + destruct (IH title (items ++ [item_of_line true l]))
        as (ls0 & groups & sections & Hls & H0 & -> & H2 & Hhd).
      exists (l :: ls0), groups, sections.
      split; [cbn; by rewrite Hls|].
      split; [by constructor|].
      split; [cbn [fmap list_fmap]; by rewrite <- app_assoc|].
      by split.
Qed.

Lemma sections_of_groups (ls : list str) :
  exists groups,
    ls = concat groups
    /\ Forall2 section_of_group groups (sections_of ls)
    /\ Forall headed (tail groups).
Proof.
  destruct ls as [|l ls]; cbn [sections_of].
  - exists []. split; [reflexivity|]. split; constructor.
  - destruct (is_header l) eqn:Hh.
    + destruct (group_sections_groups ls (header_title l) (header_items l))
        as (ls0 & groups & sections & Hls & H0 & -> & H2 & Hhd).
      exists ((l :: ls0) :: groups).
      split; [cbn; by rewrite Hls|].
      split; [|exact Hhd]. constructor; [|exact H2].
      cbn [section_of_group]. rewrite Hh. by split.
    + destruct (group_sections_groups ls [] [item_of_line false l])
        as (ls0 & groups & sections & Hls & H0 & -> & H2 & Hhd).
      exists ((l :: ls0) :: groups).
      split; [cbn; by rewrite Hls|].
      split; [|exact Hhd]. constructor; [|exact H2].
      cbn [section_of_group]. rewrite Hh. by split.
Qed.

(** X15. No line is dropped, repeated or moved: the stripped non-empty
    lines of the text are, in order, the name, the lines joined into the
    contact block, and one group of lines for each section of the
    document. The first line of a group gives its section the title and
    the inline paragraph, or the first item when it is no header; each
    other line of the group gives the section one item, in order; every
    group but the first starts with a header. *)
Theorem no_line_is_dropped (text : str) :
  exists doc,
    _parse_resume_sections text = Ok doc
    /\ match content_lines (split LF text) with
       | [] => doc = []
       | name :: ls =>
           exists contact groups sections,
             ls = contact ++ concat groups
             /\ doc = NameBlock name :: contact_block contact ++ sections
             /\ Forall2 section_of_group groups sections
             /\ Forall headed (tail groups)
       end.
Proof.
  eexists. split; [apply parse_document_of|].
  destruct (content_lines (split LF text)) as [|name ls]; [reflexivity|].
  cbn [document_of].
  destruct (sections_of_groups (contact_prefix ls 0).2)
    as (groups & Hls & H2 & Hhd).
  exists (contact_prefix ls 0).1, groups, (sections_of (contact_prefix ls 0).2).
  split; [|by repeat split].
  by rewrite <- Hls, contact_prefix_app.
Qed.

End LinesKept.

(** ** Text extraction *)

Section UploadFacts.

Lemma Forall_join_inv (P : char -> Prop) (sep : str) (parts : list str) :
  Forall P (join sep parts) -> Forall (Forall P) parts.
Proof.
  induction parts as [|p ps IH]; cbn [join]; [constructor|].
  destruct ps as [|p' ps].
  - by repeat constructor.
  - intros H. apply Forall_app in H as [Hp H].
    apply Forall_app in H as [_ H]. constructor; [exact Hp|by apply IH].
Qed.

Lemma strip_all_space (t : str) :
  Forall (fun c => Py_UNICODE_ISSPACE c = true) (strip t)
  <-> Forall (fun c => Py_UNICODE_ISSPACE c = true) t.
Proof.
  split; [|apply Forall_strip].
  intros H. apply strip_nil in H. rewrite strip_idempotent in H.
  by apply strip_nil.
Qed.

(** X16. Extraction from a PDF fails for want of text exactly when the
    text of every page is blank; otherwise it returns a text that is not
    blank. *)
Theorem pdf_without_text_is_rejected (pages : list str) :
  (pdf_text_of_pages pages = Raises NoTextInPdf
   <-> Forall (Forall (fun c => Py_UNICODE_ISSPACE c = true)) pages)
  /\ match pdf_text_of_pages pages with
     | Returns text => strip text ≠ []
     | Raises e => e = NoTextInPdf
     end.
Proof.
  unfold pdf_text_of_pages.
  set (parts := strip <$> filter (fun t => nonempty t = true) pages).
  assert (Hparts : strip (join [LF; LF] parts) = []
                   <-> Forall (Forall (fun c => Py_UNICODE_ISSPACE c = true))
                              pages).
  { rewrite strip_nil. split.
    - intros H. apply Forall_join_inv in H. unfold parts in H.
      rewrite Forall_fmap in H. apply Forall_forall. intros t Ht.
      destruct t as [|c t'] eqn:Et; [constructor|]. rewrite <- Et in *.
      apply strip_all_space. rewrite Forall_forall in H. apply H.
      apply list_elem_of_filter. split; [by subst|exact Ht].
    - intros H. apply Forall_join; [by repeat constructor|].
      unfold parts. apply Forall_fmap. apply Forall_forall. intros t Ht.
      apply list_elem_of_filter in Ht as [_ Ht].
      rewrite Forall_forall in H. by apply Forall_strip, H. }
  destruct (strip (join [LF; LF] parts)) eqn:E; cbn [nonempty negb].
  - split; [|reflexivity]. split; [intros _; by apply Hparts|done].
  - split; [|by rewrite E]. split; [discriminate|].
    intros H. apply Hparts in H. discriminate.
Qed.

Lemma pdf_without_text_is_rejected_aux (pages : list str) :
  (exists text, pdf_text_of_pages pages = Returns text /\ strip text ≠ [])
  \/ (exists e, pdf_text_of_pages pages = Raises e).
Proof.
  unfold pdf_text_of_pages.
  destruct (strip (join [LF; LF] _)) eqn:E; cbn [nonempty negb].
  - right. by eexists.
  - left. eexists. split; [reflexivity|]. by rewrite E.
Qed.

(** X17. Whatever [extract_text_from_upload] returns is not blank, with
    any PDF reader and any decoder; the text of a text file is returned
    stripped. *)
Theorem extracted_text_is_not_blank
    (extract_pages : list N -> option (list str))
    (decode_utf8_replace : list N -> str)
    (content : list N) (content_type filename : str) :
  match extract_text_from_upload extract_pages decode_utf8_replace
          content content_type filename with
  | Returns text => strip text ≠ []
  | Raises _ => True
  end.
Proof.
  unfold extract_text_from_upload, extract_text_from_pdf.
  destruct (_ || _).
  - destruct (extract_pages content) as [pages|]; [|done].
    destruct (pdf_without_text_is_rejected_aux pages)
      as [(text & -> & H)|(e & ->)]; [exact H|exact I].
  - destruct (_ || _); [|done].
    destruct (strip (decode_utf8_replace content)) eqn:E;
      cbn [nonempty negb]; [done|].
    rewrite <- E, strip_idempotent, E. discriminate.
Qed.

End UploadFacts.

(** ** The candidate name *)

Section CandidateName.

Local Abbreviation space := (fun c => Py_UNICODE_ISSPACE c = true).

Lemma LF_is_space : Py_UNICODE_ISSPACE LF = true.
Proof. vm_compute. reflexivity. Qed.

Lemma strip_cons_space (c : char) (s : str) :
  Py_UNICODE_ISSPACE c = true -> strip (c :: s) = strip s.
Proof. intros Hc. unfold strip. cbn [lstrip_with]. by rewrite Hc. Qed.

(** White space in front of a text adds no line. *)
Lemma content_lines_leading_space (d s : str) :
  Forall space d ->
  content_lines (split LF (d ++ s)) = content_lines (split LF s).
Proof.
  induction 1 as [|c d Hc Hd IH]; [reflexivity|].
  cbn [app split]. pose proof (split_nonempty LF (d ++ s)) as Hne.
  destruct (c =? LF)%N.
  - rewrite content_lines_cons. cbn. exact IH.
  - rewrite <- IH. destruct (split LF (d ++ s)) as [|w ws]; [done|].
    rewrite !content_lines_cons. by rewrite (strip_cons_space c w Hc).
Qed.

Lemma rstrip_with_split (p : char -> bool) (s : str) :
  exists e, s = rstrip_with p s ++ e /\ Forall (fun c => p c = true) e.
Proof.
  unfold rstrip_with.
  destruct (lstrip_with_split p (rev s)) as (d & Hs & Hd).
  exists (rev d). split; [|by apply Forall_rev].
  rewrite <- rev_app_distr, <- Hs. by rewrite rev_involutive.
Qed.

Lemma lstrip_with_app_all (p : char -> bool) (d s : str) :
  Forall (fun c => p c = true) d ->
  lstrip_with p (d ++ s) = lstrip_with p s.
Proof.
  induction 1 as [|c d Hc Hd IH]; [reflexivity|].
  cbn [app lstrip_with]. by rewrite Hc.
Qed.

Lemma rstrip_with_app_all (p : char -> bool) (s e : str) :
  Forall (fun c => p c = true) e ->
  rstrip_with p (s ++ e) = rstrip_with p s.
Proof.
  intros He. unfold rstrip_with. rewrite rev_app_distr.
  rewrite lstrip_with_app_all; [reflexivity|by apply Forall_rev].
Qed.

(** The first line of [s ++ e]: that of [s] when [s] has a line feed,
    else [s] followed by the first line of [e]. *)
Lemma split_app_head (s e : str) :
  exists w ws w' ws',
    split LF s = w :: ws
    /\ split LF (s ++ e) = w' :: ws'
    /\ (w' = w \/ exists e1 e2, w' = w ++ e1 /\ e = e1 ++ e2).
Proof.
  induction s as [|c s IH].
  - pose proof (split_nonempty LF e) as Hne. cbn [app split].
    destruct (split LF e) as [|w' ws'] eqn:E; [done|].
    exists [], [], w', ws'. split; [reflexivity|]. split; [reflexivity|].
    right. exists w'. cbn [app].
    assert (H : exists e2, e = w' ++ e2).
    { clear Hne. revert w' ws' E.
      induction e as [|x e IHe]; intros w' ws' E; cbn [split] in E.
      - injection E as <- <-. by exists [].
      - destruct (x =? LF)%N.
        + injection E as <- <-. by eexists.
        + pose proof (split_nonempty LF e) as Hne.
          destruct (split LF e) as [|w1 ws1]; [done|].
          injection E as <- <-. destruct (IHe w1 ws1 eq_refl) as [e2 ->].
          by exists e2. }
    destruct H as [e2 ->]. by exists e2.
  - destruct IH as (w & ws & w' & ws' & Hs & Hse & Hw).
    cbn [app split]. rewrite Hs, Hse. destruct (c =? LF)%N.
    + exists [], (w :: ws), [], (w' :: ws'). repeat split. by left.
    + exists (c :: w), ws, (c :: w'), ws'. repeat split.
      destruct Hw as [->|(e1 & e2 & -> & ->)]; [by left|].
      right. by exists e1, e2.
Qed.

Lemma strip_nonspace_head (c : char) (s e : str) :
  Py_UNICODE_ISSPACE c = false ->
  Forall space e ->
  strip ((c :: s) ++ e) = strip (c :: s) /\ strip (c :: s) ≠ [].
Proof.
  intros Hc He. unfold strip. cbn [app lstrip_with]. rewrite Hc.
  split.
  - by apply (rstrip_with_app_all _ (c :: s) e).
  - intros Hnil. apply rstrip_with_nil in Hnil.
    apply Forall_cons in Hnil as [Hc' _]. congruence.
Qed.

(** The first line of the stripped text, stripped, is the first of the
    stripped non-empty lines of the text. *)
Lemma first_line_is_first_content_line (text : str) :
  exists first rest,
    split LF (strip text) = first :: rest
    /\ strip first
       = match content_lines (split LF text) with
         | [] => []
         | name :: _ => name
         end.
Proof.
  destruct (lstrip_with_split Py_UNICODE_ISSPACE text) as (d & Ht & Hd).
  destruct (rstrip_with_split Py_UNICODE_ISSPACE
              (lstrip_with Py_UNICODE_ISSPACE text)) as (e & Hu & He).
  fold (strip text) in Hu.
  assert (Hc : content_lines (split LF text)
               = content_lines (split LF (strip text ++ e))).
  { rewrite Ht at 1. rewrite content_lines_leading_space by exact Hd.
    by rewrite Hu at 1. }
  rewrite Hc.
  pose proof (lstrip_with_head_false Py_UNICODE_ISSPACE text) as Hhead.
  destruct (strip text) as [|c u] eqn:Es.
  - exists [], []. split; [reflexivity|]. cbn [app].
    rewrite <- (app_nil_r e), content_lines_leading_space by exact He.
    reflexivity.
  - assert (Hc0 : Py_UNICODE_ISSPACE c = false).
    { rewrite Hu in Hhead. exact Hhead. }
    destruct (split_app_head (c :: u) e)
      as (w & ws & w' & ws' & Hs & Hse & Hw).
    exists w, ws. split; [exact Hs|]. rewrite Hse, content_lines_cons.
    assert (HcLF : (c =? LF)%N = false).
    { apply N.eqb_neq. intros ->. rewrite LF_is_space in Hc0. discriminate. }
    cbn [split] in Hs. rewrite HcLF in Hs.
    pose proof (split_nonempty LF u) as Hne.
    destruct (split LF u) as [|w0 ws0]; [done|]. injection Hs as <- <-.
    assert (Hw' : strip w' = strip (c :: w0) /\ strip (c :: w0) ≠ []).
    { destruct Hw as [->|(e1 & e2 & -> & ->)].
      - destruct (strip_nonspace_head c w0 [] Hc0) as [_ H]; [constructor|].
        by split.
      - apply strip_nonspace_head; [exact Hc0|].
        by apply Forall_app in He as [He _]. }
    destruct Hw' as [-> Hne'].
    by destruct (strip (c :: w0)).
Qed.

(** X18. The candidate name that the route takes from a text is never
    longer than 59 characters and is the name that the parser gives that
    text, unless that name has 60 characters or more, in which case it is
    "Candidato"; it is empty only for a blank text. *)
Theorem candidate_name_is_parsed_name (resume_text : str) :
  exists doc name,
    _parse_resume_sections resume_text = Ok doc
    /\ candidate_name_of resume_text = Ok name
    /\ length name < 60
    /\ name = match name_of_document doc with
              | Some first =>
                  if length first <? 60 then first else py "Candidato"
              | None => []
              end
    /\ (name = [] -> Forall space resume_text).
Proof.
  destruct (first_line_is_first_content_line resume_text)
    as (first & rest & Hs & Hf).
  pose proof (content_lines_nonempty (split LF resume_text)) as Hne.
  pose proof (content_lines_nil (split LF resume_text)) as Hnil.
  exists (document_of (content_lines (split LF resume_text))).
  exists (if length (strip first) <? 60 then strip first else py "Candidato").
  split; [apply parse_document_of|].
  split; [unfold candidate_name_of; by rewrite Hs|].
  split.
  { destruct (length (strip first) <? 60) eqn:E;
      [by apply Nat.ltb_lt|cbn; lia]. }
  destruct (content_lines (split LF resume_text)) as [|name ls]
    eqn:Ec; cbn [document_of name_of_document].
  - rewrite Hf. split; [reflexivity|]. intros _.
    apply (split_Forall _ LF resume_text LF_is_space).
    eapply Forall_impl; [by apply Hnil|]. intros l Hl. by apply strip_nil.
  - rewrite Hf. split; [reflexivity|]. intros Hname.
    apply Forall_cons in Hne as [Hne _].
    destruct (length name <? 60); [done|discriminate].
Qed.

End CandidateName.

(** ** The response of the webhook *)

Section WebhookResponse.

Lemma response_of_object (d : list (str * json)) (adjust : bool) :
  exists args, response_of_data (JDict d) adjust = inr args.
Proof.
  unfold response_of_data, py_in, py_subscript, py_get.
  destruct (bool_decide (is_Some (dict_get d (py "output")))) eqn:Ho.
  - destruct (bool_decide (is_Some (dict_get d (py "analysis"))));
      cbn [negb]; [by eexists|].
    apply bool_decide_eq_true in Ho as [v ->]. by eexists.
  - by eexists.
Qed.

Lemma response_of_other (data : json) (adjust : bool) :
  match data with JDict _ => False | _ => True end ->
  exists e, response_of_data data adjust = inl e.
Proof.
  intros Hd. unfold response_of_data.
  destruct data; try done; cbn [py_in py_subscript py_get];
    try (by eexists).
  - destruct (contains s (py "output")); [|by eexists].
    destruct (contains s (py "analysis")); by eexists.
  - destruct (existsb _ elements); [|by eexists].
    destruct (existsb _ elements); by eexists.
Qed.

(** X19. The normalisation of the response reaches the constructor
    exactly when the response is an object, the empty list, or a list that
    starts with an object; on any other response (a string, a number, a
    boolean, null, a list that starts with something else) it raises a
    [TypeError] or an [AttributeError]. *)
Theorem normalization_needs_an_object (raw : json) (adjust : bool) :
  (exists args, normalize_response raw adjust = inr args)
  <-> is_Some (response_object raw).
Proof.
  unfold normalize_response.
  assert (Hcases :
    (exists d, response_data raw = JDict d /\ response_object raw = Some d)
    \/ (match response_data raw with JDict _ => False | _ => True end
        /\ response_object raw = None)).
  { destruct raw as [| | | | |l|d]; try (right; by split).
    - destruct l as [|first l]; [left; by exists []|].
      destruct first; try (right; by split). left. by eexists.
    - left. by exists d. }
  destruct Hcases as [(d & -> & ->)|[Hd ->]].
  - split; [by eexists|]. intros _. apply response_of_object.
  - split; [|by intros [? ?]]. intros [args Hargs].
    destruct (response_of_other _ adjust Hd) as [e He].
    rewrite He in Hargs. discriminate.
Qed.

End WebhookResponse.

(** ** Headers come first *)

Section HeaderFirst.

(** X20. The header test comes before the bullet test: a line that is
    marked as a header opens a new section after the blocks built so far,
    whatever section is open and even when the line starts with a bullet
    marker. *)
Theorem header_opens_section_even_if_bullet
    (line : str) (sections : list Block) (current_section : option nat) :
  _is_section_header line = Ok true ->
  process_line line (sections, current_section)
  = Ok (sections ++ [SectionBlock (header_title line) (header_items line)],
        Some (length sections)).
Proof.
  rewrite _is_section_header_eq. intros H. injection H as H.
  by apply process_line_header.
Qed.

Lemma header_opens_section_even_if_bullet_witness :
  _is_bullet capital_bullet_line = Ok true
  /\ header_title capital_bullet_line = capital_bullet_line
  /\ process_line capital_bullet_line
       ([SectionBlock (py "SKILLS") [Bullet (py "Python")]], Some 0)
     = Ok ([SectionBlock (py "SKILLS") [Bullet (py "Python")]]
             ++ [SectionBlock (header_title capital_bullet_line)
                              (header_items capital_bullet_line)],
           Some (length [SectionBlock (py "SKILLS") [Bullet (py "Python")]])).
Proof.
  split; [vm_compute; reflexivity|]. split; [vm_compute; reflexivity|].
  apply (header_opens_section_even_if_bullet capital_bullet_line).
  vm_compute. reflexivity.
Defined.

End HeaderFirst.
(** ** A bullet before any header *)

Section ImplicitSection.





End ImplicitSection.
(** ** The two-column table *)

Section SkillsTable.

Lemma half_up_eq (m : nat) : (m + 1) / 2 = half_up m.
Proof.
  unfold half_up.
  pose proof (Nat.div_mod_eq m 2). pose proof (Nat.div_mod_eq (m + 1) 2).
  pose proof (Nat.mod_upper_bound m 2).
  pose proof (Nat.mod_upper_bound (m + 1) 2).
  lia.
Qed.

Lemma half_le (m : nat) : m / 2 <= m.
Proof. pose proof (Nat.div_mod_eq m 2). lia. Qed.

Lemma split_columns_lengths (texts : list str) :
  length (split_columns texts).1 = half_up (length texts) /\
  length (split_columns texts).2 = length texts / 2.
Proof.
  unfold split_columns. cbn [fst snd].
  rewrite length_take, length_drop, half_up_eq.
  pose proof (half_le (length texts)). unfold half_up. lia.
Qed.

Lemma split_columns_app (texts : list str) :
  (split_columns texts).1 ++ (split_columns texts).2 = texts.
Proof. unfold split_columns. cbn [fst snd]. apply take_drop. Qed.

Lemma skill_texts_filter (items : list Item) :
  skill_texts items = item_text <$> filter (fun it => item_text it ≠ []) items.
Proof.
  unfold skill_texts. induction items as [|it items IH]; [reflexivity|].
  rewrite !filter_cons. destruct (item_text it) eqn:E; simpl.
  - exact IH.
  - f_equal. exact IH.
Qed.

(** When no item has an empty text, the columns hold the texts of all the
    items. *)
Lemma skill_texts_all (items : list Item) :
  Forall (fun it => item_text it ≠ []) items ->
  skill_texts items = item_text <$> items.
Proof.
  intros H. rewrite skill_texts_filter. f_equal.
  induction H as [|it items Hit H IH]; [reflexivity|].
  rewrite filter_cons, decide_True by exact Hit. by rewrite IH.
Qed.

Lemma skills_columns_lengths (items : list Item) :
  length (skills_columns items).1 = half_up (length (skill_texts items)) /\
  length (skills_columns items).2 = length (skill_texts items) / 2.
Proof. apply split_columns_lengths. Qed.

(** C3 (amended). With [m] the number of items whose text is not empty,
    the first column has [⌈m/2⌉] texts, the second [⌊m/2⌋], and the first
    followed by the second is the list of non-empty texts in the order of
    the items. *)
Theorem skills_columns_balanced (items : list Item) :
  length (skills_columns items).1 = half_up (length (skill_texts items)) /\
  length (skills_columns items).2 = length (skill_texts items) / 2 /\
  (skills_columns items).1 ++ (skills_columns items).2
    = item_text <$> filter (fun it => item_text it ≠ []) items.
Proof.
  unfold skills_columns.
  destruct (split_columns_lengths (skill_texts items)) as [H1 H2].
  repeat split; [exact H1|exact H2|].
  rewrite split_columns_app. apply skill_texts_filter.
Qed.

(** C3 (as stated) fails on a section with an empty bullet: the parser
    yields five bullets, the section branch goes through the two-column
    table whatever the library does, and the first column has two texts,
    not three. *)
Lemma skills_columns_count_items_with_text :
  _parse_resume_sections resume_with_gap
    = Ok [NameBlock (py "Ana"); ContactBlock (py "ana@mail.com");
          SectionBlock (py "HABILIDADES") bullets_with_gap] /\
  (forall lib : library,
     render_section lib (py "HABILIDADES") bullets_with_gap
     = (table ← _build_skills_table lib bullets_with_gap;
        mret (section_heading (py "HABILIDADES") ++ [table]))) /\
  length bullets_with_gap = 5 /\
  skills_columns bullets_with_gap
    = ([py "a"; py "b"], [py "c"; py "d"]) /\
  length (skills_columns bullets_with_gap).1
    ≠ half_up (length bullets_with_gap).
Proof.
  split; [vm_compute; reflexivity|].
  split; [intros lib; reflexivity|].
  vm_compute. repeat split; discriminate.
Qed.

Lemma pad_column_length (col : list str) (n : nat) :
  length (pad_column col n) = max (length col) n.
Proof. unfold pad_column. rewrite length_app, length_replicate. lia. Qed.

Lemma pad_column_ge (col : list str) (n : nat) :
  n <= length col -> pad_column col n = col.
Proof.
  intros H. unfold pad_column.
  replace (n - length col) with 0 by lia. apply app_nil_r.
Qed.

Lemma skills_table_data_eq (lib : library) (items : list Item) :
  skills_table_data lib items
  = mapM (skill_row lib)
      (zip (skills_columns items).1
           (pad_column (skills_columns items).2
                       (length (skills_columns items).1))).
Proof.
  unfold skills_table_data.
  destruct (skills_columns_lengths items) as (H1 & H2).
  destruct (skills_columns items) as [col1 col2]. cbn [fst snd] in *.
  rewrite pad_column_ge; [reflexivity|].
  rewrite H1, H2. unfold half_up.
  pose proof (Nat.div_mod_eq (length (skill_texts items)) 2). lia.
Qed.

Lemma built_bind_Built {A B} (m : built A) (f : A -> built B) (b : B) :
  m ≫= f = Built b <-> exists a, m = Built a /\ f a = Built b.
Proof.
  destruct m as [a|e]; cbn [mbind built_bind].
  - split; [intros H; by exists a|intros (a' & [= <-] & H); exact H].
  - split; [discriminate|intros (a' & [=] & _)].
Qed.

(** A cell is built exactly when the library takes its markup. *)
Lemma skill_cell_built (lib : library) (s : str) (cell : Flow.t) :
  skill_cell lib s = Built cell
  <-> paragraph_returns lib (if nonempty s then bullet_char ++ s else [])
        STYLE_SKILL_ITEM = true
      /\ cell = Flow.Paragraph (if nonempty s then bullet_char ++ s else [])
                  STYLE_SKILL_ITEM.
Proof.
  unfold skill_cell, ReportLab.Paragraph.
  destruct (paragraph_returns lib _ STYLE_SKILL_ITEM).
  - split; [intros [= <-]; by split|intros [_ ->]; reflexivity].
  - split; [discriminate|intros [[=] _]].
Qed.

Lemma skill_row_built (lib : library) (l r : str) (row : list Flow.t) :
  skill_row lib (l, r) = Built row
  <-> (paragraph_returns lib (if nonempty l then bullet_char ++ l else [])
         STYLE_SKILL_ITEM = true
       /\ paragraph_returns lib (if nonempty r then bullet_char ++ r else [])
            STYLE_SKILL_ITEM = true)
      /\ row = [Flow.Paragraph (if nonempty l then bullet_char ++ l else [])
                  STYLE_SKILL_ITEM;
                Flow.Paragraph (if nonempty r then bullet_char ++ r else [])
                  STYLE_SKILL_ITEM].
Proof.
  unfold skill_row. cbn [fst snd].
  destruct (skill_cell lib l) as [cl|e] eqn:El; cbn [mbind built_bind].
  - apply skill_cell_built in El as [Hl ->].
    destruct (skill_cell lib r) as [cr|e] eqn:Er; cbn [mbind built_bind].
    + apply skill_cell_built in Er as [Hr ->].
      split; [intros [= <-]; by repeat split|intros [_ ->]; reflexivity].
    + split; [discriminate|]. intros [[_ Hr] _].
      assert (H : skill_cell lib r = Built
                    (Flow.Paragraph
                       (if nonempty r then bullet_char ++ r else [])
                       STYLE_SKILL_ITEM))
        by (apply skill_cell_built; by split).
      congruence.
  - split; [discriminate|]. intros [[Hl _] _].
    assert (H : skill_cell lib l = Built
                  (Flow.Paragraph
                     (if nonempty l then bullet_char ++ l else [])
                     STYLE_SKILL_ITEM))
      by (apply skill_cell_built; by split).
    congruence.
Qed.

(** The rows are built exactly when the library takes the markup of every
    cell, and they are then the cells of the two columns side by side. *)
Lemma skill_rows_built (lib : library) (col1 col2 : list str)
    (data : list (list Flow.t)) :
  length col2 = length col1 ->
  mapM (skill_row lib) (zip col1 col2) = Built data
  <-> data
      = zip_with
          (fun l r =>
             [Flow.Paragraph (if nonempty l then bullet_char ++ l else [])
                STYLE_SKILL_ITEM;
              Flow.Paragraph (if nonempty r then bullet_char ++ r else [])
                STYLE_SKILL_ITEM])
          col1 col2
      /\ Forall (fun s =>
                   paragraph_returns lib
                     (if nonempty s then bullet_char ++ s else [])
                     STYLE_SKILL_ITEM = true) (col1 ++ col2).
Proof.
  revert col2 data.
  induction col1 as [|l col1 IH]; intros [|r col2] data Hlen;
    simpl in Hlen; try discriminate.
  - cbn. split; [intros [= <-]; by split|intros [-> _]; reflexivity].
  - cbn [zip zip_with mapM].
    rewrite <- app_comm_cons, Forall_cons, Forall_app, Forall_cons.
    destruct (skill_row lib (l, r)) as [row|e] eqn:Erow;
      cbn [mbind built_bind].
    + apply skill_row_built in Erow as [[Hl Hr] ->].
      destruct (mapM (skill_row lib) (zip_with pair col1 col2))
        as [rows|e] eqn:Erows; cbn [mbind built_bind mret built_ret].
      * apply IH in Erows as [-> Hall]; [|lia].
        apply Forall_app in Hall as [H1 H2].
        split; [intros [= <-]; by repeat split|].
        intros [-> _]. reflexivity.
      * split; [discriminate|]. intros (_ & _ & H1 & _ & H2).
        assert (H : mapM (skill_row lib) (zip col1 col2)
                    = Built
                        (zip_with
                           (fun l r =>
                              [Flow.Paragraph
                                 (if nonempty l then bullet_char ++ l else [])
                                 STYLE_SKILL_ITEM;
                               Flow.Paragraph
                                 (if nonempty r then bullet_char ++ r else [])
                                 STYLE_SKILL_ITEM]) col1 col2)).
        { apply IH; [lia|]. split; [reflexivity|].
          apply Forall_app. by split. }
        change (zip_with pair col1 col2) with (zip col1 col2) in Erows.
        congruence.
    + split; [discriminate|]. intros (_ & Hl & _ & Hr & _).
      assert (H : skill_row lib (l, r)
                  = Built
                      [Flow.Paragraph
                         (if nonempty l then bullet_char ++ l else [])
                         STYLE_SKILL_ITEM;
                       Flow.Paragraph
                         (if nonempty r then bullet_char ++ r else [])
                         STYLE_SKILL_ITEM])
        by (apply skill_row_built; by repeat split).
      congruence.
Qed.

(** C10. The table is built from the items with a non-empty text only.
    With [m] such items, the rows are [⌈m/2⌉]: the left cells hold the
    first [⌈m/2⌉] of their texts and the right cells the remaining ones,
    followed by at most one empty placeholder. The table is built exactly
    when the library takes the markup of each of these cells and the
    rows. *)
Theorem skills_table_drops_empty_items (lib : library) (items : list Item) :
  let texts := item_text <$> filter (fun it => item_text it ≠ []) items in
  let m := length texts in
  let markup (s : str) := if nonempty s then bullet_char ++ s else [] in
  let col1 := take (half_up m) texts in
  let col2 := drop (half_up m) texts ++ replicate (half_up m - m / 2) [] in
  let data :=
    zip_with (fun l r => [Flow.Paragraph (markup l) STYLE_SKILL_ITEM;
                          Flow.Paragraph (markup r) STYLE_SKILL_ITEM])
             col1 col2 in
  length data = half_up m
  /\ forall table : Flow.t,
       _build_skills_table lib items = Built table
       <-> table = Flow.Table data
           /\ Forall (fun s =>
                        paragraph_returns lib (markup s) STYLE_SKILL_ITEM
                        = true) (col1 ++ col2)
           /\ table_returns lib data = true.
Proof.
  intros texts m markup col1 col2 data.
  destruct (skills_columns_lengths items) as (H1 & H2).
  assert (Ht : skill_texts items = texts) by apply skill_texts_filter.
  rewrite Ht in H1, H2. fold m in H1, H2.
  assert (Hcols : skills_columns items
                  = (take (half_up m) texts, drop (half_up m) texts)).
  { unfold skills_columns, split_columns. rewrite Ht.
    fold m. by rewrite half_up_eq. }
  rewrite Hcols in H1, H2. cbn [fst snd] in H1, H2.
  assert (Hpad : pad_column (drop (half_up m) texts)
                            (length (take (half_up m) texts)) = col2).
  { unfold pad_column, col2. by rewrite H1, H2. }
  assert (Hlen : length col2 = length col1).
  { rewrite <- Hpad, pad_column_length. unfold col1. rewrite H2, H1.
    unfold half_up. pose proof (Nat.div_mod_eq m 2). lia. }
  split.
  { unfold data. rewrite length_zip_with.
    etrans; [apply Nat.min_l, Nat.eq_le_incl; symmetry; exact Hlen|].
    exact H1. }
  intros table. unfold _build_skills_table. rewrite built_bind_Built.
  split.
  - intros (rows & Hrows & Htab).
    rewrite skills_table_data_eq, Hcols in Hrows. cbn [fst snd] in Hrows.
    rewrite Hpad in Hrows.
    apply skill_rows_built in Hrows as [-> Hall]; [|exact Hlen].
    unfold ReportLab.Table in Htab.
    destruct (table_returns lib _) eqn:Et; [|discriminate].
    injection Htab as <-. split; [reflexivity|]. split; [exact Hall|].
    first [exact Et|reflexivity].
  - intros (-> & Hall & Et). exists data. split.
    + rewrite skills_table_data_eq, Hcols. cbn [fst snd]. rewrite Hpad.
      apply skill_rows_built; [exact Hlen|]. split; [reflexivity|exact Hall].
    + unfold ReportLab.Table. by rewrite Et.
Qed.

End SkillsTable.

(** ** The section branch of the layout *)

Section Layout.

Lemma is_skills_spec (title : str) :
  existsb (fun kw => contains (lower title) kw) skills_keywords = true <->
  exists kw, kw ∈ skills_keywords /\ occurs_in kw (lower title).
Proof.
  rewrite existsb_exists. split.
  - intros [kw [Hin Hc]]. exists kw. split.
    + by apply list_elem_of_In.
    + by apply contains_spec.
  - intros [kw [Hin Hc]]. exists kw. split.
    + by apply list_elem_of_In.
    + by apply contains_spec.
Qed.

Lemma all_bullets_spec (items : list Item) :
  forallb (fun it => item_type_eqb (item_type_of it) bullet) items = true <->
  Forall (fun it => item_type_of it = bullet) items.
Proof.
  rewrite forallb_forall, Forall_forall. split; intros H it Hin.
  - apply list_elem_of_In in Hin. specialize (H it Hin).
    by destruct (item_type_of it).
  - apply list_elem_of_In in Hin. rewrite (H it Hin). reflexivity.
Qed.

(** The test of the two-column layout. *)
Lemma two_columns_spec (title : str) (items : list Item) :
  existsb (fun kw => contains (lower title) kw) skills_keywords
  && (if nonempty items
      then forallb (fun it => item_type_eqb (item_type_of it) bullet) items
      else false)
  && (4 <=? length items) = true
  <-> (exists kw, kw ∈ skills_keywords /\ occurs_in kw (lower title))
      /\ Forall (fun it => item_type_of it = bullet) items
      /\ 4 <= length items.
Proof.
  rewrite <- is_skills_spec, <- all_bullets_spec, <- Nat.leb_le.
  rewrite !andb_true_iff.
  destruct items as [|it items]; cbn [nonempty]; [|tauto].
  cbn [length Nat.leb]. split; [intros [[_ [=]] _]|intros (_ & _ & [=])].
Qed.

(** A keyword occurs in no empty title. *)
Lemma skills_title_nonempty (title : str) :
  (exists kw, kw ∈ skills_keywords /\ occurs_in kw (lower title)) ->
  nonempty title = true.
Proof.
  intros H. apply is_skills_spec in H.
  destruct title; [vm_compute in H; discriminate|reflexivity].
Qed.

(** An item is laid out exactly when the library takes its text, and it
    is then the flowable of its type. *)
Lemma render_item_built (lib : library) (item : Item) (flowable : Flow.t) :
  render_item lib item = Built flowable
  <-> match item with
      | Bullet t =>
          (paragraph_returns lib t STYLE_BULLET
           && wrap_returns lib t STYLE_BULLET = true)
          /\ flowable = Flow.BulletPoint t STYLE_BULLET
      | JobTitle t =>
          paragraph_returns lib t STYLE_JOB_TITLE = true
          /\ flowable = Flow.Paragraph t STYLE_JOB_TITLE
      | Paragraph t =>
          paragraph_returns lib t STYLE_BODY = true
          /\ flowable = Flow.Paragraph t STYLE_BODY
      end.
Proof.
  destruct item as [t|t|t];
    unfold render_item, BulletPoint, ReportLab.Paragraph;
    cbn [item_type_of item_text].
  - destruct (paragraph_returns lib t STYLE_BODY).
    + split; [intros [= <-]; by split|intros [_ ->]; reflexivity].
    + split; [discriminate|intros [[=] _]].
  - destruct (paragraph_returns lib t STYLE_BULLET);
      cbn [mbind built_bind andb].
    + destruct (wrap_returns lib t STYLE_BULLET).
      * split; [intros [= <-]; by split|intros [_ ->]; reflexivity].
      * split; [discriminate|intros [[=] _]].
    + split; [discriminate|intros [[=] _]].
  - destruct (paragraph_returns lib t STYLE_JOB_TITLE).
    + split; [intros [= <-]; by split|intros [_ ->]; reflexivity].
    + split; [discriminate|intros [[=] _]].
Qed.

Lemma render_items_built (lib : library) (items : list Item)
    (flowables : list Flow.t) :
  mapM (render_item lib) items = Built flowables
  <-> Forall2 (fun item flowable => render_item lib item = Built flowable)
              items flowables.
Proof.
  revert flowables. induction items as [|it items IH]; intros flowables.
  - cbn. split; [intros [= <-]; constructor|].
    intros H. by inversion H.
  - cbn [mapM]. rewrite built_bind_Built. split.
    + intros (f & Hf & H).
      apply built_bind_Built in H as (fs & Hfs & [= <-]).
      constructor; [exact Hf|by apply IH].
    + intros H. inversion H as [|? f ? fs Hf Hfs]; subst.
      exists f. split; [exact Hf|]. apply built_bind_Built.
      exists fs. split; [by apply IH|reflexivity].
Qed.

(** The flowable of an item is no table and no spacer. *)
Lemma rendered_item_shape (lib : library) (item : Item) (flowable : Flow.t) :
  render_item lib item = Built flowable ->
  (forall data, flowable ≠ Flow.Table data)
  /\ (forall w h, flowable ≠ Flow.Spacer w h).
Proof.
  intros H. apply render_item_built in H.
  destruct item; destruct H as [_ ->]; by split.
Qed.

(** C9 (amended). Whether a section goes to the two-column table is decided
    by the title, the types of the items and their number: when the
    lowercased title contains a skills keyword, every item is a bullet and
    there are at least four, the section is rendered exactly when the table
    is built, as the heading followed by the table; otherwise it is rendered
    exactly when the library takes the text of every item, as the heading
    followed by one flowable per item. So a rendered section is the heading
    and a table exactly under the three conditions. Three bullets whose
    texts the library takes are laid out one under the other. *)
Theorem two_column_layout_condition
    (lib : library) (title : str) (items : list Item) :
  let two_columns :=
    (exists kw, kw ∈ skills_keywords /\ occurs_in kw (lower title))
    /\ Forall (fun it => item_type_of it = bullet) items
    /\ 4 <= length items in
  let taken (it : Item) :=
    match it with
    | Bullet t =>
        paragraph_returns lib t STYLE_BULLET && wrap_returns lib t STYLE_BULLET
    | JobTitle t => paragraph_returns lib t STYLE_JOB_TITLE
    | Paragraph t => paragraph_returns lib t STYLE_BODY
    end in
  let stacked (it : Item) :=
    match it with
    | Bullet t => Flow.BulletPoint t STYLE_BULLET
    | JobTitle t => Flow.Paragraph t STYLE_JOB_TITLE
    | Paragraph t => Flow.Paragraph t STYLE_BODY
    end in
  (forall flowables,
     render_section lib title items = Built flowables ->
     (two_columns
      <-> exists data,
            flowables = [Flow.Spacer 1 4; Flow.SectionHeader title;
                         Flow.Spacer 1 6; Flow.Table data]))
  /\ (two_columns ->
      forall flowables,
        render_section lib title items = Built flowables
        <-> exists table,
              _build_skills_table lib items = Built table
              /\ flowables = [Flow.Spacer 1 4; Flow.SectionHeader title;
                              Flow.Spacer 1 6; table])
  /\ (~ two_columns ->
      forall flowables,
        render_section lib title items = Built flowables
        <-> Forall (fun it => taken it = true) items
            /\ flowables
               = (if nonempty title
                  then [Flow.Spacer 1 4; Flow.SectionHeader title;
                        Flow.Spacer 1 6]
                  else [])
                 ++ (stacked <$> items))
  /\ (forall a b c : str,
        Forall (fun t => taken (Bullet t) = true) [a; b; c] ->
        render_section lib title [Bullet a; Bullet b; Bullet c]
        = Built ((if nonempty title
                  then [Flow.Spacer 1 4; Flow.SectionHeader title;
                        Flow.Spacer 1 6]
                  else [])
                 ++ [Flow.BulletPoint a STYLE_BULLET;
                     Flow.BulletPoint b STYLE_BULLET;
                     Flow.BulletPoint c STYLE_BULLET])).
Proof.
  intros two_columns taken stacked.
  assert (Hitems : forall its fl,
            mapM (render_item lib) its = Built fl
            <-> Forall (fun it => taken it = true) its
                /\ fl = stacked <$> its).
  { intros its fl. rewrite render_items_built. split.
    - intros H. induction H as [|it f its' fl' Hit _ [IH1 IH2]];
        [by split|].
      apply render_item_built in Hit.
      destruct it; destruct Hit as [Ht ->]; subst fl';
        (split; [by constructor|reflexivity]).
    - intros [H ->]. induction H as [|it its' Hit _ IH]; [constructor|].
      cbn [fmap list_fmap]. constructor; [|exact IH].
      apply render_item_built. destruct it; by split. }
  assert (Hyes : two_columns ->
            forall flowables,
              render_section lib title items = Built flowables
              <-> exists table,
                    _build_skills_table lib items = Built table
                    /\ flowables = [Flow.Spacer 1 4; Flow.SectionHeader title;
                                    Flow.Spacer 1 6; table]).
  { intros H flowables.
    pose proof (skills_title_nonempty title (proj1 H)) as Ht.
    apply two_columns_spec in H. unfold render_section, section_heading.
    rewrite H, Ht, built_bind_Built. split.
    - intros (table & Hb & [= <-]). by exists table.
    - intros (table & Hb & ->). by exists table. }
  assert (Hno : forall its,
            ~ ((exists kw, kw ∈ skills_keywords /\ occurs_in kw (lower title))
               /\ Forall (fun it => item_type_of it = bullet) its
               /\ 4 <= length its) ->
            forall flowables,
              render_section lib title its = Built flowables
              <-> Forall (fun it => taken it = true) its
                  /\ flowables = section_heading title ++ (stacked <$> its)).
  { intros its H flowables.
    assert (Hb : existsb (fun kw => contains (lower title) kw)
                   skills_keywords
                 && (if nonempty its
                     then forallb
                            (fun it => item_type_eqb (item_type_of it) bullet)
                            its
                     else false)
                 && (4 <=? length its) = false).
    { apply not_true_is_false. intros Hb. apply H.
      by apply two_columns_spec. }
    unfold render_section. rewrite Hb, built_bind_Built. split.
    - intros (fl & Hfl & [= <-]). apply Hitems in Hfl as [Hall ->].
      by split.
    - intros [Hall ->]. exists (stacked <$> its).
      split; [by apply Hitems|reflexivity]. }
  split; [|split; [exact Hyes|split; [exact (Hno items)|]]].
  - intros flowables Hr.
    destruct (decide (existsb (fun kw => contains (lower title) kw)
                        skills_keywords
                      && (if nonempty items
                          then forallb
                                 (fun it =>
                                    item_type_eqb (item_type_of it) bullet)
                                 items
                          else false)
                      && (4 <=? length items) = true)) as [Hd|Hd].
    + apply two_columns_spec in Hd. split; [intros _|intros _; exact Hd].
      apply (Hyes Hd) in Hr as (table & Hb & ->).
      unfold _build_skills_table in Hb.
      apply built_bind_Built in Hb as (data & _ & Hb).
      unfold ReportLab.Table in Hb.
      destruct (table_returns lib data); [|discriminate].
      injection Hb as <-. by exists data.
    + rewrite two_columns_spec in Hd.
      split; [intros H; by destruct Hd|]. intros [data ->].
      apply (Hno items Hd) in Hr as [Hall Hr]. exfalso.
      unfold section_heading in Hr.
      destruct (nonempty title).
      * injection Hr as Hr. destruct items as [|it [|??]]; try discriminate.
        injection Hr as Hr. by destruct it.
      * destruct items as [|it ?]; [discriminate|].
        injection Hr as Hr _. by destruct it.
  - intros a b c Hall.
    apply (Hno [Bullet a; Bullet b; Bullet c]).
    + cbn [length]. lia.
    + split; [|reflexivity].
      inversion Hall as [|? ? Ha Hbc]; subst.
      inversion Hbc as [|? ? Hb Hc]; subst.
      inversion Hc as [|? ? Hc' _]; subst.
      by repeat constructor.
Qed.

(** C9 (as stated) fails on a skills section with four bullets of which
    one opens a tag that it does not close. The parser yields the section
    from a sanitized text and the three conditions hold; but with any
    library that refuses the markup of that bullet, the exception of
    [Paragraph] leaves the function and the section is not rendered, in two
    columns or otherwise; nor are its first three bullets laid out one under
    the other. So it is with the library that refuses unclosed tags only,
    and the section is not rendered in two columns whatever the library. *)
Lemma unclosed_tag_is_not_laid_out :
  _parse_resume_sections (_sanitize_text resume_with_markup)
    = Ok [NameBlock (py "Ana"); ContactBlock (py "ana@mail.com");
          SectionBlock (py "HABILIDADES") skills_with_markup]
  /\ ((exists kw,
         kw ∈ skills_keywords /\ occurs_in kw (lower (py "HABILIDADES")))
      /\ Forall (fun it => item_type_of it = bullet) skills_with_markup
      /\ 4 <= length skills_with_markup)
  /\ (forall lib : library,
        paragraph_returns lib (bullet_char ++ py "<b>HTML") STYLE_SKILL_ITEM
        = false ->
        render_section lib (py "HABILIDADES") skills_with_markup
        = Raised FromParagraph)
  /\ (forall lib : library,
        paragraph_returns lib (py "<b>HTML") STYLE_BULLET = false ->
        render_section lib (py "HABILIDADES") (take 3 skills_with_markup)
        = Raised FromParagraph)
  /\ render_section tag_checking_library (py "HABILIDADES")
       skills_with_markup
     = Raised FromParagraph
  /\ ~ (forall lib : library,
          exists data,
            render_section lib (py "HABILIDADES") skills_with_markup
            = Built [Flow.Spacer 1 4; Flow.SectionHeader (py "HABILIDADES");
                     Flow.Spacer 1 6; Flow.Table data]).
Proof.
  split; [vm_compute; reflexivity|].
  split; [apply two_columns_spec; vm_compute; reflexivity|].
  split.
  { intros lib H. vm_compute in H. vm_compute. by rewrite H. }
  split.
  { intros lib H. vm_compute in H. vm_compute. by rewrite H. }
  split; [vm_compute; reflexivity|].
  intros H. destruct (H tag_checking_library) as [data Hd].
  vm_compute in Hd. discriminate.
Qed.

End Layout.
